(** * proyecto.py: the console assistant for Google Calendar

    A shallow embedding of [src/proyecto.py] and the properties of its
    interpretation layer: intent detection ([detect_intent]), slot
    extraction ([parse_event_from_text]), the interactive completion of a
    draft ([completar_datos], [confirmar_evento]), the construction of the
    calendar request ([create_event]) and the loop of [main].

    Conventions of the embedding.
    - A Python [str] is a list of Unicode code points ([N]).  String
      literals of the source are written as Rocq strings (UTF-8) and
      decoded by [py].
    - [str.isspace] / [\s], [\d], [\w] / [\b], [str.lower] and [int] are
      given on the whole of Unicode, from the tables of Python 3.11
      (Unicode 14).  Under [re.IGNORECASE] a letter of a pattern is
      compared as [re] compares an ASCII letter, which is what the
      patterns of the source hold.
    - The regular expressions of the source are values of [regex], run by
      a backtracking matcher with the priorities of Python's [re]
      (leftmost start, greedy repetition, first alternative first).
    - [dateparser.parse], the clock and the Google Calendar service are
      outside the repository: they are parameters of the development.
    - A [datetime] holds its date as a day number; sums that leave the
      years 1 to 9999 raise [OverflowError], as [datetime] does.  The zone
      of the program is taken at its rule since October 2006, UTC-06:00;
      the statements that depend on that rule say so. *)

From Stdlib Require Import ZArith NArith List String Ascii Bool Lia.
Import ListNotations.
Open Scope list_scope.

Set Implicit Arguments.

(* ================================================================== *)
(** * Text: Python strings as lists of code points *)

Module Text.

Definition str := list N.

(** UTF-8 decoding of the bytes of a literal (well-formed input). *)
Fixpoint utf8_decode (bs : list N) : str :=
  match bs with
  | [] => []
  | b0 :: tl =>
      if (b0 <? 0x80)%N then b0 :: utf8_decode tl
      else if (b0 <? 0xE0)%N then
        match tl with
        | b1 :: tl1 =>
            N.lor (N.shiftl (N.land b0 0x1F) 6) (N.land b1 0x3F)
              :: utf8_decode tl1
        | _ => []
        end
      else if (b0 <? 0xF0)%N then
        match tl with
        | b1 :: b2 :: tl2 =>
            N.lor (N.shiftl (N.land b0 0x0F) 12)
              (N.lor (N.shiftl (N.land b1 0x3F) 6) (N.land b2 0x3F))
              :: utf8_decode tl2
        | _ => []
        end
      else
        match tl with
        | b1 :: b2 :: b3 :: tl3 =>
            N.lor (N.shiftl (N.land b0 0x07) 18)
              (N.lor (N.shiftl (N.land b1 0x3F) 12)
                 (N.lor (N.shiftl (N.land b2 0x3F) 6) (N.land b3 0x3F)))
              :: utf8_decode tl3
        | _ => []
        end
  end.

(** A literal of the source. *)
Definition py (s : string) : str :=
  utf8_decode (map N_of_ascii (list_ascii_of_string s)).

Definition in_range (lo hi c : N) : bool := ((lo <=? c) && (c <=? hi))%N.

(** [str.isspace] on one character; also the class [\s] of [re]. *)
Definition is_space (c : N) : bool :=
  in_range 0x09 0x0D c || in_range 0x1C 0x20 c
  || (c =? 0x85)%N || (c =? 0xA0)%N || (c =? 0x1680)%N
  || in_range 0x2000 0x200A c
  || (c =? 0x2028)%N || (c =? 0x2029)%N || (c =? 0x202F)%N
  || (c =? 0x205F)%N || (c =? 0x3000)%N.

(** Membership in a table of ranges. *)
Definition in_ranges (t : list (N * N)) (c : N) : bool :=
  existsb (fun r => in_range (fst r) (snd r) c) t.

(** The decimal digits of Unicode (category Nd) come in runs of ten, from
    the digit zero to the digit nine; these are the zeros after the ASCII
    one. *)
Definition DIGIT_ZEROS : list N :=
  [
   0x660; 0x6F0; 0x7C0; 0x966; 0x9E6; 0xA66; 0xAE6; 0xB66;
   0xBE6; 0xC66; 0xCE6; 0xD66; 0xDE6; 0xE50; 0xED0; 0xF20;
   0x1040; 0x1090; 0x17E0; 0x1810; 0x1946; 0x19D0; 0x1A80; 0x1A90;
   0x1B50; 0x1BB0; 0x1C40; 0x1C50; 0xA620; 0xA8D0; 0xA900; 0xA9D0;
   0xA9F0; 0xAA50; 0xABF0; 0xFF10; 0x104A0; 0x10D30; 0x11066; 0x110F0;
   0x11136; 0x111D0; 0x112F0; 0x11450; 0x114D0; 0x11650; 0x116C0; 0x11730;
   0x118E0; 0x11950; 0x11C50; 0x11D50; 0x11DA0; 0x16A60; 0x16AC0; 0x16B50;
   0x1D7CE; 0x1D7D8; 0x1D7E2; 0x1D7EC; 0x1D7F6; 0x1E140; 0x1E2F0; 0x1E950;
   0x1FBF0
  ]%N.

(** [unicodedata.decimal]: the value of a decimal digit. *)
Definition decimal (c : N) : option Z :=
  if (c <? 0x80)%N then
    if in_range 0x30 0x39 c then Some (Z.of_N c - 48)%Z else None
  else
    match find (fun z => in_range z (z + 9) c) DIGIT_ZEROS with
    | Some z => Some (Z.of_N (c - z))
    | None => None
    end.

(** The class [\d] ([str.isdecimal]) and the digits read by [int]. *)
Definition is_digit (c : N) : bool :=
  match decimal c with Some _ => true | None => false end.

(** The alphanumeric characters ([str.isalnum]) after U+007F. *)
Definition WORD_RANGES : list (N * N) :=
  [
   (0xAA, 0xAA); (0xB2, 0xB3); (0xB5, 0xB5); (0xB9, 0xBA); (0xBC, 0xBE);
   (0xC0, 0xD6); (0xD8, 0xF6); (0xF8, 0x2C1); (0x2C6, 0x2D1); (0x2E0, 0x2E4);
   (0x2EC, 0x2EC); (0x2EE, 0x2EE); (0x370, 0x374); (0x376, 0x377); (0x37A, 0x37D);
   (0x37F, 0x37F); (0x386, 0x386); (0x388, 0x38A); (0x38C, 0x38C); (0x38E, 0x3A1);
   (0x3A3, 0x3F5); (0x3F7, 0x481); (0x48A, 0x52F); (0x531, 0x556); (0x559, 0x559);
   (0x560, 0x588); (0x5D0, 0x5EA); (0x5EF, 0x5F2); (0x620, 0x64A); (0x660, 0x669);
   (0x66E, 0x66F); (0x671, 0x6D3); (0x6D5, 0x6D5); (0x6E5, 0x6E6); (0x6EE, 0x6FC);
   (0x6FF, 0x6FF); (0x710, 0x710); (0x712, 0x72F); (0x74D, 0x7A5); (0x7B1, 0x7B1);
   (0x7C0, 0x7EA); (0x7F4, 0x7F5); (0x7FA, 0x7FA); (0x800, 0x815); (0x81A, 0x81A);
   (0x824, 0x824); (0x828, 0x828); (0x840, 0x858); (0x860, 0x86A); (0x870, 0x887);
   (0x889, 0x88E); (0x8A0, 0x8C9); (0x904, 0x939); (0x93D, 0x93D); (0x950, 0x950);
   (0x958, 0x961); (0x966, 0x96F); (0x971, 0x980); (0x985, 0x98C); (0x98F, 0x990);
   (0x993, 0x9A8); (0x9AA, 0x9B0); (0x9B2, 0x9B2); (0x9B6, 0x9B9); (0x9BD, 0x9BD);
   (0x9CE, 0x9CE); (0x9DC, 0x9DD); (0x9DF, 0x9E1); (0x9E6, 0x9F1); (0x9F4, 0x9F9);
   (0x9FC, 0x9FC); (0xA05, 0xA0A); (0xA0F, 0xA10); (0xA13, 0xA28); (0xA2A, 0xA30);
   (0xA32, 0xA33); (0xA35, 0xA36); (0xA38, 0xA39); (0xA59, 0xA5C); (0xA5E, 0xA5E);
   (0xA66, 0xA6F); (0xA72, 0xA74); (0xA85, 0xA8D); (0xA8F, 0xA91); (0xA93, 0xAA8);
   (0xAAA, 0xAB0); (0xAB2, 0xAB3); (0xAB5, 0xAB9); (0xABD, 0xABD); (0xAD0, 0xAD0);
   (0xAE0, 0xAE1); (0xAE6, 0xAEF); (0xAF9, 0xAF9); (0xB05, 0xB0C); (0xB0F, 0xB10);
   (0xB13, 0xB28); (0xB2A, 0xB30); (0xB32, 0xB33); (0xB35, 0xB39); (0xB3D, 0xB3D);
   (0xB5C, 0xB5D); (0xB5F, 0xB61); (0xB66, 0xB6F); (0xB71, 0xB77); (0xB83, 0xB83);
   (0xB85, 0xB8A); (0xB8E, 0xB90); (0xB92, 0xB95); (0xB99, 0xB9A); (0xB9C, 0xB9C);
   (0xB9E, 0xB9F); (0xBA3, 0xBA4); (0xBA8, 0xBAA); (0xBAE, 0xBB9); (0xBD0, 0xBD0);
   (0xBE6, 0xBF2); (0xC05, 0xC0C); (0xC0E, 0xC10); (0xC12, 0xC28); (0xC2A, 0xC39);
   (0xC3D, 0xC3D); (0xC58, 0xC5A); (0xC5D, 0xC5D); (0xC60, 0xC61); (0xC66, 0xC6F);
   (0xC78, 0xC7E); (0xC80, 0xC80); (0xC85, 0xC8C); (0xC8E, 0xC90); (0xC92, 0xCA8);
   (0xCAA, 0xCB3); (0xCB5, 0xCB9); (0xCBD, 0xCBD); (0xCDD, 0xCDE); (0xCE0, 0xCE1);
   (0xCE6, 0xCEF); (0xCF1, 0xCF2); (0xD04, 0xD0C); (0xD0E, 0xD10); (0xD12, 0xD3A);
   (0xD3D, 0xD3D); (0xD4E, 0xD4E); (0xD54, 0xD56); (0xD58, 0xD61); (0xD66, 0xD78);
   (0xD7A, 0xD7F); (0xD85, 0xD96); (0xD9A, 0xDB1); (0xDB3, 0xDBB); (0xDBD, 0xDBD);
   (0xDC0, 0xDC6); (0xDE6, 0xDEF); (0xE01, 0xE30); (0xE32, 0xE33); (0xE40, 0xE46);
   (0xE50, 0xE59); (0xE81, 0xE82); (0xE84, 0xE84); (0xE86, 0xE8A); (0xE8C, 0xEA3);
   (0xEA5, 0xEA5); (0xEA7, 0xEB0); (0xEB2, 0xEB3); (0xEBD, 0xEBD); (0xEC0, 0xEC4);
   (0xEC6, 0xEC6); (0xED0, 0xED9); (0xEDC, 0xEDF); (0xF00, 0xF00); (0xF20, 0xF33);
   (0xF40, 0xF47); (0xF49, 0xF6C); (0xF88, 0xF8C); (0x1000, 0x102A); (0x103F, 0x1049);
   (0x1050, 0x1055); (0x105A, 0x105D); (0x1061, 0x1061); (0x1065, 0x1066); (0x106E, 0x1070);
   (0x1075, 0x1081); (0x108E, 0x108E); (0x1090, 0x1099); (0x10A0, 0x10C5); (0x10C7, 0x10C7);
   (0x10CD, 0x10CD); (0x10D0, 0x10FA); (0x10FC, 0x1248); (0x124A, 0x124D); (0x1250, 0x1256);
   (0x1258, 0x1258); (0x125A, 0x125D); (0x1260, 0x1288); (0x128A, 0x128D); (0x1290, 0x12B0);
   (0x12B2, 0x12B5); (0x12B8, 0x12BE); (0x12C0, 0x12C0); (0x12C2, 0x12C5); (0x12C8, 0x12D6);
   (0x12D8, 0x1310); (0x1312, 0x1315); (0x1318, 0x135A); (0x1369, 0x137C); (0x1380, 0x138F);
   (0x13A0, 0x13F5); (0x13F8, 0x13FD); (0x1401, 0x166C); (0x166F, 0x167F); (0x1681, 0x169A);
   (0x16A0, 0x16EA); (0x16EE, 0x16F8); (0x1700, 0x1711); (0x171F, 0x1731); (0x1740, 0x1751);
   (0x1760, 0x176C); (0x176E, 0x1770); (0x1780, 0x17B3); (0x17D7, 0x17D7); (0x17DC, 0x17DC);
   (0x17E0, 0x17E9); (0x17F0, 0x17F9); (0x1810, 0x1819); (0x1820, 0x1878); (0x1880, 0x1884);
   (0x1887, 0x18A8); (0x18AA, 0x18AA); (0x18B0, 0x18F5); (0x1900, 0x191E); (0x1946, 0x196D);
   (0x1970, 0x1974); (0x1980, 0x19AB); (0x19B0, 0x19C9); (0x19D0, 0x19DA); (0x1A00, 0x1A16);
   (0x1A20, 0x1A54); (0x1A80, 0x1A89); (0x1A90, 0x1A99); (0x1AA7, 0x1AA7); (0x1B05, 0x1B33);
   (0x1B45, 0x1B4C); (0x1B50, 0x1B59); (0x1B83, 0x1BA0); (0x1BAE, 0x1BE5); (0x1C00, 0x1C23);
   (0x1C40, 0x1C49); (0x1C4D, 0x1C7D); (0x1C80, 0x1C88); (0x1C90, 0x1CBA); (0x1CBD, 0x1CBF);
   (0x1CE9, 0x1CEC); (0x1CEE, 0x1CF3); (0x1CF5, 0x1CF6); (0x1CFA, 0x1CFA); (0x1D00, 0x1DBF);
   (0x1E00, 0x1F15); (0x1F18, 0x1F1D); (0x1F20, 0x1F45); (0x1F48, 0x1F4D); (0x1F50, 0x1F57);
   (0x1F59, 0x1F59); (0x1F5B, 0x1F5B); (0x1F5D, 0x1F5D); (0x1F5F, 0x1F7D); (0x1F80, 0x1FB4);
   (0x1FB6, 0x1FBC); (0x1FBE, 0x1FBE); (0x1FC2, 0x1FC4); (0x1FC6, 0x1FCC); (0x1FD0, 0x1FD3);
   (0x1FD6, 0x1FDB); (0x1FE0, 0x1FEC); (0x1FF2, 0x1FF4); (0x1FF6, 0x1FFC); (0x2070, 0x2071);
   (0x2074, 0x2079); (0x207F, 0x2089); (0x2090, 0x209C); (0x2102, 0x2102); (0x2107, 0x2107);
   (0x210A, 0x2113); (0x2115, 0x2115); (0x2119, 0x211D); (0x2124, 0x2124); (0x2126, 0x2126);
   (0x2128, 0x2128); (0x212A, 0x212D); (0x212F, 0x2139); (0x213C, 0x213F); (0x2145, 0x2149);
   (0x214E, 0x214E); (0x2150, 0x2189); (0x2460, 0x249B); (0x24EA, 0x24FF); (0x2776, 0x2793);
   (0x2C00, 0x2CE4); (0x2CEB, 0x2CEE); (0x2CF2, 0x2CF3); (0x2CFD, 0x2CFD); (0x2D00, 0x2D25);
   (0x2D27, 0x2D27); (0x2D2D, 0x2D2D); (0x2D30, 0x2D67); (0x2D6F, 0x2D6F); (0x2D80, 0x2D96);
   (0x2DA0, 0x2DA6); (0x2DA8, 0x2DAE); (0x2DB0, 0x2DB6); (0x2DB8, 0x2DBE); (0x2DC0, 0x2DC6);
   (0x2DC8, 0x2DCE); (0x2DD0, 0x2DD6); (0x2DD8, 0x2DDE); (0x2E2F, 0x2E2F); (0x3005, 0x3007);
   (0x3021, 0x3029); (0x3031, 0x3035); (0x3038, 0x303C); (0x3041, 0x3096); (0x309D, 0x309F);
   (0x30A1, 0x30FA); (0x30FC, 0x30FF); (0x3105, 0x312F); (0x3131, 0x318E); (0x3192, 0x3195);
   (0x31A0, 0x31BF); (0x31F0, 0x31FF); (0x3220, 0x3229); (0x3248, 0x324F); (0x3251, 0x325F);
   (0x3280, 0x3289); (0x32B1, 0x32BF); (0x3400, 0x4DBF); (0x4E00, 0xA48C); (0xA4D0, 0xA4FD);
   (0xA500, 0xA60C); (0xA610, 0xA62B); (0xA640, 0xA66E); (0xA67F, 0xA69D); (0xA6A0, 0xA6EF);
   (0xA717, 0xA71F); (0xA722, 0xA788); (0xA78B, 0xA7CA); (0xA7D0, 0xA7D1); (0xA7D3, 0xA7D3);
   (0xA7D5, 0xA7D9); (0xA7F2, 0xA801); (0xA803, 0xA805); (0xA807, 0xA80A); (0xA80C, 0xA822);
   (0xA830, 0xA835); (0xA840, 0xA873); (0xA882, 0xA8B3); (0xA8D0, 0xA8D9); (0xA8F2, 0xA8F7);
   (0xA8FB, 0xA8FB); (0xA8FD, 0xA8FE); (0xA900, 0xA925); (0xA930, 0xA946); (0xA960, 0xA97C);
   (0xA984, 0xA9B2); (0xA9CF, 0xA9D9); (0xA9E0, 0xA9E4); (0xA9E6, 0xA9FE); (0xAA00, 0xAA28);
   (0xAA40, 0xAA42); (0xAA44, 0xAA4B); (0xAA50, 0xAA59); (0xAA60, 0xAA76); (0xAA7A, 0xAA7A);
   (0xAA7E, 0xAAAF); (0xAAB1, 0xAAB1); (0xAAB5, 0xAAB6); (0xAAB9, 0xAABD); (0xAAC0, 0xAAC0);
   (0xAAC2, 0xAAC2); (0xAADB, 0xAADD); (0xAAE0, 0xAAEA); (0xAAF2, 0xAAF4); (0xAB01, 0xAB06);
   (0xAB09, 0xAB0E); (0xAB11, 0xAB16); (0xAB20, 0xAB26); (0xAB28, 0xAB2E); (0xAB30, 0xAB5A);
   (0xAB5C, 0xAB69); (0xAB70, 0xABE2); (0xABF0, 0xABF9); (0xAC00, 0xD7A3); (0xD7B0, 0xD7C6);
   (0xD7CB, 0xD7FB); (0xF900, 0xFA6D); (0xFA70, 0xFAD9); (0xFB00, 0xFB06); (0xFB13, 0xFB17);
   (0xFB1D, 0xFB1D); (0xFB1F, 0xFB28); (0xFB2A, 0xFB36); (0xFB38, 0xFB3C); (0xFB3E, 0xFB3E);
   (0xFB40, 0xFB41); (0xFB43, 0xFB44); (0xFB46, 0xFBB1); (0xFBD3, 0xFD3D); (0xFD50, 0xFD8F);
   (0xFD92, 0xFDC7); (0xFDF0, 0xFDFB); (0xFE70, 0xFE74); (0xFE76, 0xFEFC); (0xFF10, 0xFF19);
   (0xFF21, 0xFF3A); (0xFF41, 0xFF5A); (0xFF66, 0xFFBE); (0xFFC2, 0xFFC7); (0xFFCA, 0xFFCF);
   (0xFFD2, 0xFFD7); (0xFFDA, 0xFFDC); (0x10000, 0x1000B); (0x1000D, 0x10026); (0x10028, 0x1003A);
   (0x1003C, 0x1003D); (0x1003F, 0x1004D); (0x10050, 0x1005D); (0x10080, 0x100FA); (0x10107, 0x10133);
   (0x10140, 0x10178); (0x1018A, 0x1018B); (0x10280, 0x1029C); (0x102A0, 0x102D0); (0x102E1, 0x102FB);
   (0x10300, 0x10323); (0x1032D, 0x1034A); (0x10350, 0x10375); (0x10380, 0x1039D); (0x103A0, 0x103C3);
   (0x103C8, 0x103CF); (0x103D1, 0x103D5); (0x10400, 0x1049D); (0x104A0, 0x104A9); (0x104B0, 0x104D3);
   (0x104D8, 0x104FB); (0x10500, 0x10527); (0x10530, 0x10563); (0x10570, 0x1057A); (0x1057C, 0x1058A);
   (0x1058C, 0x10592); (0x10594, 0x10595); (0x10597, 0x105A1); (0x105A3, 0x105B1); (0x105B3, 0x105B9);
   (0x105BB, 0x105BC); (0x10600, 0x10736); (0x10740, 0x10755); (0x10760, 0x10767); (0x10780, 0x10785);
   (0x10787, 0x107B0); (0x107B2, 0x107BA); (0x10800, 0x10805); (0x10808, 0x10808); (0x1080A, 0x10835);
   (0x10837, 0x10838); (0x1083C, 0x1083C); (0x1083F, 0x10855); (0x10858, 0x10876); (0x10879, 0x1089E);
   (0x108A7, 0x108AF); (0x108E0, 0x108F2); (0x108F4, 0x108F5); (0x108FB, 0x1091B); (0x10920, 0x10939);
   (0x10980, 0x109B7); (0x109BC, 0x109CF); (0x109D2, 0x10A00); (0x10A10, 0x10A13); (0x10A15, 0x10A17);
   (0x10A19, 0x10A35); (0x10A40, 0x10A48); (0x10A60, 0x10A7E); (0x10A80, 0x10A9F); (0x10AC0, 0x10AC7);
   (0x10AC9, 0x10AE4); (0x10AEB, 0x10AEF); (0x10B00, 0x10B35); (0x10B40, 0x10B55); (0x10B58, 0x10B72);
   (0x10B78, 0x10B91); (0x10BA9, 0x10BAF); (0x10C00, 0x10C48); (0x10C80, 0x10CB2); (0x10CC0, 0x10CF2);
   (0x10CFA, 0x10D23); (0x10D30, 0x10D39); (0x10E60, 0x10E7E); (0x10E80, 0x10EA9); (0x10EB0, 0x10EB1);
   (0x10F00, 0x10F27); (0x10F30, 0x10F45); (0x10F51, 0x10F54); (0x10F70, 0x10F81); (0x10FB0, 0x10FCB);
   (0x10FE0, 0x10FF6); (0x11003, 0x11037); (0x11052, 0x1106F); (0x11071, 0x11072); (0x11075, 0x11075);
   (0x11083, 0x110AF); (0x110D0, 0x110E8); (0x110F0, 0x110F9); (0x11103, 0x11126); (0x11136, 0x1113F);
   (0x11144, 0x11144); (0x11147, 0x11147); (0x11150, 0x11172); (0x11176, 0x11176); (0x11183, 0x111B2);
   (0x111C1, 0x111C4); (0x111D0, 0x111DA); (0x111DC, 0x111DC); (0x111E1, 0x111F4); (0x11200, 0x11211);
   (0x11213, 0x1122B); (0x11280, 0x11286); (0x11288, 0x11288); (0x1128A, 0x1128D); (0x1128F, 0x1129D);
   (0x1129F, 0x112A8); (0x112B0, 0x112DE); (0x112F0, 0x112F9); (0x11305, 0x1130C); (0x1130F, 0x11310);
   (0x11313, 0x11328); (0x1132A, 0x11330); (0x11332, 0x11333); (0x11335, 0x11339); (0x1133D, 0x1133D);
   (0x11350, 0x11350); (0x1135D, 0x11361); (0x11400, 0x11434); (0x11447, 0x1144A); (0x11450, 0x11459);
   (0x1145F, 0x11461); (0x11480, 0x114AF); (0x114C4, 0x114C5); (0x114C7, 0x114C7); (0x114D0, 0x114D9);
   (0x11580, 0x115AE); (0x115D8, 0x115DB); (0x11600, 0x1162F); (0x11644, 0x11644); (0x11650, 0x11659);
   (0x11680, 0x116AA); (0x116B8, 0x116B8); (0x116C0, 0x116C9); (0x11700, 0x1171A); (0x11730, 0x1173B);
   (0x11740, 0x11746); (0x11800, 0x1182B); (0x118A0, 0x118F2); (0x118FF, 0x11906); (0x11909, 0x11909);
   (0x1190C, 0x11913); (0x11915, 0x11916); (0x11918, 0x1192F); (0x1193F, 0x1193F); (0x11941, 0x11941);
   (0x11950, 0x11959); (0x119A0, 0x119A7); (0x119AA, 0x119D0); (0x119E1, 0x119E1); (0x119E3, 0x119E3);
   (0x11A00, 0x11A00); (0x11A0B, 0x11A32); (0x11A3A, 0x11A3A); (0x11A50, 0x11A50); (0x11A5C, 0x11A89);
   (0x11A9D, 0x11A9D); (0x11AB0, 0x11AF8); (0x11C00, 0x11C08); (0x11C0A, 0x11C2E); (0x11C40, 0x11C40);
   (0x11C50, 0x11C6C); (0x11C72, 0x11C8F); (0x11D00, 0x11D06); (0x11D08, 0x11D09); (0x11D0B, 0x11D30);
   (0x11D46, 0x11D46); (0x11D50, 0x11D59); (0x11D60, 0x11D65); (0x11D67, 0x11D68); (0x11D6A, 0x11D89);
   (0x11D98, 0x11D98); (0x11DA0, 0x11DA9); (0x11EE0, 0x11EF2); (0x11FB0, 0x11FB0); (0x11FC0, 0x11FD4);
   (0x12000, 0x12399); (0x12400, 0x1246E); (0x12480, 0x12543); (0x12F90, 0x12FF0); (0x13000, 0x1342E);
   (0x14400, 0x14646); (0x16800, 0x16A38); (0x16A40, 0x16A5E); (0x16A60, 0x16A69); (0x16A70, 0x16ABE);
   (0x16AC0, 0x16AC9); (0x16AD0, 0x16AED); (0x16B00, 0x16B2F); (0x16B40, 0x16B43); (0x16B50, 0x16B59);
   (0x16B5B, 0x16B61); (0x16B63, 0x16B77); (0x16B7D, 0x16B8F); (0x16E40, 0x16E96); (0x16F00, 0x16F4A);
   (0x16F50, 0x16F50); (0x16F93, 0x16F9F); (0x16FE0, 0x16FE1); (0x16FE3, 0x16FE3); (0x17000, 0x187F7);
   (0x18800, 0x18CD5); (0x18D00, 0x18D08); (0x1AFF0, 0x1AFF3); (0x1AFF5, 0x1AFFB); (0x1AFFD, 0x1AFFE);
   (0x1B000, 0x1B122); (0x1B150, 0x1B152); (0x1B164, 0x1B167); (0x1B170, 0x1B2FB); (0x1BC00, 0x1BC6A);
   (0x1BC70, 0x1BC7C); (0x1BC80, 0x1BC88); (0x1BC90, 0x1BC99); (0x1D2E0, 0x1D2F3); (0x1D360, 0x1D378);
   (0x1D400, 0x1D454); (0x1D456, 0x1D49C); (0x1D49E, 0x1D49F); (0x1D4A2, 0x1D4A2); (0x1D4A5, 0x1D4A6);
   (0x1D4A9, 0x1D4AC); (0x1D4AE, 0x1D4B9); (0x1D4BB, 0x1D4BB); (0x1D4BD, 0x1D4C3); (0x1D4C5, 0x1D505);
   (0x1D507, 0x1D50A); (0x1D50D, 0x1D514); (0x1D516, 0x1D51C); (0x1D51E, 0x1D539); (0x1D53B, 0x1D53E);
   (0x1D540, 0x1D544); (0x1D546, 0x1D546); (0x1D54A, 0x1D550); (0x1D552, 0x1D6A5); (0x1D6A8, 0x1D6C0);
   (0x1D6C2, 0x1D6DA); (0x1D6DC, 0x1D6FA); (0x1D6FC, 0x1D714); (0x1D716, 0x1D734); (0x1D736, 0x1D74E);
   (0x1D750, 0x1D76E); (0x1D770, 0x1D788); (0x1D78A, 0x1D7A8); (0x1D7AA, 0x1D7C2); (0x1D7C4, 0x1D7CB);
   (0x1D7CE, 0x1D7FF); (0x1DF00, 0x1DF1E); (0x1E100, 0x1E12C); (0x1E137, 0x1E13D); (0x1E140, 0x1E149);
   (0x1E14E, 0x1E14E); (0x1E290, 0x1E2AD); (0x1E2C0, 0x1E2EB); (0x1E2F0, 0x1E2F9); (0x1E7E0, 0x1E7E6);
   (0x1E7E8, 0x1E7EB); (0x1E7ED, 0x1E7EE); (0x1E7F0, 0x1E7FE); (0x1E800, 0x1E8C4); (0x1E8C7, 0x1E8CF);
   (0x1E900, 0x1E943); (0x1E94B, 0x1E94B); (0x1E950, 0x1E959); (0x1EC71, 0x1ECAB); (0x1ECAD, 0x1ECAF);
   (0x1ECB1, 0x1ECB4); (0x1ED01, 0x1ED2D); (0x1ED2F, 0x1ED3D); (0x1EE00, 0x1EE03); (0x1EE05, 0x1EE1F);
   (0x1EE21, 0x1EE22); (0x1EE24, 0x1EE24); (0x1EE27, 0x1EE27); (0x1EE29, 0x1EE32); (0x1EE34, 0x1EE37);
   (0x1EE39, 0x1EE39); (0x1EE3B, 0x1EE3B); (0x1EE42, 0x1EE42); (0x1EE47, 0x1EE47); (0x1EE49, 0x1EE49);
   (0x1EE4B, 0x1EE4B); (0x1EE4D, 0x1EE4F); (0x1EE51, 0x1EE52); (0x1EE54, 0x1EE54); (0x1EE57, 0x1EE57);
   (0x1EE59, 0x1EE59); (0x1EE5B, 0x1EE5B); (0x1EE5D, 0x1EE5D); (0x1EE5F, 0x1EE5F); (0x1EE61, 0x1EE62);
   (0x1EE64, 0x1EE64); (0x1EE67, 0x1EE6A); (0x1EE6C, 0x1EE72); (0x1EE74, 0x1EE77); (0x1EE79, 0x1EE7C);
   (0x1EE7E, 0x1EE7E); (0x1EE80, 0x1EE89); (0x1EE8B, 0x1EE9B); (0x1EEA1, 0x1EEA3); (0x1EEA5, 0x1EEA9);
   (0x1EEAB, 0x1EEBB); (0x1F100, 0x1F10C); (0x1FBF0, 0x1FBF9); (0x20000, 0x2A6DF); (0x2A700, 0x2B738);
   (0x2B740, 0x2B81D); (0x2B820, 0x2CEA1); (0x2CEB0, 0x2EBE0); (0x2F800, 0x2FA1D); (0x30000, 0x3134A)
  ]%N.

(** The class [\w]: alphanumeric ([str.isalnum]) or underscore. *)
Definition is_word (c : N) : bool :=
  if (c <? 0x80)%N then
    in_range 0x30 0x39 c || in_range 0x41 0x5A c || (c =? 0x5F)%N
    || in_range 0x61 0x7A c
  else in_ranges WORD_RANGES c.

(** The simple lower-case mappings of Unicode after U+007F
    ([Lowercase_Mapping] of one character). *)
Definition LOWER_PAIRS : list (N * N) :=
  [
   (0xC0, 0xE0); (0xC1, 0xE1); (0xC2, 0xE2); (0xC3, 0xE3); (0xC4, 0xE4);
   (0xC5, 0xE5); (0xC6, 0xE6); (0xC7, 0xE7); (0xC8, 0xE8); (0xC9, 0xE9);
   (0xCA, 0xEA); (0xCB, 0xEB); (0xCC, 0xEC); (0xCD, 0xED); (0xCE, 0xEE);
   (0xCF, 0xEF); (0xD0, 0xF0); (0xD1, 0xF1); (0xD2, 0xF2); (0xD3, 0xF3);
   (0xD4, 0xF4); (0xD5, 0xF5); (0xD6, 0xF6); (0xD8, 0xF8); (0xD9, 0xF9);
   (0xDA, 0xFA); (0xDB, 0xFB); (0xDC, 0xFC); (0xDD, 0xFD); (0xDE, 0xFE);
   (0x100, 0x101); (0x102, 0x103); (0x104, 0x105); (0x106, 0x107); (0x108, 0x109);
   (0x10A, 0x10B); (0x10C, 0x10D); (0x10E, 0x10F); (0x110, 0x111); (0x112, 0x113);
   (0x114, 0x115); (0x116, 0x117); (0x118, 0x119); (0x11A, 0x11B); (0x11C, 0x11D);
   (0x11E, 0x11F); (0x120, 0x121); (0x122, 0x123); (0x124, 0x125); (0x126, 0x127);
   (0x128, 0x129); (0x12A, 0x12B); (0x12C, 0x12D); (0x12E, 0x12F); (0x132, 0x133);
   (0x134, 0x135); (0x136, 0x137); (0x139, 0x13A); (0x13B, 0x13C); (0x13D, 0x13E);
   (0x13F, 0x140); (0x141, 0x142); (0x143, 0x144); (0x145, 0x146); (0x147, 0x148);
   (0x14A, 0x14B); (0x14C, 0x14D); (0x14E, 0x14F); (0x150, 0x151); (0x152, 0x153);
   (0x154, 0x155); (0x156, 0x157); (0x158, 0x159); (0x15A, 0x15B); (0x15C, 0x15D);
   (0x15E, 0x15F); (0x160, 0x161); (0x162, 0x163); (0x164, 0x165); (0x166, 0x167);
   (0x168, 0x169); (0x16A, 0x16B); (0x16C, 0x16D); (0x16E, 0x16F); (0x170, 0x171);
   (0x172, 0x173); (0x174, 0x175); (0x176, 0x177); (0x178, 0xFF); (0x179, 0x17A);
   (0x17B, 0x17C); (0x17D, 0x17E); (0x181, 0x253); (0x182, 0x183); (0x184, 0x185);
   (0x186, 0x254); (0x187, 0x188); (0x189, 0x256); (0x18A, 0x257); (0x18B, 0x18C);
   (0x18E, 0x1DD); (0x18F, 0x259); (0x190, 0x25B); (0x191, 0x192); (0x193, 0x260);
   (0x194, 0x263); (0x196, 0x269); (0x197, 0x268); (0x198, 0x199); (0x19C, 0x26F);
   (0x19D, 0x272); (0x19F, 0x275); (0x1A0, 0x1A1); (0x1A2, 0x1A3); (0x1A4, 0x1A5);
   (0x1A6, 0x280); (0x1A7, 0x1A8); (0x1A9, 0x283); (0x1AC, 0x1AD); (0x1AE, 0x288);
   (0x1AF, 0x1B0); (0x1B1, 0x28A); (0x1B2, 0x28B); (0x1B3, 0x1B4); (0x1B5, 0x1B6);
   (0x1B7, 0x292); (0x1B8, 0x1B9); (0x1BC, 0x1BD); (0x1C4, 0x1C6); (0x1C5, 0x1C6);
   (0x1C7, 0x1C9); (0x1C8, 0x1C9); (0x1CA, 0x1CC); (0x1CB, 0x1CC); (0x1CD, 0x1CE);
   (0x1CF, 0x1D0); (0x1D1, 0x1D2); (0x1D3, 0x1D4); (0x1D5, 0x1D6); (0x1D7, 0x1D8);
   (0x1D9, 0x1DA); (0x1DB, 0x1DC); (0x1DE, 0x1DF); (0x1E0, 0x1E1); (0x1E2, 0x1E3);
   (0x1E4, 0x1E5); (0x1E6, 0x1E7); (0x1E8, 0x1E9); (0x1EA, 0x1EB); (0x1EC, 0x1ED);
   (0x1EE, 0x1EF); (0x1F1, 0x1F3); (0x1F2, 0x1F3); (0x1F4, 0x1F5); (0x1F6, 0x195);
   (0x1F7, 0x1BF); (0x1F8, 0x1F9); (0x1FA, 0x1FB); (0x1FC, 0x1FD); (0x1FE, 0x1FF);
   (0x200, 0x201); (0x202, 0x203); (0x204, 0x205); (0x206, 0x207); (0x208, 0x209);
   (0x20A, 0x20B); (0x20C, 0x20D); (0x20E, 0x20F); (0x210, 0x211); (0x212, 0x213);
   (0x214, 0x215); (0x216, 0x217); (0x218, 0x219); (0x21A, 0x21B); (0x21C, 0x21D);
   (0x21E, 0x21F); (0x220, 0x19E); (0x222, 0x223); (0x224, 0x225); (0x226, 0x227);
   (0x228, 0x229); (0x22A, 0x22B); (0x22C, 0x22D); (0x22E, 0x22F); (0x230, 0x231);
   (0x232, 0x233); (0x23A, 0x2C65); (0x23B, 0x23C); (0x23D, 0x19A); (0x23E, 0x2C66);
   (0x241, 0x242); (0x243, 0x180); (0x244, 0x289); (0x245, 0x28C); (0x246, 0x247);
   (0x248, 0x249); (0x24A, 0x24B); (0x24C, 0x24D); (0x24E, 0x24F); (0x370, 0x371);
   (0x372, 0x373); (0x376, 0x377); (0x37F, 0x3F3); (0x386, 0x3AC); (0x388, 0x3AD);
   (0x389, 0x3AE); (0x38A, 0x3AF); (0x38C, 0x3CC); (0x38E, 0x3CD); (0x38F, 0x3CE);
   (0x391, 0x3B1); (0x392, 0x3B2); (0x393, 0x3B3); (0x394, 0x3B4); (0x395, 0x3B5);
   (0x396, 0x3B6); (0x397, 0x3B7); (0x398, 0x3B8); (0x399, 0x3B9); (0x39A, 0x3BA);
   (0x39B, 0x3BB); (0x39C, 0x3BC); (0x39D, 0x3BD); (0x39E, 0x3BE); (0x39F, 0x3BF);
   (0x3A0, 0x3C0); (0x3A1, 0x3C1); (0x3A3, 0x3C3); (0x3A4, 0x3C4); (0x3A5, 0x3C5);
   (0x3A6, 0x3C6); (0x3A7, 0x3C7); (0x3A8, 0x3C8); (0x3A9, 0x3C9); (0x3AA, 0x3CA);
   (0x3AB, 0x3CB); (0x3CF, 0x3D7); (0x3D8, 0x3D9); (0x3DA, 0x3DB); (0x3DC, 0x3DD);
   (0x3DE, 0x3DF); (0x3E0, 0x3E1); (0x3E2, 0x3E3); (0x3E4, 0x3E5); (0x3E6, 0x3E7);
   (0x3E8, 0x3E9); (0x3EA, 0x3EB); (0x3EC, 0x3ED); (0x3EE, 0x3EF); (0x3F4, 0x3B8);
   (0x3F7, 0x3F8); (0x3F9, 0x3F2); (0x3FA, 0x3FB); (0x3FD, 0x37B); (0x3FE, 0x37C);
   (0x3FF, 0x37D); (0x400, 0x450); (0x401, 0x451); (0x402, 0x452); (0x403, 0x453);
   (0x404, 0x454); (0x405, 0x455); (0x406, 0x456); (0x407, 0x457); (0x408, 0x458);
   (0x409, 0x459); (0x40A, 0x45A); (0x40B, 0x45B); (0x40C, 0x45C); (0x40D, 0x45D);
   (0x40E, 0x45E); (0x40F, 0x45F); (0x410, 0x430); (0x411, 0x431); (0x412, 0x432);
   (0x413, 0x433); (0x414, 0x434); (0x415, 0x435); (0x416, 0x436); (0x417, 0x437);
   (0x418, 0x438); (0x419, 0x439); (0x41A, 0x43A); (0x41B, 0x43B); (0x41C, 0x43C);
   (0x41D, 0x43D); (0x41E, 0x43E); (0x41F, 0x43F); (0x420, 0x440); (0x421, 0x441);
   (0x422, 0x442); (0x423, 0x443); (0x424, 0x444); (0x425, 0x445); (0x426, 0x446);
   (0x427, 0x447); (0x428, 0x448); (0x429, 0x449); (0x42A, 0x44A); (0x42B, 0x44B);
   (0x42C, 0x44C); (0x42D, 0x44D); (0x42E, 0x44E); (0x42F, 0x44F); (0x460, 0x461);
   (0x462, 0x463); (0x464, 0x465); (0x466, 0x467); (0x468, 0x469); (0x46A, 0x46B);
   (0x46C, 0x46D); (0x46E, 0x46F); (0x470, 0x471); (0x472, 0x473); (0x474, 0x475);
   (0x476, 0x477); (0x478, 0x479); (0x47A, 0x47B); (0x47C, 0x47D); (0x47E, 0x47F);
   (0x480, 0x481); (0x48A, 0x48B); (0x48C, 0x48D); (0x48E, 0x48F); (0x490, 0x491);
   (0x492, 0x493); (0x494, 0x495); (0x496, 0x497); (0x498, 0x499); (0x49A, 0x49B);
   (0x49C, 0x49D); (0x49E, 0x49F); (0x4A0, 0x4A1); (0x4A2, 0x4A3); (0x4A4, 0x4A5);
   (0x4A6, 0x4A7); (0x4A8, 0x4A9); (0x4AA, 0x4AB); (0x4AC, 0x4AD); (0x4AE, 0x4AF);
   (0x4B0, 0x4B1); (0x4B2, 0x4B3); (0x4B4, 0x4B5); (0x4B6, 0x4B7); (0x4B8, 0x4B9);
   (0x4BA, 0x4BB); (0x4BC, 0x4BD); (0x4BE, 0x4BF); (0x4C0, 0x4CF); (0x4C1, 0x4C2);
   (0x4C3, 0x4C4); (0x4C5, 0x4C6); (0x4C7, 0x4C8); (0x4C9, 0x4CA); (0x4CB, 0x4CC);
   (0x4CD, 0x4CE); (0x4D0, 0x4D1); (0x4D2, 0x4D3); (0x4D4, 0x4D5); (0x4D6, 0x4D7);
   (0x4D8, 0x4D9); (0x4DA, 0x4DB); (0x4DC, 0x4DD); (0x4DE, 0x4DF); (0x4E0, 0x4E1);
   (0x4E2, 0x4E3); (0x4E4, 0x4E5); (0x4E6, 0x4E7); (0x4E8, 0x4E9); (0x4EA, 0x4EB);
   (0x4EC, 0x4ED); (0x4EE, 0x4EF); (0x4F0, 0x4F1); (0x4F2, 0x4F3); (0x4F4, 0x4F5);
   (0x4F6, 0x4F7); (0x4F8, 0x4F9); (0x4FA, 0x4FB); (0x4FC, 0x4FD); (0x4FE, 0x4FF);
   (0x500, 0x501); (0x502, 0x503); (0x504, 0x505); (0x506, 0x507); (0x508, 0x509);
   (0x50A, 0x50B); (0x50C, 0x50D); (0x50E, 0x50F); (0x510, 0x511); (0x512, 0x513);
   (0x514, 0x515); (0x516, 0x517); (0x518, 0x519); (0x51A, 0x51B); (0x51C, 0x51D);
   (0x51E, 0x51F); (0x520, 0x521); (0x522, 0x523); (0x524, 0x525); (0x526, 0x527);
   (0x528, 0x529); (0x52A, 0x52B); (0x52C, 0x52D); (0x52E, 0x52F); (0x531, 0x561);
   (0x532, 0x562); (0x533, 0x563); (0x534, 0x564); (0x535, 0x565); (0x536, 0x566);
   (0x537, 0x567); (0x538, 0x568); (0x539, 0x569); (0x53A, 0x56A); (0x53B, 0x56B);
   (0x53C, 0x56C); (0x53D, 0x56D); (0x53E, 0x56E); (0x53F, 0x56F); (0x540, 0x570);
   (0x541, 0x571); (0x542, 0x572); (0x543, 0x573); (0x544, 0x574); (0x545, 0x575);
   (0x546, 0x576); (0x547, 0x577); (0x548, 0x578); (0x549, 0x579); (0x54A, 0x57A);
   (0x54B, 0x57B); (0x54C, 0x57C); (0x54D, 0x57D); (0x54E, 0x57E); (0x54F, 0x57F);
   (0x550, 0x580); (0x551, 0x581); (0x552, 0x582); (0x553, 0x583); (0x554, 0x584);
   (0x555, 0x585); (0x556, 0x586); (0x10A0, 0x2D00); (0x10A1, 0x2D01); (0x10A2, 0x2D02);
   (0x10A3, 0x2D03); (0x10A4, 0x2D04); (0x10A5, 0x2D05); (0x10A6, 0x2D06); (0x10A7, 0x2D07);
   (0x10A8, 0x2D08); (0x10A9, 0x2D09); (0x10AA, 0x2D0A); (0x10AB, 0x2D0B); (0x10AC, 0x2D0C);
   (0x10AD, 0x2D0D); (0x10AE, 0x2D0E); (0x10AF, 0x2D0F); (0x10B0, 0x2D10); (0x10B1, 0x2D11);
   (0x10B2, 0x2D12); (0x10B3, 0x2D13); (0x10B4, 0x2D14); (0x10B5, 0x2D15); (0x10B6, 0x2D16);
   (0x10B7, 0x2D17); (0x10B8, 0x2D18); (0x10B9, 0x2D19); (0x10BA, 0x2D1A); (0x10BB, 0x2D1B);
   (0x10BC, 0x2D1C); (0x10BD, 0x2D1D); (0x10BE, 0x2D1E); (0x10BF, 0x2D1F); (0x10C0, 0x2D20);
   (0x10C1, 0x2D21); (0x10C2, 0x2D22); (0x10C3, 0x2D23); (0x10C4, 0x2D24); (0x10C5, 0x2D25);
   (0x10C7, 0x2D27); (0x10CD, 0x2D2D); (0x13A0, 0xAB70); (0x13A1, 0xAB71); (0x13A2, 0xAB72);
   (0x13A3, 0xAB73); (0x13A4, 0xAB74); (0x13A5, 0xAB75); (0x13A6, 0xAB76); (0x13A7, 0xAB77);
   (0x13A8, 0xAB78); (0x13A9, 0xAB79); (0x13AA, 0xAB7A); (0x13AB, 0xAB7B); (0x13AC, 0xAB7C);
   (0x13AD, 0xAB7D); (0x13AE, 0xAB7E); (0x13AF, 0xAB7F); (0x13B0, 0xAB80); (0x13B1, 0xAB81);
   (0x13B2, 0xAB82); (0x13B3, 0xAB83); (0x13B4, 0xAB84); (0x13B5, 0xAB85); (0x13B6, 0xAB86);
   (0x13B7, 0xAB87); (0x13B8, 0xAB88); (0x13B9, 0xAB89); (0x13BA, 0xAB8A); (0x13BB, 0xAB8B);
   (0x13BC, 0xAB8C); (0x13BD, 0xAB8D); (0x13BE, 0xAB8E); (0x13BF, 0xAB8F); (0x13C0, 0xAB90);
   (0x13C1, 0xAB91); (0x13C2, 0xAB92); (0x13C3, 0xAB93); (0x13C4, 0xAB94); (0x13C5, 0xAB95);
   (0x13C6, 0xAB96); (0x13C7, 0xAB97); (0x13C8, 0xAB98); (0x13C9, 0xAB99); (0x13CA, 0xAB9A);
   (0x13CB, 0xAB9B); (0x13CC, 0xAB9C); (0x13CD, 0xAB9D); (0x13CE, 0xAB9E); (0x13CF, 0xAB9F);
   (0x13D0, 0xABA0); (0x13D1, 0xABA1); (0x13D2, 0xABA2); (0x13D3, 0xABA3); (0x13D4, 0xABA4);
   (0x13D5, 0xABA5); (0x13D6, 0xABA6); (0x13D7, 0xABA7); (0x13D8, 0xABA8); (0x13D9, 0xABA9);
   (0x13DA, 0xABAA); (0x13DB, 0xABAB); (0x13DC, 0xABAC); (0x13DD, 0xABAD); (0x13DE, 0xABAE);
   (0x13DF, 0xABAF); (0x13E0, 0xABB0); (0x13E1, 0xABB1); (0x13E2, 0xABB2); (0x13E3, 0xABB3);
   (0x13E4, 0xABB4); (0x13E5, 0xABB5); (0x13E6, 0xABB6); (0x13E7, 0xABB7); (0x13E8, 0xABB8);
   (0x13E9, 0xABB9); (0x13EA, 0xABBA); (0x13EB, 0xABBB); (0x13EC, 0xABBC); (0x13ED, 0xABBD);
   (0x13EE, 0xABBE); (0x13EF, 0xABBF); (0x13F0, 0x13F8); (0x13F1, 0x13F9); (0x13F2, 0x13FA);
   (0x13F3, 0x13FB); (0x13F4, 0x13FC); (0x13F5, 0x13FD); (0x1C90, 0x10D0); (0x1C91, 0x10D1);
   (0x1C92, 0x10D2); (0x1C93, 0x10D3); (0x1C94, 0x10D4); (0x1C95, 0x10D5); (0x1C96, 0x10D6);
   (0x1C97, 0x10D7); (0x1C98, 0x10D8); (0x1C99, 0x10D9); (0x1C9A, 0x10DA); (0x1C9B, 0x10DB);
   (0x1C9C, 0x10DC); (0x1C9D, 0x10DD); (0x1C9E, 0x10DE); (0x1C9F, 0x10DF); (0x1CA0, 0x10E0);
   (0x1CA1, 0x10E1); (0x1CA2, 0x10E2); (0x1CA3, 0x10E3); (0x1CA4, 0x10E4); (0x1CA5, 0x10E5);
   (0x1CA6, 0x10E6); (0x1CA7, 0x10E7); (0x1CA8, 0x10E8); (0x1CA9, 0x10E9); (0x1CAA, 0x10EA);
   (0x1CAB, 0x10EB); (0x1CAC, 0x10EC); (0x1CAD, 0x10ED); (0x1CAE, 0x10EE); (0x1CAF, 0x10EF);
   (0x1CB0, 0x10F0); (0x1CB1, 0x10F1); (0x1CB2, 0x10F2); (0x1CB3, 0x10F3); (0x1CB4, 0x10F4);
   (0x1CB5, 0x10F5); (0x1CB6, 0x10F6); (0x1CB7, 0x10F7); (0x1CB8, 0x10F8); (0x1CB9, 0x10F9);
   (0x1CBA, 0x10FA); (0x1CBD, 0x10FD); (0x1CBE, 0x10FE); (0x1CBF, 0x10FF); (0x1E00, 0x1E01);
   (0x1E02, 0x1E03); (0x1E04, 0x1E05); (0x1E06, 0x1E07); (0x1E08, 0x1E09); (0x1E0A, 0x1E0B);
   (0x1E0C, 0x1E0D); (0x1E0E, 0x1E0F); (0x1E10, 0x1E11); (0x1E12, 0x1E13); (0x1E14, 0x1E15);
   (0x1E16, 0x1E17); (0x1E18, 0x1E19); (0x1E1A, 0x1E1B); (0x1E1C, 0x1E1D); (0x1E1E, 0x1E1F);
   (0x1E20, 0x1E21); (0x1E22, 0x1E23); (0x1E24, 0x1E25); (0x1E26, 0x1E27); (0x1E28, 0x1E29);
   (0x1E2A, 0x1E2B); (0x1E2C, 0x1E2D); (0x1E2E, 0x1E2F); (0x1E30, 0x1E31); (0x1E32, 0x1E33);
   (0x1E34, 0x1E35); (0x1E36, 0x1E37); (0x1E38, 0x1E39); (0x1E3A, 0x1E3B); (0x1E3C, 0x1E3D);
   (0x1E3E, 0x1E3F); (0x1E40, 0x1E41); (0x1E42, 0x1E43); (0x1E44, 0x1E45); (0x1E46, 0x1E47);
   (0x1E48, 0x1E49); (0x1E4A, 0x1E4B); (0x1E4C, 0x1E4D); (0x1E4E, 0x1E4F); (0x1E50, 0x1E51);
   (0x1E52, 0x1E53); (0x1E54, 0x1E55); (0x1E56, 0x1E57); (0x1E58, 0x1E59); (0x1E5A, 0x1E5B);
   (0x1E5C, 0x1E5D); (0x1E5E, 0x1E5F); (0x1E60, 0x1E61); (0x1E62, 0x1E63); (0x1E64, 0x1E65);
   (0x1E66, 0x1E67); (0x1E68, 0x1E69); (0x1E6A, 0x1E6B); (0x1E6C, 0x1E6D); (0x1E6E, 0x1E6F);
   (0x1E70, 0x1E71); (0x1E72, 0x1E73); (0x1E74, 0x1E75); (0x1E76, 0x1E77); (0x1E78, 0x1E79);
   (0x1E7A, 0x1E7B); (0x1E7C, 0x1E7D); (0x1E7E, 0x1E7F); (0x1E80, 0x1E81); (0x1E82, 0x1E83);
   (0x1E84, 0x1E85); (0x1E86, 0x1E87); (0x1E88, 0x1E89); (0x1E8A, 0x1E8B); (0x1E8C, 0x1E8D);
   (0x1E8E, 0x1E8F); (0x1E90, 0x1E91); (0x1E92, 0x1E93); (0x1E94, 0x1E95); (0x1E9E, 0xDF);
   (0x1EA0, 0x1EA1); (0x1EA2, 0x1EA3); (0x1EA4, 0x1EA5); (0x1EA6, 0x1EA7); (0x1EA8, 0x1EA9);
   (0x1EAA, 0x1EAB); (0x1EAC, 0x1EAD); (0x1EAE, 0x1EAF); (0x1EB0, 0x1EB1); (0x1EB2, 0x1EB3);
   (0x1EB4, 0x1EB5); (0x1EB6, 0x1EB7); (0x1EB8, 0x1EB9); (0x1EBA, 0x1EBB); (0x1EBC, 0x1EBD);
   (0x1EBE, 0x1EBF); (0x1EC0, 0x1EC1); (0x1EC2, 0x1EC3); (0x1EC4, 0x1EC5); (0x1EC6, 0x1EC7);
   (0x1EC8, 0x1EC9); (0x1ECA, 0x1ECB); (0x1ECC, 0x1ECD); (0x1ECE, 0x1ECF); (0x1ED0, 0x1ED1);
   (0x1ED2, 0x1ED3); (0x1ED4, 0x1ED5); (0x1ED6, 0x1ED7); (0x1ED8, 0x1ED9); (0x1EDA, 0x1EDB);
   (0x1EDC, 0x1EDD); (0x1EDE, 0x1EDF); (0x1EE0, 0x1EE1); (0x1EE2, 0x1EE3); (0x1EE4, 0x1EE5);
   (0x1EE6, 0x1EE7); (0x1EE8, 0x1EE9); (0x1EEA, 0x1EEB); (0x1EEC, 0x1EED); (0x1EEE, 0x1EEF);
   (0x1EF0, 0x1EF1); (0x1EF2, 0x1EF3); (0x1EF4, 0x1EF5); (0x1EF6, 0x1EF7); (0x1EF8, 0x1EF9);
   (0x1EFA, 0x1EFB); (0x1EFC, 0x1EFD); (0x1EFE, 0x1EFF); (0x1F08, 0x1F00); (0x1F09, 0x1F01);
   (0x1F0A, 0x1F02); (0x1F0B, 0x1F03); (0x1F0C, 0x1F04); (0x1F0D, 0x1F05); (0x1F0E, 0x1F06);
   (0x1F0F, 0x1F07); (0x1F18, 0x1F10); (0x1F19, 0x1F11); (0x1F1A, 0x1F12); (0x1F1B, 0x1F13);
   (0x1F1C, 0x1F14); (0x1F1D, 0x1F15); (0x1F28, 0x1F20); (0x1F29, 0x1F21); (0x1F2A, 0x1F22);
   (0x1F2B, 0x1F23); (0x1F2C, 0x1F24); (0x1F2D, 0x1F25); (0x1F2E, 0x1F26); (0x1F2F, 0x1F27);
   (0x1F38, 0x1F30); (0x1F39, 0x1F31); (0x1F3A, 0x1F32); (0x1F3B, 0x1F33); (0x1F3C, 0x1F34);
   (0x1F3D, 0x1F35); (0x1F3E, 0x1F36); (0x1F3F, 0x1F37); (0x1F48, 0x1F40); (0x1F49, 0x1F41);
   (0x1F4A, 0x1F42); (0x1F4B, 0x1F43); (0x1F4C, 0x1F44); (0x1F4D, 0x1F45); (0x1F59, 0x1F51);
   (0x1F5B, 0x1F53); (0x1F5D, 0x1F55); (0x1F5F, 0x1F57); (0x1F68, 0x1F60); (0x1F69, 0x1F61);
   (0x1F6A, 0x1F62); (0x1F6B, 0x1F63); (0x1F6C, 0x1F64); (0x1F6D, 0x1F65); (0x1F6E, 0x1F66);
   (0x1F6F, 0x1F67); (0x1F88, 0x1F80); (0x1F89, 0x1F81); (0x1F8A, 0x1F82); (0x1F8B, 0x1F83);
   (0x1F8C, 0x1F84); (0x1F8D, 0x1F85); (0x1F8E, 0x1F86); (0x1F8F, 0x1F87); (0x1F98, 0x1F90);
   (0x1F99, 0x1F91); (0x1F9A, 0x1F92); (0x1F9B, 0x1F93); (0x1F9C, 0x1F94); (0x1F9D, 0x1F95);
   (0x1F9E, 0x1F96); (0x1F9F, 0x1F97); (0x1FA8, 0x1FA0); (0x1FA9, 0x1FA1); (0x1FAA, 0x1FA2);
   (0x1FAB, 0x1FA3); (0x1FAC, 0x1FA4); (0x1FAD, 0x1FA5); (0x1FAE, 0x1FA6); (0x1FAF, 0x1FA7);
   (0x1FB8, 0x1FB0); (0x1FB9, 0x1FB1); (0x1FBA, 0x1F70); (0x1FBB, 0x1F71); (0x1FBC, 0x1FB3);
   (0x1FC8, 0x1F72); (0x1FC9, 0x1F73); (0x1FCA, 0x1F74); (0x1FCB, 0x1F75); (0x1FCC, 0x1FC3);
   (0x1FD8, 0x1FD0); (0x1FD9, 0x1FD1); (0x1FDA, 0x1F76); (0x1FDB, 0x1F77); (0x1FE8, 0x1FE0);
   (0x1FE9, 0x1FE1); (0x1FEA, 0x1F7A); (0x1FEB, 0x1F7B); (0x1FEC, 0x1FE5); (0x1FF8, 0x1F78);
   (0x1FF9, 0x1F79); (0x1FFA, 0x1F7C); (0x1FFB, 0x1F7D); (0x1FFC, 0x1FF3); (0x2126, 0x3C9);
   (0x212A, 0x6B); (0x212B, 0xE5); (0x2132, 0x214E); (0x2160, 0x2170); (0x2161, 0x2171);
   (0x2162, 0x2172); (0x2163, 0x2173); (0x2164, 0x2174); (0x2165, 0x2175); (0x2166, 0x2176);
   (0x2167, 0x2177); (0x2168, 0x2178); (0x2169, 0x2179); (0x216A, 0x217A); (0x216B, 0x217B);
   (0x216C, 0x217C); (0x216D, 0x217D); (0x216E, 0x217E); (0x216F, 0x217F); (0x2183, 0x2184);
   (0x24B6, 0x24D0); (0x24B7, 0x24D1); (0x24B8, 0x24D2); (0x24B9, 0x24D3); (0x24BA, 0x24D4);
   (0x24BB, 0x24D5); (0x24BC, 0x24D6); (0x24BD, 0x24D7); (0x24BE, 0x24D8); (0x24BF, 0x24D9);
   (0x24C0, 0x24DA); (0x24C1, 0x24DB); (0x24C2, 0x24DC); (0x24C3, 0x24DD); (0x24C4, 0x24DE);
   (0x24C5, 0x24DF); (0x24C6, 0x24E0); (0x24C7, 0x24E1); (0x24C8, 0x24E2); (0x24C9, 0x24E3);
   (0x24CA, 0x24E4); (0x24CB, 0x24E5); (0x24CC, 0x24E6); (0x24CD, 0x24E7); (0x24CE, 0x24E8);
   (0x24CF, 0x24E9); (0x2C00, 0x2C30); (0x2C01, 0x2C31); (0x2C02, 0x2C32); (0x2C03, 0x2C33);
   (0x2C04, 0x2C34); (0x2C05, 0x2C35); (0x2C06, 0x2C36); (0x2C07, 0x2C37); (0x2C08, 0x2C38);
   (0x2C09, 0x2C39); (0x2C0A, 0x2C3A); (0x2C0B, 0x2C3B); (0x2C0C, 0x2C3C); (0x2C0D, 0x2C3D);
   (0x2C0E, 0x2C3E); (0x2C0F, 0x2C3F); (0x2C10, 0x2C40); (0x2C11, 0x2C41); (0x2C12, 0x2C42);
   (0x2C13, 0x2C43); (0x2C14, 0x2C44); (0x2C15, 0x2C45); (0x2C16, 0x2C46); (0x2C17, 0x2C47);
   (0x2C18, 0x2C48); (0x2C19, 0x2C49); (0x2C1A, 0x2C4A); (0x2C1B, 0x2C4B); (0x2C1C, 0x2C4C);
   (0x2C1D, 0x2C4D); (0x2C1E, 0x2C4E); (0x2C1F, 0x2C4F); (0x2C20, 0x2C50); (0x2C21, 0x2C51);
   (0x2C22, 0x2C52); (0x2C23, 0x2C53); (0x2C24, 0x2C54); (0x2C25, 0x2C55); (0x2C26, 0x2C56);
   (0x2C27, 0x2C57); (0x2C28, 0x2C58); (0x2C29, 0x2C59); (0x2C2A, 0x2C5A); (0x2C2B, 0x2C5B);
   (0x2C2C, 0x2C5C); (0x2C2D, 0x2C5D); (0x2C2E, 0x2C5E); (0x2C2F, 0x2C5F); (0x2C60, 0x2C61);
   (0x2C62, 0x26B); (0x2C63, 0x1D7D); (0x2C64, 0x27D); (0x2C67, 0x2C68); (0x2C69, 0x2C6A);
   (0x2C6B, 0x2C6C); (0x2C6D, 0x251); (0x2C6E, 0x271); (0x2C6F, 0x250); (0x2C70, 0x252);
   (0x2C72, 0x2C73); (0x2C75, 0x2C76); (0x2C7E, 0x23F); (0x2C7F, 0x240); (0x2C80, 0x2C81);
   (0x2C82, 0x2C83); (0x2C84, 0x2C85); (0x2C86, 0x2C87); (0x2C88, 0x2C89); (0x2C8A, 0x2C8B);
   (0x2C8C, 0x2C8D); (0x2C8E, 0x2C8F); (0x2C90, 0x2C91); (0x2C92, 0x2C93); (0x2C94, 0x2C95);
   (0x2C96, 0x2C97); (0x2C98, 0x2C99); (0x2C9A, 0x2C9B); (0x2C9C, 0x2C9D); (0x2C9E, 0x2C9F);
   (0x2CA0, 0x2CA1); (0x2CA2, 0x2CA3); (0x2CA4, 0x2CA5); (0x2CA6, 0x2CA7); (0x2CA8, 0x2CA9);
   (0x2CAA, 0x2CAB); (0x2CAC, 0x2CAD); (0x2CAE, 0x2CAF); (0x2CB0, 0x2CB1); (0x2CB2, 0x2CB3);
   (0x2CB4, 0x2CB5); (0x2CB6, 0x2CB7); (0x2CB8, 0x2CB9); (0x2CBA, 0x2CBB); (0x2CBC, 0x2CBD);
   (0x2CBE, 0x2CBF); (0x2CC0, 0x2CC1); (0x2CC2, 0x2CC3); (0x2CC4, 0x2CC5); (0x2CC6, 0x2CC7);
   (0x2CC8, 0x2CC9); (0x2CCA, 0x2CCB); (0x2CCC, 0x2CCD); (0x2CCE, 0x2CCF); (0x2CD0, 0x2CD1);
   (0x2CD2, 0x2CD3); (0x2CD4, 0x2CD5); (0x2CD6, 0x2CD7); (0x2CD8, 0x2CD9); (0x2CDA, 0x2CDB);
   (0x2CDC, 0x2CDD); (0x2CDE, 0x2CDF); (0x2CE0, 0x2CE1); (0x2CE2, 0x2CE3); (0x2CEB, 0x2CEC);
   (0x2CED, 0x2CEE); (0x2CF2, 0x2CF3); (0xA640, 0xA641); (0xA642, 0xA643); (0xA644, 0xA645);
   (0xA646, 0xA647); (0xA648, 0xA649); (0xA64A, 0xA64B); (0xA64C, 0xA64D); (0xA64E, 0xA64F);
   (0xA650, 0xA651); (0xA652, 0xA653); (0xA654, 0xA655); (0xA656, 0xA657); (0xA658, 0xA659);
   (0xA65A, 0xA65B); (0xA65C, 0xA65D); (0xA65E, 0xA65F); (0xA660, 0xA661); (0xA662, 0xA663);
   (0xA664, 0xA665); (0xA666, 0xA667); (0xA668, 0xA669); (0xA66A, 0xA66B); (0xA66C, 0xA66D);
   (0xA680, 0xA681); (0xA682, 0xA683); (0xA684, 0xA685); (0xA686, 0xA687); (0xA688, 0xA689);
   (0xA68A, 0xA68B); (0xA68C, 0xA68D); (0xA68E, 0xA68F); (0xA690, 0xA691); (0xA692, 0xA693);
   (0xA694, 0xA695); (0xA696, 0xA697); (0xA698, 0xA699); (0xA69A, 0xA69B); (0xA722, 0xA723);
   (0xA724, 0xA725); (0xA726, 0xA727); (0xA728, 0xA729); (0xA72A, 0xA72B); (0xA72C, 0xA72D);
   (0xA72E, 0xA72F); (0xA732, 0xA733); (0xA734, 0xA735); (0xA736, 0xA737); (0xA738, 0xA739);
   (0xA73A, 0xA73B); (0xA73C, 0xA73D); (0xA73E, 0xA73F); (0xA740, 0xA741); (0xA742, 0xA743);
   (0xA744, 0xA745); (0xA746, 0xA747); (0xA748, 0xA749); (0xA74A, 0xA74B); (0xA74C, 0xA74D);
   (0xA74E, 0xA74F); (0xA750, 0xA751); (0xA752, 0xA753); (0xA754, 0xA755); (0xA756, 0xA757);
   (0xA758, 0xA759); (0xA75A, 0xA75B); (0xA75C, 0xA75D); (0xA75E, 0xA75F); (0xA760, 0xA761);
   (0xA762, 0xA763); (0xA764, 0xA765); (0xA766, 0xA767); (0xA768, 0xA769); (0xA76A, 0xA76B);
   (0xA76C, 0xA76D); (0xA76E, 0xA76F); (0xA779, 0xA77A); (0xA77B, 0xA77C); (0xA77D, 0x1D79);
   (0xA77E, 0xA77F); (0xA780, 0xA781); (0xA782, 0xA783); (0xA784, 0xA785); (0xA786, 0xA787);
   (0xA78B, 0xA78C); (0xA78D, 0x265); (0xA790, 0xA791); (0xA792, 0xA793); (0xA796, 0xA797);
   (0xA798, 0xA799); (0xA79A, 0xA79B); (0xA79C, 0xA79D); (0xA79E, 0xA79F); (0xA7A0, 0xA7A1);
   (0xA7A2, 0xA7A3); (0xA7A4, 0xA7A5); (0xA7A6, 0xA7A7); (0xA7A8, 0xA7A9); (0xA7AA, 0x266);
   (0xA7AB, 0x25C); (0xA7AC, 0x261); (0xA7AD, 0x26C); (0xA7AE, 0x26A); (0xA7B0, 0x29E);
   (0xA7B1, 0x287); (0xA7B2, 0x29D); (0xA7B3, 0xAB53); (0xA7B4, 0xA7B5); (0xA7B6, 0xA7B7);
   (0xA7B8, 0xA7B9); (0xA7BA, 0xA7BB); (0xA7BC, 0xA7BD); (0xA7BE, 0xA7BF); (0xA7C0, 0xA7C1);
   (0xA7C2, 0xA7C3); (0xA7C4, 0xA794); (0xA7C5, 0x282); (0xA7C6, 0x1D8E); (0xA7C7, 0xA7C8);
   (0xA7C9, 0xA7CA); (0xA7D0, 0xA7D1); (0xA7D6, 0xA7D7); (0xA7D8, 0xA7D9); (0xA7F5, 0xA7F6);
   (0xFF21, 0xFF41); (0xFF22, 0xFF42); (0xFF23, 0xFF43); (0xFF24, 0xFF44); (0xFF25, 0xFF45);
   (0xFF26, 0xFF46); (0xFF27, 0xFF47); (0xFF28, 0xFF48); (0xFF29, 0xFF49); (0xFF2A, 0xFF4A);
   (0xFF2B, 0xFF4B); (0xFF2C, 0xFF4C); (0xFF2D, 0xFF4D); (0xFF2E, 0xFF4E); (0xFF2F, 0xFF4F);
   (0xFF30, 0xFF50); (0xFF31, 0xFF51); (0xFF32, 0xFF52); (0xFF33, 0xFF53); (0xFF34, 0xFF54);
   (0xFF35, 0xFF55); (0xFF36, 0xFF56); (0xFF37, 0xFF57); (0xFF38, 0xFF58); (0xFF39, 0xFF59);
   (0xFF3A, 0xFF5A); (0x10400, 0x10428); (0x10401, 0x10429); (0x10402, 0x1042A); (0x10403, 0x1042B);
   (0x10404, 0x1042C); (0x10405, 0x1042D); (0x10406, 0x1042E); (0x10407, 0x1042F); (0x10408, 0x10430);
   (0x10409, 0x10431); (0x1040A, 0x10432); (0x1040B, 0x10433); (0x1040C, 0x10434); (0x1040D, 0x10435);
   (0x1040E, 0x10436); (0x1040F, 0x10437); (0x10410, 0x10438); (0x10411, 0x10439); (0x10412, 0x1043A);
   (0x10413, 0x1043B); (0x10414, 0x1043C); (0x10415, 0x1043D); (0x10416, 0x1043E); (0x10417, 0x1043F);
   (0x10418, 0x10440); (0x10419, 0x10441); (0x1041A, 0x10442); (0x1041B, 0x10443); (0x1041C, 0x10444);
   (0x1041D, 0x10445); (0x1041E, 0x10446); (0x1041F, 0x10447); (0x10420, 0x10448); (0x10421, 0x10449);
   (0x10422, 0x1044A); (0x10423, 0x1044B); (0x10424, 0x1044C); (0x10425, 0x1044D); (0x10426, 0x1044E);
   (0x10427, 0x1044F); (0x104B0, 0x104D8); (0x104B1, 0x104D9); (0x104B2, 0x104DA); (0x104B3, 0x104DB);
   (0x104B4, 0x104DC); (0x104B5, 0x104DD); (0x104B6, 0x104DE); (0x104B7, 0x104DF); (0x104B8, 0x104E0);
   (0x104B9, 0x104E1); (0x104BA, 0x104E2); (0x104BB, 0x104E3); (0x104BC, 0x104E4); (0x104BD, 0x104E5);
   (0x104BE, 0x104E6); (0x104BF, 0x104E7); (0x104C0, 0x104E8); (0x104C1, 0x104E9); (0x104C2, 0x104EA);
   (0x104C3, 0x104EB); (0x104C4, 0x104EC); (0x104C5, 0x104ED); (0x104C6, 0x104EE); (0x104C7, 0x104EF);
   (0x104C8, 0x104F0); (0x104C9, 0x104F1); (0x104CA, 0x104F2); (0x104CB, 0x104F3); (0x104CC, 0x104F4);
   (0x104CD, 0x104F5); (0x104CE, 0x104F6); (0x104CF, 0x104F7); (0x104D0, 0x104F8); (0x104D1, 0x104F9);
   (0x104D2, 0x104FA); (0x104D3, 0x104FB); (0x10570, 0x10597); (0x10571, 0x10598); (0x10572, 0x10599);
   (0x10573, 0x1059A); (0x10574, 0x1059B); (0x10575, 0x1059C); (0x10576, 0x1059D); (0x10577, 0x1059E);
   (0x10578, 0x1059F); (0x10579, 0x105A0); (0x1057A, 0x105A1); (0x1057C, 0x105A3); (0x1057D, 0x105A4);
   (0x1057E, 0x105A5); (0x1057F, 0x105A6); (0x10580, 0x105A7); (0x10581, 0x105A8); (0x10582, 0x105A9);
   (0x10583, 0x105AA); (0x10584, 0x105AB); (0x10585, 0x105AC); (0x10586, 0x105AD); (0x10587, 0x105AE);
   (0x10588, 0x105AF); (0x10589, 0x105B0); (0x1058A, 0x105B1); (0x1058C, 0x105B3); (0x1058D, 0x105B4);
   (0x1058E, 0x105B5); (0x1058F, 0x105B6); (0x10590, 0x105B7); (0x10591, 0x105B8); (0x10592, 0x105B9);
   (0x10594, 0x105BB); (0x10595, 0x105BC); (0x10C80, 0x10CC0); (0x10C81, 0x10CC1); (0x10C82, 0x10CC2);
   (0x10C83, 0x10CC3); (0x10C84, 0x10CC4); (0x10C85, 0x10CC5); (0x10C86, 0x10CC6); (0x10C87, 0x10CC7);
   (0x10C88, 0x10CC8); (0x10C89, 0x10CC9); (0x10C8A, 0x10CCA); (0x10C8B, 0x10CCB); (0x10C8C, 0x10CCC);
   (0x10C8D, 0x10CCD); (0x10C8E, 0x10CCE); (0x10C8F, 0x10CCF); (0x10C90, 0x10CD0); (0x10C91, 0x10CD1);
   (0x10C92, 0x10CD2); (0x10C93, 0x10CD3); (0x10C94, 0x10CD4); (0x10C95, 0x10CD5); (0x10C96, 0x10CD6);
   (0x10C97, 0x10CD7); (0x10C98, 0x10CD8); (0x10C99, 0x10CD9); (0x10C9A, 0x10CDA); (0x10C9B, 0x10CDB);
   (0x10C9C, 0x10CDC); (0x10C9D, 0x10CDD); (0x10C9E, 0x10CDE); (0x10C9F, 0x10CDF); (0x10CA0, 0x10CE0);
   (0x10CA1, 0x10CE1); (0x10CA2, 0x10CE2); (0x10CA3, 0x10CE3); (0x10CA4, 0x10CE4); (0x10CA5, 0x10CE5);
   (0x10CA6, 0x10CE6); (0x10CA7, 0x10CE7); (0x10CA8, 0x10CE8); (0x10CA9, 0x10CE9); (0x10CAA, 0x10CEA);
   (0x10CAB, 0x10CEB); (0x10CAC, 0x10CEC); (0x10CAD, 0x10CED); (0x10CAE, 0x10CEE); (0x10CAF, 0x10CEF);
   (0x10CB0, 0x10CF0); (0x10CB1, 0x10CF1); (0x10CB2, 0x10CF2); (0x118A0, 0x118C0); (0x118A1, 0x118C1);
   (0x118A2, 0x118C2); (0x118A3, 0x118C3); (0x118A4, 0x118C4); (0x118A5, 0x118C5); (0x118A6, 0x118C6);
   (0x118A7, 0x118C7); (0x118A8, 0x118C8); (0x118A9, 0x118C9); (0x118AA, 0x118CA); (0x118AB, 0x118CB);
   (0x118AC, 0x118CC); (0x118AD, 0x118CD); (0x118AE, 0x118CE); (0x118AF, 0x118CF); (0x118B0, 0x118D0);
   (0x118B1, 0x118D1); (0x118B2, 0x118D2); (0x118B3, 0x118D3); (0x118B4, 0x118D4); (0x118B5, 0x118D5);
   (0x118B6, 0x118D6); (0x118B7, 0x118D7); (0x118B8, 0x118D8); (0x118B9, 0x118D9); (0x118BA, 0x118DA);
   (0x118BB, 0x118DB); (0x118BC, 0x118DC); (0x118BD, 0x118DD); (0x118BE, 0x118DE); (0x118BF, 0x118DF);
   (0x16E40, 0x16E60); (0x16E41, 0x16E61); (0x16E42, 0x16E62); (0x16E43, 0x16E63); (0x16E44, 0x16E64);
   (0x16E45, 0x16E65); (0x16E46, 0x16E66); (0x16E47, 0x16E67); (0x16E48, 0x16E68); (0x16E49, 0x16E69);
   (0x16E4A, 0x16E6A); (0x16E4B, 0x16E6B); (0x16E4C, 0x16E6C); (0x16E4D, 0x16E6D); (0x16E4E, 0x16E6E);
   (0x16E4F, 0x16E6F); (0x16E50, 0x16E70); (0x16E51, 0x16E71); (0x16E52, 0x16E72); (0x16E53, 0x16E73);
   (0x16E54, 0x16E74); (0x16E55, 0x16E75); (0x16E56, 0x16E76); (0x16E57, 0x16E77); (0x16E58, 0x16E78);
   (0x16E59, 0x16E79); (0x16E5A, 0x16E7A); (0x16E5B, 0x16E7B); (0x16E5C, 0x16E7C); (0x16E5D, 0x16E7D);
   (0x16E5E, 0x16E7E); (0x16E5F, 0x16E7F); (0x1E900, 0x1E922); (0x1E901, 0x1E923); (0x1E902, 0x1E924);
   (0x1E903, 0x1E925); (0x1E904, 0x1E926); (0x1E905, 0x1E927); (0x1E906, 0x1E928); (0x1E907, 0x1E929);
   (0x1E908, 0x1E92A); (0x1E909, 0x1E92B); (0x1E90A, 0x1E92C); (0x1E90B, 0x1E92D); (0x1E90C, 0x1E92E);
   (0x1E90D, 0x1E92F); (0x1E90E, 0x1E930); (0x1E90F, 0x1E931); (0x1E910, 0x1E932); (0x1E911, 0x1E933);
   (0x1E912, 0x1E934); (0x1E913, 0x1E935); (0x1E914, 0x1E936); (0x1E915, 0x1E937); (0x1E916, 0x1E938);
   (0x1E917, 0x1E939); (0x1E918, 0x1E93A); (0x1E919, 0x1E93B); (0x1E91A, 0x1E93C); (0x1E91B, 0x1E93D);
   (0x1E91C, 0x1E93E); (0x1E91D, 0x1E93F); (0x1E91E, 0x1E940); (0x1E91F, 0x1E941); (0x1E920, 0x1E942);
   (0x1E921, 0x1E943)
  ]%N.

(** The characters with the property [Case_Ignorable]. *)
Definition CASE_IGNORABLE : list (N * N) :=
  [
   (0x27, 0x27); (0x2E, 0x2E); (0x3A, 0x3A); (0x5E, 0x5E); (0x60, 0x60);
   (0xA8, 0xA8); (0xAD, 0xAD); (0xAF, 0xAF); (0xB4, 0xB4); (0xB7, 0xB8);
   (0x2B0, 0x36F); (0x374, 0x375); (0x37A, 0x37A); (0x384, 0x385); (0x387, 0x387);
   (0x483, 0x489); (0x559, 0x559); (0x55F, 0x55F); (0x591, 0x5BD); (0x5BF, 0x5BF);
   (0x5C1, 0x5C2); (0x5C4, 0x5C5); (0x5C7, 0x5C7); (0x5F4, 0x5F4); (0x600, 0x605);
   (0x610, 0x61A); (0x61C, 0x61C); (0x640, 0x640); (0x64B, 0x65F); (0x670, 0x670);
   (0x6D6, 0x6DD); (0x6DF, 0x6E8); (0x6EA, 0x6ED); (0x70F, 0x70F); (0x711, 0x711);
   (0x730, 0x74A); (0x7A6, 0x7B0); (0x7EB, 0x7F5); (0x7FA, 0x7FA); (0x7FD, 0x7FD);
   (0x816, 0x82D); (0x859, 0x85B); (0x888, 0x888); (0x890, 0x891); (0x898, 0x89F);
   (0x8C9, 0x902); (0x93A, 0x93A); (0x93C, 0x93C); (0x941, 0x948); (0x94D, 0x94D);
   (0x951, 0x957); (0x962, 0x963); (0x971, 0x971); (0x981, 0x981); (0x9BC, 0x9BC);
   (0x9C1, 0x9C4); (0x9CD, 0x9CD); (0x9E2, 0x9E3); (0x9FE, 0x9FE); (0xA01, 0xA02);
   (0xA3C, 0xA3C); (0xA41, 0xA42); (0xA47, 0xA48); (0xA4B, 0xA4D); (0xA51, 0xA51);
   (0xA70, 0xA71); (0xA75, 0xA75); (0xA81, 0xA82); (0xABC, 0xABC); (0xAC1, 0xAC5);
   (0xAC7, 0xAC8); (0xACD, 0xACD); (0xAE2, 0xAE3); (0xAFA, 0xAFF); (0xB01, 0xB01);
   (0xB3C, 0xB3C); (0xB3F, 0xB3F); (0xB41, 0xB44); (0xB4D, 0xB4D); (0xB55, 0xB56);
   (0xB62, 0xB63); (0xB82, 0xB82); (0xBC0, 0xBC0); (0xBCD, 0xBCD); (0xC00, 0xC00);
   (0xC04, 0xC04); (0xC3C, 0xC3C); (0xC3E, 0xC40); (0xC46, 0xC48); (0xC4A, 0xC4D);
   (0xC55, 0xC56); (0xC62, 0xC63); (0xC81, 0xC81); (0xCBC, 0xCBC); (0xCBF, 0xCBF);
   (0xCC6, 0xCC6); (0xCCC, 0xCCD); (0xCE2, 0xCE3); (0xD00, 0xD01); (0xD3B, 0xD3C);
   (0xD41, 0xD44); (0xD4D, 0xD4D); (0xD62, 0xD63); (0xD81, 0xD81); (0xDCA, 0xDCA);
   (0xDD2, 0xDD4); (0xDD6, 0xDD6); (0xE31, 0xE31); (0xE34, 0xE3A); (0xE46, 0xE4E);
   (0xEB1, 0xEB1); (0xEB4, 0xEBC); (0xEC6, 0xEC6); (0xEC8, 0xECD); (0xF18, 0xF19);
   (0xF35, 0xF35); (0xF37, 0xF37); (0xF39, 0xF39); (0xF71, 0xF7E); (0xF80, 0xF84);
   (0xF86, 0xF87); (0xF8D, 0xF97); (0xF99, 0xFBC); (0xFC6, 0xFC6); (0x102D, 0x1030);
   (0x1032, 0x1037); (0x1039, 0x103A); (0x103D, 0x103E); (0x1058, 0x1059); (0x105E, 0x1060);
   (0x1071, 0x1074); (0x1082, 0x1082); (0x1085, 0x1086); (0x108D, 0x108D); (0x109D, 0x109D);
   (0x10FC, 0x10FC); (0x135D, 0x135F); (0x1712, 0x1714); (0x1732, 0x1733); (0x1752, 0x1753);
   (0x1772, 0x1773); (0x17B4, 0x17B5); (0x17B7, 0x17BD); (0x17C6, 0x17C6); (0x17C9, 0x17D3);
   (0x17D7, 0x17D7); (0x17DD, 0x17DD); (0x180B, 0x180F); (0x1843, 0x1843); (0x1885, 0x1886);
   (0x18A9, 0x18A9); (0x1920, 0x1922); (0x1927, 0x1928); (0x1932, 0x1932); (0x1939, 0x193B);
   (0x1A17, 0x1A18); (0x1A1B, 0x1A1B); (0x1A56, 0x1A56); (0x1A58, 0x1A5E); (0x1A60, 0x1A60);
   (0x1A62, 0x1A62); (0x1A65, 0x1A6C); (0x1A73, 0x1A7C); (0x1A7F, 0x1A7F); (0x1AA7, 0x1AA7);
   (0x1AB0, 0x1ACE); (0x1B00, 0x1B03); (0x1B34, 0x1B34); (0x1B36, 0x1B3A); (0x1B3C, 0x1B3C);
   (0x1B42, 0x1B42); (0x1B6B, 0x1B73); (0x1B80, 0x1B81); (0x1BA2, 0x1BA5); (0x1BA8, 0x1BA9);
   (0x1BAB, 0x1BAD); (0x1BE6, 0x1BE6); (0x1BE8, 0x1BE9); (0x1BED, 0x1BED); (0x1BEF, 0x1BF1);
   (0x1C2C, 0x1C33); (0x1C36, 0x1C37); (0x1C78, 0x1C7D); (0x1CD0, 0x1CD2); (0x1CD4, 0x1CE0);
   (0x1CE2, 0x1CE8); (0x1CED, 0x1CED); (0x1CF4, 0x1CF4); (0x1CF8, 0x1CF9); (0x1D2C, 0x1D6A);
   (0x1D78, 0x1D78); (0x1D9B, 0x1DFF); (0x1FBD, 0x1FBD); (0x1FBF, 0x1FC1); (0x1FCD, 0x1FCF);
   (0x1FDD, 0x1FDF); (0x1FED, 0x1FEF); (0x1FFD, 0x1FFE); (0x200B, 0x200F); (0x2018, 0x2019);
   (0x2024, 0x2024); (0x2027, 0x2027); (0x202A, 0x202E); (0x2060, 0x2064); (0x2066, 0x206F);
   (0x2071, 0x2071); (0x207F, 0x207F); (0x2090, 0x209C); (0x20D0, 0x20F0); (0x2C7C, 0x2C7D);
   (0x2CEF, 0x2CF1); (0x2D6F, 0x2D6F); (0x2D7F, 0x2D7F); (0x2DE0, 0x2DFF); (0x2E2F, 0x2E2F);
   (0x3005, 0x3005); (0x302A, 0x302D); (0x3031, 0x3035); (0x303B, 0x303B); (0x3099, 0x309E);
   (0x30FC, 0x30FE); (0xA015, 0xA015); (0xA4F8, 0xA4FD); (0xA60C, 0xA60C); (0xA66F, 0xA672);
   (0xA674, 0xA67D); (0xA67F, 0xA67F); (0xA69C, 0xA69F); (0xA6F0, 0xA6F1); (0xA700, 0xA721);
   (0xA770, 0xA770); (0xA788, 0xA78A); (0xA7F2, 0xA7F4); (0xA7F8, 0xA7F9); (0xA802, 0xA802);
   (0xA806, 0xA806); (0xA80B, 0xA80B); (0xA825, 0xA826); (0xA82C, 0xA82C); (0xA8C4, 0xA8C5);
   (0xA8E0, 0xA8F1); (0xA8FF, 0xA8FF); (0xA926, 0xA92D); (0xA947, 0xA951); (0xA980, 0xA982);
   (0xA9B3, 0xA9B3); (0xA9B6, 0xA9B9); (0xA9BC, 0xA9BD); (0xA9CF, 0xA9CF); (0xA9E5, 0xA9E6);
   (0xAA29, 0xAA2E); (0xAA31, 0xAA32); (0xAA35, 0xAA36); (0xAA43, 0xAA43); (0xAA4C, 0xAA4C);
   (0xAA70, 0xAA70); (0xAA7C, 0xAA7C); (0xAAB0, 0xAAB0); (0xAAB2, 0xAAB4); (0xAAB7, 0xAAB8);
   (0xAABE, 0xAABF); (0xAAC1, 0xAAC1); (0xAADD, 0xAADD); (0xAAEC, 0xAAED); (0xAAF3, 0xAAF4);
   (0xAAF6, 0xAAF6); (0xAB5B, 0xAB5F); (0xAB69, 0xAB6B); (0xABE5, 0xABE5); (0xABE8, 0xABE8);
   (0xABED, 0xABED); (0xFB1E, 0xFB1E); (0xFBB2, 0xFBC2); (0xFE00, 0xFE0F); (0xFE13, 0xFE13);
   (0xFE20, 0xFE2F); (0xFE52, 0xFE52); (0xFE55, 0xFE55); (0xFEFF, 0xFEFF); (0xFF07, 0xFF07);
   (0xFF0E, 0xFF0E); (0xFF1A, 0xFF1A); (0xFF3E, 0xFF3E); (0xFF40, 0xFF40); (0xFF70, 0xFF70);
   (0xFF9E, 0xFF9F); (0xFFE3, 0xFFE3); (0xFFF9, 0xFFFB); (0x101FD, 0x101FD); (0x102E0, 0x102E0);
   (0x10376, 0x1037A); (0x10780, 0x10785); (0x10787, 0x107B0); (0x107B2, 0x107BA); (0x10A01, 0x10A03);
   (0x10A05, 0x10A06); (0x10A0C, 0x10A0F); (0x10A38, 0x10A3A); (0x10A3F, 0x10A3F); (0x10AE5, 0x10AE6);
   (0x10D24, 0x10D27); (0x10EAB, 0x10EAC); (0x10F46, 0x10F50); (0x10F82, 0x10F85); (0x11001, 0x11001);
   (0x11038, 0x11046); (0x11070, 0x11070); (0x11073, 0x11074); (0x1107F, 0x11081); (0x110B3, 0x110B6);
   (0x110B9, 0x110BA); (0x110BD, 0x110BD); (0x110C2, 0x110C2); (0x110CD, 0x110CD); (0x11100, 0x11102);
   (0x11127, 0x1112B); (0x1112D, 0x11134); (0x11173, 0x11173); (0x11180, 0x11181); (0x111B6, 0x111BE);
   (0x111C9, 0x111CC); (0x111CF, 0x111CF); (0x1122F, 0x11231); (0x11234, 0x11234); (0x11236, 0x11237);
   (0x1123E, 0x1123E); (0x112DF, 0x112DF); (0x112E3, 0x112EA); (0x11300, 0x11301); (0x1133B, 0x1133C);
   (0x11340, 0x11340); (0x11366, 0x1136C); (0x11370, 0x11374); (0x11438, 0x1143F); (0x11442, 0x11444);
   (0x11446, 0x11446); (0x1145E, 0x1145E); (0x114B3, 0x114B8); (0x114BA, 0x114BA); (0x114BF, 0x114C0);
   (0x114C2, 0x114C3); (0x115B2, 0x115B5); (0x115BC, 0x115BD); (0x115BF, 0x115C0); (0x115DC, 0x115DD);
   (0x11633, 0x1163A); (0x1163D, 0x1163D); (0x1163F, 0x11640); (0x116AB, 0x116AB); (0x116AD, 0x116AD);
   (0x116B0, 0x116B5); (0x116B7, 0x116B7); (0x1171D, 0x1171F); (0x11722, 0x11725); (0x11727, 0x1172B);
   (0x1182F, 0x11837); (0x11839, 0x1183A); (0x1193B, 0x1193C); (0x1193E, 0x1193E); (0x11943, 0x11943);
   (0x119D4, 0x119D7); (0x119DA, 0x119DB); (0x119E0, 0x119E0); (0x11A01, 0x11A0A); (0x11A33, 0x11A38);
   (0x11A3B, 0x11A3E); (0x11A47, 0x11A47); (0x11A51, 0x11A56); (0x11A59, 0x11A5B); (0x11A8A, 0x11A96);
   (0x11A98, 0x11A99); (0x11C30, 0x11C36); (0x11C38, 0x11C3D); (0x11C3F, 0x11C3F); (0x11C92, 0x11CA7);
   (0x11CAA, 0x11CB0); (0x11CB2, 0x11CB3); (0x11CB5, 0x11CB6); (0x11D31, 0x11D36); (0x11D3A, 0x11D3A);
   (0x11D3C, 0x11D3D); (0x11D3F, 0x11D45); (0x11D47, 0x11D47); (0x11D90, 0x11D91); (0x11D95, 0x11D95);
   (0x11D97, 0x11D97); (0x11EF3, 0x11EF4); (0x13430, 0x13438); (0x16AF0, 0x16AF4); (0x16B30, 0x16B36);
   (0x16B40, 0x16B43); (0x16F4F, 0x16F4F); (0x16F8F, 0x16F9F); (0x16FE0, 0x16FE1); (0x16FE3, 0x16FE4);
   (0x1AFF0, 0x1AFF3); (0x1AFF5, 0x1AFFB); (0x1AFFD, 0x1AFFE); (0x1BC9D, 0x1BC9E); (0x1BCA0, 0x1BCA3);
   (0x1CF00, 0x1CF2D); (0x1CF30, 0x1CF46); (0x1D167, 0x1D169); (0x1D173, 0x1D182); (0x1D185, 0x1D18B);
   (0x1D1AA, 0x1D1AD); (0x1D242, 0x1D244); (0x1DA00, 0x1DA36); (0x1DA3B, 0x1DA6C); (0x1DA75, 0x1DA75);
   (0x1DA84, 0x1DA84); (0x1DA9B, 0x1DA9F); (0x1DAA1, 0x1DAAF); (0x1E000, 0x1E006); (0x1E008, 0x1E018);
   (0x1E01B, 0x1E021); (0x1E023, 0x1E024); (0x1E026, 0x1E02A); (0x1E130, 0x1E13D); (0x1E2AE, 0x1E2AE);
   (0x1E2EC, 0x1E2EF); (0x1E8D0, 0x1E8D6); (0x1E944, 0x1E94B); (0x1F3FB, 0x1F3FF); (0xE0001, 0xE0001);
   (0xE0020, 0xE007F); (0xE0100, 0xE01EF)
  ]%N.

(** The characters with the property [Cased]. *)
Definition CASED : list (N * N) :=
  [
   (0x41, 0x5A); (0x61, 0x7A); (0xAA, 0xAA); (0xB5, 0xB5); (0xBA, 0xBA);
   (0xC0, 0xD6); (0xD8, 0xF6); (0xF8, 0x1BA); (0x1BC, 0x1BF); (0x1C4, 0x293);
   (0x295, 0x2B8); (0x2C0, 0x2C1); (0x2E0, 0x2E4); (0x345, 0x345); (0x370, 0x373);
   (0x376, 0x377); (0x37A, 0x37D); (0x37F, 0x37F); (0x386, 0x386); (0x388, 0x38A);
   (0x38C, 0x38C); (0x38E, 0x3A1); (0x3A3, 0x3F5); (0x3F7, 0x481); (0x48A, 0x52F);
   (0x531, 0x556); (0x560, 0x588); (0x10A0, 0x10C5); (0x10C7, 0x10C7); (0x10CD, 0x10CD);
   (0x10D0, 0x10FA); (0x10FD, 0x10FF); (0x13A0, 0x13F5); (0x13F8, 0x13FD); (0x1C80, 0x1C88);
   (0x1C90, 0x1CBA); (0x1CBD, 0x1CBF); (0x1D00, 0x1DBF); (0x1E00, 0x1F15); (0x1F18, 0x1F1D);
   (0x1F20, 0x1F45); (0x1F48, 0x1F4D); (0x1F50, 0x1F57); (0x1F59, 0x1F59); (0x1F5B, 0x1F5B);
   (0x1F5D, 0x1F5D); (0x1F5F, 0x1F7D); (0x1F80, 0x1FB4); (0x1FB6, 0x1FBC); (0x1FBE, 0x1FBE);
   (0x1FC2, 0x1FC4); (0x1FC6, 0x1FCC); (0x1FD0, 0x1FD3); (0x1FD6, 0x1FDB); (0x1FE0, 0x1FEC);
   (0x1FF2, 0x1FF4); (0x1FF6, 0x1FFC); (0x2071, 0x2071); (0x207F, 0x207F); (0x2090, 0x209C);
   (0x2102, 0x2102); (0x2107, 0x2107); (0x210A, 0x2113); (0x2115, 0x2115); (0x2119, 0x211D);
   (0x2124, 0x2124); (0x2126, 0x2126); (0x2128, 0x2128); (0x212A, 0x212D); (0x212F, 0x2134);
   (0x2139, 0x2139); (0x213C, 0x213F); (0x2145, 0x2149); (0x214E, 0x214E); (0x2160, 0x217F);
   (0x2183, 0x2184); (0x24B6, 0x24E9); (0x2C00, 0x2CE4); (0x2CEB, 0x2CEE); (0x2CF2, 0x2CF3);
   (0x2D00, 0x2D25); (0x2D27, 0x2D27); (0x2D2D, 0x2D2D); (0xA640, 0xA66D); (0xA680, 0xA69D);
   (0xA722, 0xA787); (0xA78B, 0xA78E); (0xA790, 0xA7CA); (0xA7D0, 0xA7D1); (0xA7D3, 0xA7D3);
   (0xA7D5, 0xA7D9); (0xA7F5, 0xA7F6); (0xA7F8, 0xA7FA); (0xAB30, 0xAB5A); (0xAB5C, 0xAB68);
   (0xAB70, 0xABBF); (0xFB00, 0xFB06); (0xFB13, 0xFB17); (0xFF21, 0xFF3A); (0xFF41, 0xFF5A);
   (0x10400, 0x1044F); (0x104B0, 0x104D3); (0x104D8, 0x104FB); (0x10570, 0x1057A); (0x1057C, 0x1058A);
   (0x1058C, 0x10592); (0x10594, 0x10595); (0x10597, 0x105A1); (0x105A3, 0x105B1); (0x105B3, 0x105B9);
   (0x105BB, 0x105BC); (0x10780, 0x10780); (0x10783, 0x10785); (0x10787, 0x107B0); (0x107B2, 0x107BA);
   (0x10C80, 0x10CB2); (0x10CC0, 0x10CF2); (0x118A0, 0x118DF); (0x16E40, 0x16E7F); (0x1D400, 0x1D454);
   (0x1D456, 0x1D49C); (0x1D49E, 0x1D49F); (0x1D4A2, 0x1D4A2); (0x1D4A5, 0x1D4A6); (0x1D4A9, 0x1D4AC);
   (0x1D4AE, 0x1D4B9); (0x1D4BB, 0x1D4BB); (0x1D4BD, 0x1D4C3); (0x1D4C5, 0x1D505); (0x1D507, 0x1D50A);
   (0x1D50D, 0x1D514); (0x1D516, 0x1D51C); (0x1D51E, 0x1D539); (0x1D53B, 0x1D53E); (0x1D540, 0x1D544);
   (0x1D546, 0x1D546); (0x1D54A, 0x1D550); (0x1D552, 0x1D6A5); (0x1D6A8, 0x1D6C0); (0x1D6C2, 0x1D6DA);
   (0x1D6DC, 0x1D6FA); (0x1D6FC, 0x1D714); (0x1D716, 0x1D734); (0x1D736, 0x1D74E); (0x1D750, 0x1D76E);
   (0x1D770, 0x1D788); (0x1D78A, 0x1D7A8); (0x1D7AA, 0x1D7C2); (0x1D7C4, 0x1D7CB); (0x1DF00, 0x1DF09);
   (0x1DF0B, 0x1DF1E); (0x1E900, 0x1E943); (0x1F130, 0x1F149); (0x1F150, 0x1F169); (0x1F170, 0x1F189)
  ]%N.

Definition case_ignorable (c : N) : bool := in_ranges CASE_IGNORABLE c.

Definition cased (c : N) : bool := in_ranges CASED c.

(** The lower case of one character, whatever is around it; the capital
    I with a dot gives two. *)
Definition lower_full (c : N) : str :=
  if (c <? 0x80)%N then [if in_range 0x41 0x5A c then (c + 32)%N else c]
  else if (c =? 0x130)%N then [0x69; 0x307]%N
  else
    match find (fun p => (fst p =? c)%N) LOWER_PAIRS with
    | Some p => [snd p]
    | None => [c]
    end.

Fixpoint skip (p : N -> bool) (s : str) : str :=
  match s with
  | c :: s' => if p c then skip p s' else s
  | [] => []
  end.

(** A capital sigma is written as a final one when a cased letter comes
    before it and none after it, the characters that case ignores being
    set aside; [before] is what precedes it, nearest first. *)
Definition final_sigma (before after : str) : bool :=
  match skip case_ignorable before with
  | c :: _ =>
      cased c &&
      match skip case_ignorable after with
      | d :: _ => negb (cased d)
      | [] => true
      end
  | [] => false
  end.

(** [str.lower], with what precedes [s] in the string, nearest first. *)
Fixpoint lower_from (before s : str) : str :=
  match s with
  | [] => []
  | c :: s' =>
      (if (c =? 0x3A3)%N
       then [if final_sigma before s' then 0x3C2 else 0x3C3]%N
       else lower_full c)
      ++ lower_from (c :: before) s'
  end.

Definition lower (s : str) : str := lower_from [] s.

(** A character that [str.lower] leaves as it is, wherever it stands. *)
Definition stable (c : N) : bool :=
  match lower_full c with
  | [d] => (d =? c)%N
  | _ => false
  end.

(** [str.lstrip], [str.rstrip], [str.strip] without argument. *)
Fixpoint lstrip (s : str) : str :=
  match s with
  | c :: s' => if is_space c then lstrip s' else s
  | [] => []
  end.

Definition rstrip (s : str) : str := rev (lstrip (rev s)).

Definition strip (s : str) : str := rstrip (lstrip s).

(** [s.startswith(p)]. *)
Fixpoint startswith (p s : str) : bool :=
  match p, s with
  | [], _ => true
  | _ :: _, [] => false
  | a :: p', b :: s' => (a =? b)%N && startswith p' s'
  end.

(** [w in s] on strings. *)
Fixpoint contains (w s : str) : bool :=
  startswith w s ||
  match s with
  | [] => false
  | _ :: s' => contains w s'
  end.

(** Truth value of a string: [bool(s)]. *)
Definition nonempty (s : str) : bool :=
  match s with [] => false | _ :: _ => true end.

(** [int(s)] for a string of digits (as captured by [\d{1,3}]). *)
Definition digit_value (c : N) : Z :=
  match decimal c with Some v => v | None => 0%Z end.

Definition int_of_digits (s : str) : Z :=
  fold_left (fun acc c => acc * 10 + digit_value c)%Z s 0%Z.

(** The whitespace that [int] skips around a number: that of [str.strip]
    but for the separators U+001C to U+001F. *)
Definition int_space (c : N) : bool :=
  is_space c && negb (in_range 0x1C 0x1F c).

(** [sys.int_info.default_max_str_digits]. *)
Definition MAX_STR_DIGITS : nat := 4300.

(** The digits of a number, which single underscores may separate: how
    many they are and their value. *)
Fixpoint digits_us (s : str) (after_digit : bool) (n : nat) (acc : Z)
  : option (nat * Z) :=
  match s with
  | [] => if after_digit then Some (n, acc) else None
  | c :: s' =>
      if is_digit c
      then digits_us s' true (S n) (acc * 10 + digit_value c)%Z
      else if (c =? 0x5F)%N && after_digit then
        match s' with
        | d :: _ => if is_digit d then digits_us s' false n acc else None
        | [] => None
        end
      else None
  end.

(** [int(s)] in general: surrounding whitespace, an optional sign, and
    at most [MAX_STR_DIGITS] digits; [None] is [ValueError]. *)
Definition int (s : str) : option Z :=
  match rev (skip int_space (rev (skip int_space s))) with
  | [] => None
  | c :: s' =>
      let signed := (c =? 0x2D)%N || (c =? 0x2B)%N in
      match digits_us (if signed then s' else c :: s') false 0 0%Z with
      | Some (n, v) =>
          if (n <=? MAX_STR_DIGITS)%nat
          then Some (if (c =? 0x2D)%N then (- v)%Z else v)
          else None
      | None => None
      end
  end.

Arguments decimal : simpl never.
Arguments is_digit : simpl never.
Arguments is_word : simpl never.
Arguments lower_full : simpl never.
Arguments case_ignorable : simpl never.
Arguments cased : simpl never.
Arguments stable : simpl never.

End Text.

Import Text.

(* ================================================================== *)
(** * Regular expressions of the source and Python's matching order *)

Module Re.

(** The constructs that the patterns of [proyecto.py] use.  A repetition
    always ranges over a one-character class there ([\s+], [\s*],
    [\d{1,3}], [[^.,\n]+], [.+]), which is what [Repeat] covers. *)
Inductive regex : Type :=
| Eps : regex
| Lit (x : N) : regex
| Class (p : N -> bool) : regex
| Cat (r1 r2 : regex) : regex
| Alt (r1 r2 : regex) : regex
| Repeat (p : N -> bool) (lo : nat) (hi : option nat) : regex
| Group (n : nat) (r : regex) : regex
| WordBoundary : regex
| EndAnchor : regex.

(** Position of the matcher: the character just before it, the text
    ahead, and the groups captured so far (latest first). *)
Record cursor : Type := Cursor {
  before : option N;
  ahead : str;
  groups : list (nat * str)
}.

Definition is_word_opt (c : option N) : bool :=
  match c with Some x => is_word x | None => false end.

(** What [re.IGNORECASE] folds together when it compares a character of
    the text with an ASCII letter of a pattern: the two cases of the
    letter and, for "i", "s" and "k", the characters U+0130 and U+0131,
    U+017F, and U+212A. *)
Definition fold_char (c : N) : N :=
  if in_range 0x41 0x5A c then (c + 32)%N
  else if (c =? 0x130)%N || (c =? 0x131)%N then 0x69%N
  else if (c =? 0x17F)%N then 0x73%N
  else if (c =? 0x212A)%N then 0x6B%N
  else c.

Definition fold_case (s : str) : str := map fold_char s.

(** Comparison of a pattern character (ASCII, in the patterns of the
    source) with a text character, under [re.IGNORECASE] when [ic] is
    set. *)
Definition same_char (ic : bool) (x y : N) : bool :=
  if ic then (fold_char x =? fold_char y)%N else (x =? y)%N.

Definition more_allowed (hi : option nat) : bool :=
  match hi with Some O => false | _ => true end.

(** Greedy repetition of a class: take as many characters as allowed,
    then give them back one at a time until the rest of the pattern
    ([k]) matches. *)
Fixpoint greedy (A : Type) (p : N -> bool) (lo : nat) (hi : option nat)
    (b : option N) (s : str) (k : option N -> str -> option A) : option A :=
  let stop := match lo with O => k b s | S _ => None end in
  match s with
  | c :: s' =>
      if more_allowed hi && p c then
        match greedy p (pred lo) (option_map pred hi) (Some c) s' k with
        | Some g => Some g
        | None => stop
        end
      else stop
  | [] => stop
  end.

(** The backtracking matcher, in continuation-passing style. *)
Fixpoint run (A : Type) (ic : bool) (r : regex) (c : cursor)
    (k : cursor -> option A) : option A :=
  match r with
  | Eps => k c
  | Lit x =>
      match ahead c with
      | y :: s => if same_char ic x y
                  then k (Cursor (Some y) s (groups c)) else None
      | [] => None
      end
  | Class p =>
      match ahead c with
      | y :: s => if p y then k (Cursor (Some y) s (groups c)) else None
      | [] => None
      end
  | Cat r1 r2 => run ic r1 c (fun c1 => run ic r2 c1 k)
  | Alt r1 r2 =>
      match run ic r1 c k with
      | Some g => Some g
      | None => run ic r2 c k
      end
  | Repeat p lo hi =>
      greedy p lo hi (before c) (ahead c)
        (fun b s => k (Cursor b s (groups c)))
  | Group n r1 =>
      run ic r1 c (fun c1 =>
        k (Cursor (before c1) (ahead c1)
             ((n, firstn (List.length (ahead c) - List.length (ahead c1)) (ahead c))
                :: groups c1)))
  | WordBoundary =>
      if xorb (is_word_opt (before c)) (is_word_opt (hd_error (ahead c)))
      then k c else None
  | EndAnchor =>
      match ahead c with
      | [] => k c
      | [y] => if (y =? 0x0A)%N then k c else None
      | _ => None
      end
  end.

(** A match at the position after [b], with the text [s] ahead. *)
Definition match_here (ic : bool) (r : regex) (b : option N) (s : str)
  : option (list (nat * str)) :=
  run ic r (Cursor b s []) (fun c => Some (groups c)).

(** [re.search]: the match at the leftmost position that has one;
    the result is the list of its groups. *)
Fixpoint search_from (ic : bool) (r : regex) (b : option N) (s : str)
  : option (list (nat * str)) :=
  match match_here ic r b s with
  | Some g => Some g
  | None =>
      match s with
      | [] => None
      | c :: s' => search_from ic r (Some c) s'
      end
  end.

Definition search (ic : bool) (r : regex) (s : str)
  : option (list (nat * str)) :=
  search_from ic r None s.

(** [m.group(n)] of a match. *)
Fixpoint group (n : nat) (g : list (nat * str)) : str :=
  match g with
  | [] => []
  | (i, v) :: g' => if Nat.eqb i n then v else group n g'
  end.

(** A literal word of a pattern. *)
Fixpoint word (w : str) : regex :=
  match w with
  | [] => Eps
  | x :: w' => Cat (Lit x) (word w')
  end.

Definition plus (p : N -> bool) : regex := Repeat p 1 None.
Definition star (p : N -> bool) : regex := Repeat p 0 None.
Definition between (p : N -> bool) (lo hi : nat) : regex :=
  Repeat p lo (Some hi).

(** [.] without [re.DOTALL]. *)
Definition dot (c : N) : bool := negb (c =? 0x0A)%N.

End Re.

Import Re.

(* ================================================================== *)
(** * Aware datetimes in the configured zone *)

Module Datetime.

Local Open Scope Z_scope.

(** An aware [datetime].  The calendar date is kept as its proleptic
    Gregorian ordinal ([date.toordinal()], which is what [datetime] adds
    a [timedelta] to), the wall-clock time as the microseconds since
    midnight, and the [tzinfo] as its offset from UTC in minutes. *)
Record datetime : Type := Datetime {
  ordinal : Z;
  micros : Z;
  utcoffset : Z
}.

Definition MINUTE : Z := 60 * 1000000.
Definition DAY : Z := 24 * 60 * MINUTE.

(** [datetime._ymd2ord], to write calendar dates. *)
Definition is_leap (year : Z) : bool :=
  (year mod 4 =? 0) && (negb (year mod 100 =? 0) || (year mod 400 =? 0)).

Definition days_before_year (year : Z) : Z :=
  let y := year - 1 in y * 365 + y / 4 - y / 100 + y / 400.

Definition DAYS_BEFORE_MONTH : list Z :=
  [-1; 0; 31; 59; 90; 120; 151; 181; 212; 243; 273; 304; 334].

Definition days_before_month (year month : Z) : Z :=
  nth (Z.to_nat month) DAYS_BEFORE_MONTH 0
  + (if (2 <? month) && is_leap year then 1 else 0).

Definition ymd2ord (year month day : Z) : Z :=
  days_before_year year + days_before_month year month + day.

Definition time_of_day (hour minute second microsecond : Z) : Z :=
  ((hour * 60 + minute) * 60 + second) * 1000000 + microsecond.

(** [pytz.timezone("America/Guatemala")]: UTC-06:00, the rule of the zone
    at every instant since October 2006 (no daylight saving time). *)
Definition TZ : Z := - 360.

(** [TZ.localize(datetime(year, month, day, hour, minute))]. *)
Definition local (year month day hour minute : Z) : datetime :=
  Datetime (ymd2ord year month day) (time_of_day hour minute 0 0) TZ.

(** The instant of an aware datetime, in microseconds of UTC. *)
Definition instant (d : datetime) : Z :=
  ordinal d * DAY + micros d - utcoffset d * MINUTE.

(** The aware datetime of an instant in the zone of offset [off]. *)
Definition of_instant (off : Z) (t : Z) : datetime :=
  let wall := t + off * MINUTE in
  Datetime (wall / DAY) (wall mod DAY) off.

(** [d.astimezone(TZ)], for an instant at which the zone follows the
    rule [TZ]. *)
Definition astimezone (d : datetime) : datetime :=
  of_instant TZ (instant d).

(** [d.replace(hour=0, minute=0, second=0, microsecond=0)]. *)
Definition replace_midnight (d : datetime) : datetime :=
  Datetime (ordinal d) 0 (utcoffset d).

(** The wall clock of [d] moved by [days] and [minutes]; the [tzinfo] is
    kept. *)
Definition shift (d : datetime) (days minutes : Z) : datetime :=
  let t := micros d + minutes * MINUTE in
  Datetime (ordinal d + days + t / DAY) (t mod DAY) (utcoffset d).

(** [date.min.toordinal()] and [date.max.toordinal()]: the first day of
    year 1 and the last of year 9999. *)
Definition MINORD : Z := 1.
Definition MAXORD : Z := 3652059.

Definition in_years (d : datetime) : bool :=
  (MINORD <=? ordinal d) && (ordinal d <=? MAXORD).

(** [d + timedelta(days=days, minutes=minutes)]: arithmetic on the wall
    clock; [None] is the [OverflowError] of a sum that leaves the years
    1 to 9999 (or of a [timedelta] too large to be one). *)
Definition add_timedelta (d : datetime) (days minutes : Z)
  : option datetime :=
  let r := shift d days minutes in
  if in_years r then Some r else None.

End Datetime.

Import Datetime.

(* ================================================================== *)
(** * Data of the program *)

(** [class PendingEvent]. *)
Record PendingEvent : Type := mkPendingEvent {
  title : option str;
  start : option datetime;
  end_ : option datetime;
  location : option str;
  description : option str;
  duration_min : option Z
}.

(** [PendingEvent()]. *)
Definition PendingEvent_new : PendingEvent :=
  mkPendingEvent None None None None None None.

Definition set_title (ev : PendingEvent) (v : option str) :=
  mkPendingEvent v (start ev) (end_ ev) (location ev) (description ev)
    (duration_min ev).
Definition set_start (ev : PendingEvent) (v : option datetime) :=
  mkPendingEvent (title ev) v (end_ ev) (location ev) (description ev)
    (duration_min ev).
Definition set_location (ev : PendingEvent) (v : option str) :=
  mkPendingEvent (title ev) (start ev) (end_ ev) v (description ev)
    (duration_min ev).
Definition set_duration_min (ev : PendingEvent) (v : option Z) :=
  mkPendingEvent (title ev) (start ev) (end_ ev) (location ev)
    (description ev) v.

(** Truth values, as [if x:], [not x] and [x or y] take them. *)
Definition truthy_str (x : option str) : bool :=
  match x with Some s => nonempty s | None => false end.

Definition truthy_int (x : option Z) : bool :=
  match x with Some n => negb (n =? 0)%Z | None => false end.

Definition truthy_dt (x : option datetime) : bool :=
  match x with Some _ => true | None => false end.

(** [x or None] on a string. *)
Definition or_None (s : str) : option str :=
  if nonempty s then Some s else None.

(** The values returned by [detect_intent]. *)
Inductive intent : Type :=
| list_today | list_tomorrow | list_week | list_date | create | unknown.

Definition is_list_intent (i : intent) : bool :=
  match i with
  | list_today | list_tomorrow | list_week | list_date => true
  | create | unknown => false
  end.

Definition DEFAULT_DURATION_MIN : Z := 60.

Definition INTENT_SCHEDULE_WORDS : list str :=
  map py ["agenda"; "agendar"; "programa"; "programar"; "crea"; "crear";
          "pon"; "poner"; "haz"; "hacer"; "calendariza";
          "calendarizar"]%string.

Definition INTENT_LIST_WORDS : list str :=
  map py ["qué tareas tengo"; "que tareas tengo"; "qué debo hacer";
          "que debo hacer"; "mi agenda"; "ver agenda"; "qué hay";
          "que hay"; "listar"; "lista"]%string.

(** The patterns of the source. *)

(** [r"\ben\s+([^.,\n]+)"] *)
Definition clause_char (c : N) : bool :=
  negb ((c =? 0x2E)%N || (c =? 0x2C)%N || (c =? 0x0A)%N).

Definition RE_LUGAR : regex :=
  Cat WordBoundary
    (Cat (word (py "en")) (Cat (plus is_space) (Group 1 (plus clause_char)))).

(** [r"(\d{1,3})\s*min"] *)
Definition RE_MIN : regex :=
  Cat (Group 1 (between is_digit 1 3))
    (Cat (star is_space) (word (py "min"))).

(** [r"(\d{1,2})\s*hora"] *)
Definition RE_HORA : regex :=
  Cat (Group 1 (between is_digit 1 2))
    (Cat (star is_space) (word (py "hora"))).

(** [r"\b(con|para|sobre)\s+(.+)$"] *)
Definition RE_TITULO : regex :=
  Cat WordBoundary
    (Cat (Group 1 (Alt (word (py "con"))
                     (Alt (word (py "para")) (word (py "sobre")))))
       (Cat (plus is_space) (Cat (Group 2 (plus dot)) EndAnchor))).

(** [r"\b(\d{1,2}[:.]\d{2}|am|pm|\d{1,2}/\d{1,2})\b"] *)
Definition colon_or_dot (c : N) : bool := (c =? 0x3A)%N || (c =? 0x2E)%N.

Definition RE_HORARIO : regex :=
  Cat WordBoundary
    (Cat (Group 1
            (Alt (Cat (between is_digit 1 2)
                    (Cat (Class colon_or_dot) (between is_digit 2 2)))
               (Alt (word (py "am"))
                  (Alt (word (py "pm"))
                     (Cat (between is_digit 1 2)
                        (Cat (Lit 0x2F) (between is_digit 1 2)))))))
       WordBoundary).

(* ================================================================== *)
(** * The console, the calendar service and the clock *)

(** An entry of the agenda as [list_events] shows it: its title and,
    unless it lasts all day, its start and end. *)
Definition item : Type := (str * option (datetime * datetime))%type.

(** The request body built by [create_event]. *)
Record event_body : Type := mkBody {
  summary : option str;
  body_location : str;
  body_description : str;
  body_start : datetime;
  body_end : datetime
}.

Inductive exn : Type :=
| EOFError          (* [input] at the end of the input *)
| AttributeError    (* a method called on [None] *)
| OverflowError     (* a date outside the years 1 to 9999 *)
| ServiceError.     (* an error raised by the calendar service *)

(** What the program prints. *)
Inductive output : Type :=
| Line (s : str)                       (* a fixed message *)
| Resumen (titulo : option str) (inicio : option datetime)
          (dur : Z) (lugar : option str) (* summary of [confirmar_evento] *)
| Creado (link : str)                  (* confirmation and link *)
| ErrorCreando (e : exn)
| Eventos (items : list item).         (* the listing of [list_events] *)

(** What the program does to the outside, in order. *)
Inductive io_event : Type :=
| Printed (o : output)
| Asked (prompt : str)                       (* [input(prompt)] *)
| Listed (timeMin timeMax : datetime)        (* [events().list(...)] *)
| Inserted (body : event_body)               (* [events().insert(...)] *)
| Notified (to link : str) (ev : PendingEvent).
                              (* [send_email_notification(to, ...)] *)

(** The lines still to be typed, the number of clock readings made, and
    what has happened so far. *)
Record world : Type := World {
  stdin : list str;
  ticks : nat;
  trace : list io_event
}.

(** Computations on the world that return or raise. *)
Definition IO (A : Type) : Type := world -> (A + exn) * world.

Definition ret (A : Type) (a : A) : IO A := fun w => (inl a, w).

Definition raise (A : Type) (e : exn) : IO A := fun w => (inr e, w).
Arguments raise {A} e.

Definition bind (A B : Type) (m : IO A) (f : A -> IO B) : IO B :=
  fun w =>
    match m w with
    | (inl a, w1) => f a w1
    | (inr e, w1) => (inr e, w1)
    end.

(** [try: m  except Exception as e: h e]. *)
Definition try_except (A : Type) (m : IO A) (h : exn -> IO A) : IO A :=
  fun w =>
    match m w with
    | (inl a, w1) => (inl a, w1)
    | (inr e, w1) => h e w1
    end.

Notation "x <- m ;; f" := (bind m (fun x => f))
  (at level 61, m at next level, right associativity).
Notation "m ;;; f" := (bind m (fun _ => f))
  (at level 61, right associativity).

Definition emit (e : io_event) : IO unit :=
  fun w => (inl tt, World (stdin w) (ticks w) (trace w ++ [e])).

(** [print(...)]. *)
Definition print (o : output) : IO unit := emit (Printed o).

Definition say (s : string) : IO unit := print (Line (py s)).

(** [input(prompt)]: the next line, [EOFError] when there is none. *)
Definition input (prompt : str) : IO str :=
  fun w =>
    let tr := trace w ++ [Asked prompt] in
    match stdin w with
    | l :: rest => (inl l, World rest (ticks w) tr)
    | [] => (inr EOFError, World [] (ticks w) tr)
    end.

(** The inserts, the queries and the printed outputs of a trace. *)
Fixpoint inserts (tr : list io_event) : list event_body :=
  match tr with
  | [] => []
  | Inserted b :: tr' => b :: inserts tr'
  | _ :: tr' => inserts tr'
  end.

Fixpoint queries (tr : list io_event) : list (datetime * datetime) :=
  match tr with
  | [] => []
  | Listed a b :: tr' => (a, b) :: queries tr'
  | _ :: tr' => queries tr'
  end.

Fixpoint printed (tr : list io_event) : list output :=
  match tr with
  | [] => []
  | Printed o :: tr' => o :: printed tr'
  | _ :: tr' => printed tr'
  end.

(* ================================================================== *)
(** * The program *)

Section Proyecto.

(** [dateparser.parse(text, languages=["es"], settings=...)] with the
    settings of the source: a datetime aware in [TZ], or [None]. *)
Variable dateparser_parse : str -> option datetime.

(** The clock: the instant (microseconds of UTC) of its [n]-th reading. *)
Variable clock : nat -> Z.

(** The calendar service: the link of the event an insert creates and
    the entries a query returns; [None] when the service raises. *)
Variable calendar_insert : event_body -> option str.
Variable calendar_list : datetime -> datetime -> option (list item).

(** The configured recipient of notifications, if any. *)
Variable DEFAULT_NOTIFY_EMAIL : option str.

Definition parse_datetime_es (text : str) : option datetime :=
  dateparser_parse text.

Definition parse_event_from_text (text : str) : PendingEvent :=
  let ev := PendingEvent_new in
  (* Lugar: "en ..." *)
  let ev :=
    match search true RE_LUGAR text with
    | Some m_loc => set_location ev (Some (strip (group 1 m_loc)))
    | None => ev
    end in
  (* Duracion: "45 min" o "2 horas" *)
  let m_min := search true RE_MIN text in
  let m_hr := search true RE_HORA text in
  let ev :=
    match m_min with
    | Some m => set_duration_min ev (Some (int_of_digits (group 1 m)))
    | None =>
        match m_hr with
        | Some m =>
            set_duration_min ev (Some (int_of_digits (group 1 m) * 60)%Z)
        | None => ev
        end
    end in
  (* Fecha/Hora *)
  let ev :=
    match parse_datetime_es text with
    | Some dt => set_start ev (Some dt)
    | None => ev
    end in
  (* Titulo heuristico *)
  let ev :=
    match search true RE_TITULO text with
    | Some m_title => set_title ev (Some (strip (group 2 m_title)))
    | None => ev
    end in
  let ev :=
    if negb (truthy_str (title ev))
    then set_title ev (Some (firstn 30 (strip text)))  (* fallback *)
    else ev in
  ev.

Definition detect_intent (text : str) : intent :=
  let t := strip (lower text) in
  if existsb (fun w => contains w t) INTENT_LIST_WORDS
     || (startswith (py "agenda") t
         && (contains (py "hoy") t || contains (py "mañana") t))
  then
    if contains (py "hoy") t then list_today
    else if contains (py "mañana") t then list_tomorrow
    else if contains (py "semana") t || contains (py "esta semana") t
    then list_week
    else if truthy_dt (parse_datetime_es t) then list_date
    else list_today
  else if existsb (fun w => contains w t) INTENT_SCHEDULE_WORDS then create
  else if match search false RE_HORARIO t with
          | Some _ => true | None => false end
  then create
  else unknown.

(** ** Console *)

Definition solicitar (texto : str) : IO str :=
  try_except (l <- input texto ;; ret (strip l))
    (fun e => match e with EOFError => ret [] | _ => raise e end).

(** One turn of the loop of [pedir_fecha_hora]; [n] bounds the turns. *)
Fixpoint pedir_fecha_hora_loop (n : nat) : IO (option datetime) :=
  match n with
  | O => ret None
  | S n' =>
      resp <- solicitar (py "¿Para cuándo es la cita? (ej.: 'mañana 3pm', '12/09 14:30') → ") ;;
      if negb (nonempty resp) then ret None
      else
        match parse_datetime_es resp with
        | Some dt => ret (Some dt)
        | None =>
            say "No entendí la fecha/hora. Prueba otro formato." ;;;
            pedir_fecha_hora_loop n'
        end
  end.

(** Every turn reads a line and an empty reply (or the end of the input)
    leaves the loop: the lines to come, plus one, bound the turns. *)
Definition pedir_fecha_hora : IO (option datetime) :=
  fun w => pedir_fecha_hora_loop (S (List.length (stdin w))) w.

Definition pedir_titulo : IO (option str) :=
  resp <- solicitar (py "¿Cómo se llama la cita? (ej.: 'Dentista', 'Reunión con Ana') → ") ;;
  ret (or_None resp).

Definition pedir_lugar : IO (option str) :=
  resp <- solicitar (py "¿Dónde es? (dirección, 'online', 'oficina', etc.) → ") ;;
  ret (or_None resp).

Definition pedir_duracion : IO (option Z) :=
  resp <- solicitar (py "¿Duración en minutos? (Enter para usar 60) → ") ;;
  if negb (nonempty resp) then ret None
  else
    match int resp with
    | Some v => ret (if (0 <? v)%Z then Some v else None)
    | None => ret None    (* except: return None *)
    end.

Definition completar_datos (ev : PendingEvent) : IO PendingEvent :=
  ev <- (if negb (truthy_dt (start ev))
         then (v <- pedir_fecha_hora ;; ret (set_start ev v))
         else ret ev) ;;
  ev <- (if negb (truthy_str (title ev))
         then (v <- pedir_titulo ;; ret (set_title ev v))
         else ret ev) ;;
  ev <- (if negb (truthy_str (location ev))
         then (v <- pedir_lugar ;; ret (set_location ev v))
         else ret ev) ;;
  ev <- (if negb (truthy_int (duration_min ev))
         then (v <- pedir_duracion ;;
               ret (set_duration_min ev
                      (if truthy_int v then v
                       else Some DEFAULT_DURATION_MIN)))
         else ret ev) ;;
  ret ev.

(** [ev.duration_min or DEFAULT_DURATION_MIN]. *)
Definition duration_or_default (ev : PendingEvent) : Z :=
  match duration_min ev with
  | Some n => if (n =? 0)%Z then DEFAULT_DURATION_MIN else n
  | None => DEFAULT_DURATION_MIN
  end.

Definition confirmar_evento (ev : PendingEvent) : IO bool :=
  let inicio := option_map astimezone (start ev) in
  let dur := duration_or_default ev in
  print (Resumen (title ev) inicio dur (location ev)) ;;;
  r <- solicitar (py "¿Confirmo y creo el evento en Google Calendar? (s/n) → ") ;;
  ret (startswith (py "s") (lower r)).

(** ** Calendar *)

(** The body that [create_event] sends, or the exception raised before
    anything is sent: [AttributeError] when [ev.start] is [None]
    ([None.astimezone]), [OverflowError] when the end cannot be
    computed. *)
Definition create_event_body (ev : PendingEvent) : event_body + exn :=
  match start ev with
  | None => inr AttributeError
  | Some s =>
      let start_dt := astimezone s in
      let body end_dt :=
        mkBody (title ev)
          (match location ev with Some l => l | None => [] end)
          (match description ev with Some d => d | None => [] end)
          start_dt end_dt in
      match end_ ev with
      | Some e => inl (body (astimezone e))
      | None =>
          match add_timedelta start_dt 0 (duration_or_default ev) with
          | Some end_dt => inl (body end_dt)
          | None => inr OverflowError
          end
      end
  end.

(** [create_event(service, ev)], giving [creado.get("htmlLink", "")]. *)
Definition create_event (ev : PendingEvent) : IO str :=
  match create_event_body ev with
  | inr e => raise e
  | inl body =>
      emit (Inserted body) ;;;
      match calendar_insert body with
      | Some link => ret link
      | None => raise ServiceError
      end
  end.

Definition list_events (start_dt end_dt : datetime) : IO unit :=
  let timeMin := astimezone start_dt in
  let timeMax := astimezone end_dt in
  emit (Listed timeMin timeMax) ;;;
  match calendar_list timeMin timeMax with
  | None => raise ServiceError
  | Some [] => say "No tienes eventos en ese rango ✨"
  | Some events => print (Eventos events)
  end.

Definition flujo_notificacion (link : str) (ev : PendingEvent) : IO unit :=
  if negb (truthy_str DEFAULT_NOTIFY_EMAIL) then ret tt
  else
    match DEFAULT_NOTIFY_EMAIL with
    | Some to => emit (Notified to link ev)
    | None => ret tt
    end.

(** [datetime.now(TZ)]. *)
Definition datetime_now : IO datetime :=
  fun w =>
    (inl (of_instant TZ (clock (ticks w))),
     World (stdin w) (S (ticks w)) (trace w)).

(** ** The loop of [main] *)

(** The [try] block that creates the event and reports. *)
Definition crear_y_avisar (ev : PendingEvent) : IO unit :=
  try_except
    (link <- create_event ev ;;
     print (Creado link) ;;;
     flujo_notificacion link ev)
    (fun e => print (ErrorCreando e)).

Definition AYUDA : string :=
  "Puedo agendar y también listar tu agenda. Prueba: 'qué debo hacer hoy?' o 'qué tareas tengo para mañana?'".

Definition FALTAN_DATOS : string :=
  "Faltan datos esenciales (fecha/hora y título). Inténtalo de nuevo.".

(** [d + timedelta(days=n)] in a computation. *)
Definition add_days (d : datetime) (n : Z) : IO datetime :=
  match add_timedelta d n 0 with
  | Some r => ret r
  | None => raise OverflowError
  end.

(** The branch of the list intents; [true] when it ends the turn
    ([continue]), [false] when control falls through. *)
Definition main_list (intent_ : intent) (texto : str) : IO bool :=
  now <- datetime_now ;;
  match intent_ with
  | list_today =>
      let start := replace_midnight now in
      end_ <- add_days start 1 ;;
      list_events start end_ ;;; ret true
  | list_tomorrow =>
      t <- add_days now 1 ;;
      let start := replace_midnight t in
      end_ <- add_days start 1 ;;
      list_events start end_ ;;; ret true
  | list_week =>
      let start := replace_midnight now in
      end_ <- add_days start 7 ;;
      list_events start end_ ;;; ret true
  | list_date =>
      match parse_datetime_es texto with
      | Some dt =>
          let start := replace_midnight (astimezone dt) in
          end_ <- add_days start 1 ;;
          list_events start end_ ;;; ret true
      | None => ret false
      end
  | _ => ret false
  end.

(** The branch [if intent == 'create']. *)
Definition main_create (texto : str) : IO unit :=
  let ev := parse_event_from_text texto in
  ev <- completar_datos ev ;;
  if negb (truthy_dt (start ev)) || negb (truthy_str (title ev))
  then say FALTAN_DATOS
  else
    ok <- confirmar_evento ev ;;
    if negb ok then say "Cancelado."
    else crear_y_avisar ev.

(** Desconocido: intenta como crear, si falla, ofrece ayuda general. *)
Definition main_unknown (texto : str) : IO unit :=
  let ev := parse_event_from_text texto in
  done <-
    (if truthy_dt (start ev) then
       ev <- completar_datos ev ;;
       if truthy_dt (start ev) && truthy_str (title ev) then
         ok <- confirmar_evento ev ;;
         if ok then crear_y_avisar ev ;;; ret true else ret false
       else ret false
     else ret false) ;;
  if done then ret tt else say AYUDA.

(** One turn of the loop, for an utterance that does not end the
    session. *)
Definition main_body (texto : str) : IO unit :=
  let intent_ := detect_intent texto in
  done <- (if is_list_intent intent_ then main_list intent_ texto
           else ret false) ;;
  if done then ret tt
  else
    match intent_ with
    | create => main_create texto
    | _ => main_unknown texto
    end.

Definition is_salir (texto : str) : bool :=
  let t := lower texto in
  existsb (fun w => if list_eq_dec N.eq_dec t w then true else false)
    (map py ["salir"; "exit"; "quit"]%string).

Fixpoint main_loop (n : nat) : IO unit :=
  match n with
  | O => ret tt
  | S n' =>
      texto <- solicitar (0x0A%N :: py "Dime: → ") ;;
      if negb (nonempty texto) || is_salir texto
      then say "Hasta luego 👋"
      else main_body texto ;;; main_loop n'
  end.

(** Every turn reads a line and the end of the input ends the session:
    the lines to come, plus one, bound the turns. *)
Definition main : IO unit :=
  print (Line (0x0A%N :: py "=== Asistente de Google Calendar ===")) ;;;
  say "Puedes decir cosas como:" ;;;
  say "  - 'agenda una cita mañana a las 3pm con el dentista en zona 10 por 45 minutos'" ;;;
  print (Line (py "  - 'qué debo hacer hoy?'  |  'qué tareas tengo para mañana?'  |  'ver mi agenda de esta semana'" ++ [0x0A%N])) ;;;
  say "Escribe 'salir' para terminar." ;;;
  (* service = get_calendar_service(): the service is a parameter *)
  fun w => main_loop (S (List.length (stdin w))) w.

End Proyecto.

(* ================================================================== *)
(** * Vocabulary of the statements *)

(** ** What a pattern matches, independently of the search order *)

(** The character before the position reached after reading [taken]. *)
Definition last_read (b : option N) (taken : str) : option N :=
  fold_left (fun _ x => Some x) taken b.

Definition within (hi : option nat) (n : nat) : Prop :=
  match hi with Some h => (n <= h)%nat | None => True end.

Definition all (p : N -> bool) (s : str) : Prop :=
  Forall (fun c => p c = true) s.

(** [matches ic r c c']: from the position [c] the pattern [r] can read
    up to the position [c'], capturing the groups of [c']. *)
Inductive matches (ic : bool) : regex -> cursor -> cursor -> Prop :=
| M_Eps : forall c, matches ic Eps c c
| M_Lit : forall x y b s g,
    same_char ic x y = true ->
    matches ic (Lit x) (Cursor b (y :: s) g) (Cursor (Some y) s g)
| M_Class : forall (p : N -> bool) y b s g,
    p y = true ->
    matches ic (Class p) (Cursor b (y :: s) g) (Cursor (Some y) s g)
| M_Cat : forall r1 r2 c c1 c2,
    matches ic r1 c c1 -> matches ic r2 c1 c2 ->
    matches ic (Cat r1 r2) c c2
| M_AltL : forall r1 r2 c c1,
    matches ic r1 c c1 -> matches ic (Alt r1 r2) c c1
| M_AltR : forall r1 r2 c c2,
    matches ic r2 c c2 -> matches ic (Alt r1 r2) c c2
| M_Repeat : forall p lo hi b taken rest g,
    all p taken -> (lo <= List.length taken)%nat ->
    within hi (List.length taken) ->
    matches ic (Repeat p lo hi) (Cursor b (taken ++ rest) g)
      (Cursor (last_read b taken) rest g)
| M_Group : forall n r c c1,
    matches ic r c c1 ->
    matches ic (Group n r) c
      (Cursor (before c1) (ahead c1)
         ((n, firstn (List.length (ahead c) - List.length (ahead c1))
                (ahead c)) :: groups c1))
| M_WordBoundary : forall c,
    xorb (is_word_opt (before c)) (is_word_opt (hd_error (ahead c))) = true ->
    matches ic WordBoundary c c
| M_End : forall b g,
    matches ic EndAnchor (Cursor b [] g) (Cursor b [] g)
| M_EndNewline : forall b g,
    matches ic EndAnchor (Cursor b [0x0A%N] g) (Cursor b [0x0A%N] g).

(** ** Characters *)

(** The whitespace characters, one by one. *)
Definition SPACE_CHARS : list N :=
  [0x09; 0x0A; 0x0B; 0x0C; 0x0D; 0x1C; 0x1D; 0x1E; 0x1F; 0x20; 0x85; 0xA0;
   0x1680; 0x2000; 0x2001; 0x2002; 0x2003; 0x2004; 0x2005; 0x2006; 0x2007;
   0x2008; 0x2009; 0x200A; 0x2028; 0x2029; 0x202F; 0x205F; 0x3000]%N.

(** ** Occurrences in a text, in plain words *)

(** [pre] is followed in [text] by the digits [ds] (at most [maxd] of
    them), optional whitespace and the letters of [unit] in any case, as
    [re.IGNORECASE] takes them. *)
Definition unit_at (maxd : nat) (unit text pre ds : str) : Prop :=
  exists ws u post,
    text = pre ++ ds ++ ws ++ u ++ post /\
    ds <> [] /\ (List.length ds <= maxd)%nat /\ all is_digit ds /\
    all is_space ws /\ fold_case u = unit.

(** The leftmost such occurrence. *)
Definition first_unit (maxd : nat) (unit text ds : str) : Prop :=
  exists pre,
    unit_at maxd unit text pre ds /\
    forall pre' ds', unit_at maxd unit text pre' ds' ->
                     (List.length pre <= List.length pre')%nat.

Definition no_unit (maxd : nat) (unit text : str) : Prop :=
  forall pre ds, ~ unit_at maxd unit text pre ds.

Definition CONNECTORS : list str := map py ["con"; "para"; "sobre"]%string.

(** After [pre] the text has a connector word [conn] (any letter case)
    that starts at a word boundary and is followed by [rem] up to the end
    of the string: whitespace, then at least one character, with no line
    break other than a final one. *)
Definition connector_at (text pre conn rem : str) : Prop :=
  text = pre ++ conn ++ rem /\
  In (fold_case conn) CONNECTORS /\
  is_word_opt (last_read None pre) = false /\
  exists ws g tail,
    rem = ws ++ g ++ tail /\
    ws <> [] /\ all is_space ws /\ g <> [] /\ all dot g /\
    (tail = [] \/ tail = [0x0A%N]).

Definition first_connector (text conn rem : str) : Prop :=
  exists pre,
    connector_at text pre conn rem /\
    forall pre' conn' rem', connector_at text pre' conn' rem' ->
                            (List.length pre <= List.length pre')%nat.

Definition no_connector (text : str) : Prop :=
  forall pre conn rem, ~ connector_at text pre conn rem.

(** The condition under which [detect_intent] takes the list path, on
    the lowered and trimmed text. *)
Definition list_trigger (t : str) : bool :=
  existsb (fun w => contains w t) INTENT_LIST_WORDS
  || (startswith (py "agenda") t
      && (contains (py "hoy") t || contains (py "mañana") t)).

(** ** Ranges, in the words of the specification *)

(** Local wall-clock 00:00:00 of the day of [d] in the configured zone. *)
Definition midnight (d : datetime) : datetime :=
  Datetime (ordinal (astimezone d)) 0 TZ.

(** The same wall-clock time [n] calendar days later. *)
Definition plus_days (d : datetime) (n : Z) : datetime :=
  Datetime (ordinal d + n) (micros d) (utcoffset d).

(** The instants at which the zone of the program follows the rule
    [TZ], and from which a week more is still a date: from the end of its
    last daylight-saving period, 1 October 2006 at 05:00 UTC, up to
    24 December 9999, local time. *)
Definition MODERN_FROM : Z :=
  instant (Datetime (ymd2ord 2006 10 1) (time_of_day 5 0 0 0) 0).

Definition MODERN_TO : Z := instant (local 9999 12 24 0 0).

Definition modern (t : Z) : Prop := (MODERN_FROM <= t < MODERN_TO)%Z.

(** ** Sample surroundings, for the examples *)

Definition UTTERANCE_CITA : str :=
  py "agenda una cita mañana a las 3pm con el dentista en zona 10 por 45 minutos".

(** A resolver that finds 2024-06-11 15:00 (local) in every text. *)
Definition resolver_cita : str -> option datetime :=
  fun _ => Some (local 2024 6 11 15 0).

(** A resolver that finds nothing. *)
Definition resolver_none : str -> option datetime := fun _ => None.

(** A resolver that finds a date in the word "mañana" and nowhere else,
    at reference 2024-06-10. *)
Definition resolver_manana : str -> option datetime :=
  fun t => if list_eq_dec N.eq_dec t (py "mañana")
           then Some (local 2024 6 11 0 0) else None.

(** A clock stopped at 2024-06-10 23:30 local (2024-06-11 05:30 UTC). *)
Definition clock_2330 : nat -> Z :=
  fun _ => instant (local 2024 6 10 23 30).

(** A draft that lacks nothing but the duration. *)
Definition DRAFT_ANA : PendingEvent :=
  mkPendingEvent (Some (py "Ana")) (Some (local 2024 6 11 15 0)) None
    (Some (py "casa")) None None.

(** A calendar that accepts every insert and has no entries. *)
Definition insert_ok : event_body -> option str := fun _ => Some (py "link").
Definition list_empty : datetime -> datetime -> option (list item) :=
  fun _ _ => Some [].

(** A request body that comes from a draft with a start and a non-empty
    title. *)
Definition complete_body (b : event_body) : Prop :=
  exists ev s,
    create_event_body ev = inl b /\ start ev = Some s /\
    truthy_str (title ev) = true.

(** The shape shared by [RE_MIN] and [RE_HORA]: [(\d{1,maxd})\s*unit]. *)
Definition RE_UNIT (maxd : nat) (unit : str) : regex :=
  Cat (Group 1 (between is_digit 1 maxd))
    (Cat (star is_space) (word unit)).

(** ** The console session *)

(** What [solicitar] returns in the world [w]: the next line, trimmed;
    the empty string at the end of the input. *)
Definition reply (w : world) : str :=
  match stdin w with
  | l :: _ => strip l
  | [] => []
  end.

(** Events of the console, as opposed to calls to the calendar or to
    the mail service. *)
Definition console (e : io_event) : Prop :=
  match e with
  | Printed _ | Asked _ => True
  | _ => False
  end.

(** [calm m P]: [m] never raises, touches nothing but the console, reads
    the clock not at all, and returns a value that satisfies [P]. *)
Definition calm (A : Type) (m : IO A) (P : A -> Prop) : Prop :=
  forall w, exists a w' tr,
    m w = (inl a, w') /\ P a /\
    trace w' = trace w ++ tr /\ Forall console tr /\
    ticks w' = ticks w /\
    (List.length (stdin w') <= List.length (stdin w))%nat.

(** [safe m]: whether it returns or raises, [m] only adds to the trace,
    and every insert it makes comes from a complete draft. *)
Definition safe (A : Type) (m : IO A) : Prop :=
  forall w, exists tr,
    trace (snd (m w)) = trace w ++ tr /\
    Forall complete_body (inserts tr) /\
    (List.length (stdin (snd (m w))) <= List.length (stdin w))%nat.

(** [keeps ev ev']: the slots that are set in [ev] are the same in
    [ev'], as are [end] and [description]. *)
Definition keeps (ev ev' : PendingEvent) : Prop :=
  (truthy_dt (start ev) = true -> start ev' = start ev) /\
  (truthy_str (title ev) = true -> title ev' = title ev) /\
  (truthy_str (location ev) = true -> location ev' = location ev) /\
  (truthy_int (duration_min ev) = true ->
     duration_min ev' = duration_min ev) /\
  end_ ev' = end_ ev /\ description ev' = description ev.

(** What the fallback pass keeps and what it guarantees. *)
Definition completed (ev ev' : PendingEvent) : Prop :=
  truthy_int (duration_min ev') = true /\ keeps ev ev'.

(** The user's answer to the question of [confirmar_evento]. *)
Definition confirms (r : str) : bool := startswith (py "s") (lower r).

(** The question of [confirmar_evento]. *)
Definition PREGUNTA_CONFIRMA : str :=
  py "¿Confirmo y creo el evento en Google Calendar? (s/n) → ".

(** The summary that [confirmar_evento] prints, and what the console
    shows when it runs. *)
Definition RESUMEN (ev : PendingEvent) : output :=
  Resumen (title ev) (option_map astimezone (start ev))
    (duration_or_default ev) (location ev).

Definition confirmacion (ev : PendingEvent) : list io_event :=
  [Printed (RESUMEN ev); Asked PREGUNTA_CONFIRMA].

(** What the fallback pass shows: questions, and the message of
    [pedir_fecha_hora] for a reply without a date. *)
Definition prompting (e : io_event) : Prop :=
  match e with
  | Asked _ => True
  | Printed (Line l) => l = py "No entendí la fecha/hora. Prueba otro formato."
  | _ => False
  end.

(** [prompts m]: [m] never raises and does nothing but prompt. *)
Definition prompts (A : Type) (m : IO A) : Prop :=
  forall w, exists a w' tr,
    m w = (inl a, w') /\ trace w' = trace w ++ tr /\ Forall prompting tr.

(** What the [try] block of [main] does after an insert: it prints the
    link or the error, and sends the mail. *)
Definition reporting (e : io_event) : Prop :=
  match e with
  | Printed (Creado _) | Printed (ErrorCreando _) | Notified _ _ _ => True
  | _ => False
  end.

(** The end that [create_event] computes for a draft without one is a
    date: the start, in the zone, plus the minutes of the duration does
    not go beyond year 9999. *)
Definition end_fits (ev : PendingEvent) : bool :=
  match start ev, end_ ev with
  | Some s, None =>
      in_years (shift (astimezone s) 0 (duration_or_default ev))
  | _, _ => true
  end.

(** A resolver whose answers are instants of the period in which the
    zone follows the rule [TZ]. *)
Definition modern_resolver (dp : str -> option datetime) : Prop :=
  forall t d, dp t = Some d -> modern (instant d).

(** The questions of [completar_datos] that come before the one for the
    duration. *)
Definition completar_antes (dp : str -> option datetime) (ev : PendingEvent)
  : IO PendingEvent :=
  ev <- (if negb (truthy_dt (start ev))
         then (v <- pedir_fecha_hora dp ;; ret (set_start ev v))
         else ret ev) ;;
  ev <- (if negb (truthy_str (title ev))
         then (v <- pedir_titulo ;; ret (set_title ev v))
         else ret ev) ;;
  ev <- (if negb (truthy_str (location ev))
         then (v <- pedir_lugar ;; ret (set_location ev v))
         else ret ev) ;;
  ret ev.

(** The duration that the reply [r] to the question of [pedir_duracion]
    gives: the integer read, if there is one and it is positive, and the
    default otherwise. *)
Definition respuesta_duracion (r : str) : Z :=
  match int r with
  | Some v => if (0 <? v)%Z then v else DEFAULT_DURATION_MIN
  | None => DEFAULT_DURATION_MIN
  end.

(** The alternation [con|para|sobre] of [RE_TITULO]. *)
Definition RE_CONNECTOR : regex :=
  Alt (word (py "con")) (Alt (word (py "para")) (word (py "sobre"))).

(** [u] is the word [w] of a pattern, letter by letter. *)
Definition same_word (ic : bool) (w u : str) : Prop :=
  Forall2 (fun x y => same_char ic x y = true) w u.

(** Neither the first nor the last character of [w] is whitespace. *)
Definition trimmed (w : str) : bool :=
  match w with
  | [] => false
  | c :: _ => negb (is_space c) && negb (is_space (last w c))
  end.

(* ================================================================== *)
(** * Vocabulary of the further properties *)

(** The longest prefix of [s] whose characters are in the class [p]. *)
Fixpoint take_while (p : N -> bool) (s : str) : str :=
  match s with
  | c :: s' => if p c then c :: take_while p s' else []
  | [] => []
  end.

(** [u] is a contiguous part of [s]. *)
Definition infix (u s : str) : Prop := exists a b, s = a ++ u ++ b.

(** Empty, or with no whitespace at either end. *)
Definition no_space_at_ends (s : str) : Prop := s = [] \/ trimmed s = true.

(** After [pre] the text has the word "en" (any letter case) at a word
    boundary, followed by [rem]: whitespace, then at least one character
    other than [.], [,] and the line break. *)
Definition lugar_at (text pre rem : str) : Prop :=
  exists en ws g rest,
    text = pre ++ en ++ rem /\ fold_case en = py "en" /\
    is_word_opt (last_read None pre) = false /\
    rem = ws ++ g ++ rest /\
    ws <> [] /\ all is_space ws /\ g <> [] /\ all clause_char g.

Definition first_lugar (text pre rem : str) : Prop :=
  lugar_at text pre rem /\
  forall pre' rem', lugar_at text pre' rem' ->
                    (List.length pre <= List.length pre')%nat.

Definition no_lugar (text : str) : Prop :=
  forall pre rem, ~ lugar_at text pre rem.

(** A reply that [pedir_fecha_hora] rejects and asks again for: not
    empty once trimmed, and with no date that the resolver finds. *)
Definition rejected (dp : str -> option datetime) (l : str) : Prop :=
  nonempty (strip l) = true /\ dp (strip l) = None.

(** No slot of the draft holds an empty string or a zero: each is unset
    or has a value that counts as true; the duration is set. *)
Definition normalised (ev : PendingEvent) : Prop :=
  (title ev = None \/ truthy_str (title ev) = true) /\
  (location ev = None \/ truthy_str (location ev) = true) /\
  exists d, duration_min ev = Some d /\ d <> 0%Z.

(** The event of a request body ends after it starts. *)
Definition well_timed (b : event_body) : Prop :=
  (instant (body_start b) < instant (body_end b))%Z.

(** What a session may do to the outside: insert well-timed events and
    notify the configured recipient. *)
Definition event_ok (notify : option str) (e : io_event) : Prop :=
  match e with
  | Inserted b => well_timed b /\ truthy_str (summary b) = true
  | Notified to _ _ => notify = Some to /\ nonempty to = true
  | _ => True
  end.

(** The one way in which a turn that added [tr] to the trace can
    raise: the calendar refused the query that the turn has just
    made. *)
Definition list_failure
    (calendar_list : datetime -> datetime -> option (list item))
    (e : exn) (tr : list io_event) : Prop :=
  e = ServiceError /\
  exists tr0 a b, tr = tr0 ++ [Listed a b] /\ calendar_list a b = None.

(** [emits T Q X m]: what [m] adds to the trace satisfies [T]; a value
    it returns satisfies [Q]; when it raises, the exception and what
    was added satisfy [X]; and it does not put lines back into the
    input. *)
Definition emits (A : Type) (T : list io_event -> Prop) (Q : A -> Prop)
    (X : exn -> list io_event -> Prop) (m : IO A) : Prop :=
  forall w, exists tr,
    trace (snd (m w)) = trace w ++ tr /\ T tr /\
    match fst (m w) with
    | inl a => Q a
    | inr e => X e tr
    end /\
    (List.length (stdin (snd (m w))) <= List.length (stdin w))%nat.

(** A draft without an end and with a positive duration. *)
Definition timed (ev : PendingEvent) : Prop :=
  end_ ev = None /\ exists d, duration_min ev = Some d /\ (0 < d)%Z.

(** The summary [o] shows the request [b]: its title, its start, its
    length in minutes and its place. *)
Definition shown (b : event_body) (o : output) : Prop :=
  match o with
  | Resumen t (Some s) dur lugar =>
      summary b = t /\ body_start b = s /\
      instant (body_end b) = (instant s + dur * MINUTE)%Z /\
      body_location b = match lugar with Some l => l | None => [] end
  | _ => False
  end.

(** Every insert of the trace comes right after the question of
    [confirmar_evento], asked under a summary that shows it. *)
Definition announced (tr : list io_event) : Prop :=
  forall pre b post,
    tr = pre ++ Inserted b :: post ->
    exists pre0 o,
      pre = pre0 ++ [Printed o; Asked PREGUNTA_CONFIRMA] /\ shown b o.

(** How a session ends: with the farewell as its last output, or on
    a query that the calendar refused. *)
Definition session_end
    (calendar_list : datetime -> datetime -> option (list item))
    (r : unit + exn) (tr : list io_event) : Prop :=
  match r with
  | inl _ => exists tr0, tr = tr0 ++ [Printed (Line (py "Hasta luego 👋"))]
  | inr e => list_failure calendar_list e tr
  end.

(** The mail that follows an insert: one call of
    [send_email_notification] for the configured recipient, none when
    the recipient is unset or empty. *)
Definition aviso (notify : option str) (link : str) (ev : PendingEvent)
    : list io_event :=
  match notify with
  | Some to => if nonempty to then [Notified to link ev] else []
  | None => []
  end.

(** The question of [pedir_fecha_hora]. *)
Definition PREGUNTA_FECHA : str :=
  py "¿Para cuándo es la cita? (ej.: 'mañana 3pm', '12/09 14:30') → ".

(** What the console shows while [pedir_fecha_hora] goes through the
    replies [bads] that it rejects and asks once more. *)
Definition preguntas_fecha (bads : list str) : list io_event :=
  flat_map (fun _ : str =>
              [Asked PREGUNTA_FECHA;
               Printed (Line (py "No entendí la fecha/hora. Prueba otro formato."))])
    bads
  ++ [Asked PREGUNTA_FECHA].

(** A resolver that finds a date in "listar 12/09" written in lower
    case only. *)
Definition resolver_minusculas : str -> option datetime :=
  fun t => if list_eq_dec N.eq_dec t (py "listar 12/09")
           then Some (local 2024 9 12 0 0) else None.

(* ================================================================== *)
(** * Facts about text *)

Unset Implicit Arguments.

Lemma startswith_spec (p s : str) :
  startswith p s = true <-> exists r, s = p ++ r.
Proof.
  revert s; induction p as [|a p IH]; intros s; simpl.
  - split; [exists s; reflexivity | reflexivity].
  - destruct s as [|b s]; simpl.
    + split; [discriminate | intros [r H]; discriminate].
    + rewrite andb_true_iff, N.eqb_eq, IH. split.
      * intros [-> [r ->]]. exists r; reflexivity.
      * intros [r H]. injection H as -> ->. split; [reflexivity | eauto].
Qed.

Lemma contains_spec (w s : str) :
  contains w s = true <-> exists a b, s = a ++ w ++ b.
Proof.
  induction s as [|c s IH]; simpl.
  - rewrite orb_false_r, startswith_spec. split.
    + intros [r H]. exists [], r. exact H.
    + intros [a [b H]]. destruct a; simpl in H.
      * exists b; exact H.
      * discriminate.
  - rewrite orb_true_iff, startswith_spec, IH. split.
    + intros [[r H] | [a [b H]]].
      * exists [], r. exact H.
      * exists (c :: a), b. rewrite H. reflexivity.
    + intros [a [b H]]. destruct a as [|x a]; simpl in H.
      * left. exists b. exact H.
      * right. injection H as _ H. exists a, b. exact H.
Qed.

Lemma stable_lower (c : N) : stable c = true -> lower_full c = [c].
Proof.
  unfold stable. destruct (lower_full c) as [|d [|e l]]; try discriminate.
  intros H. apply N.eqb_eq in H. subst d. reflexivity.
Qed.

Lemma stable_not_sigma (c : N) : stable c = true -> (c =? 0x3A3)%N = false.
Proof.
  intros H. destruct (c =? 0x3A3)%N eqn:E; [|reflexivity].
  apply N.eqb_eq in E. subst c. vm_compute in H. discriminate.
Qed.

(** A run of stable characters goes through [str.lower] unchanged,
    whatever is around it. *)
Lemma lower_from_stable (w : str) :
  forallb stable w = true ->
  forall before r,
    lower_from before (w ++ r) = w ++ lower_from (rev w ++ before) r.
Proof.
  induction w as [|c w IH]; intros H before r; [reflexivity|].
  cbn [forallb] in H. apply andb_true_iff in H. destruct H as [Hc Hw].
  cbn [app lower_from rev].
  rewrite (stable_not_sigma c Hc), (stable_lower c Hc), (IH Hw).
  rewrite <- app_assoc. reflexivity.
Qed.

Lemma lower_from_app (a : str) :
  forall before s,
    exists x,
      lower_from before (a ++ s) = x ++ lower_from (rev a ++ before) s.
Proof.
  induction a as [|c a IH]; intros before s; [exists []; reflexivity|].
  cbn [app lower_from rev]. destruct (IH (c :: before) s) as [x E].
  rewrite E, <- (app_assoc (rev a)). eexists. rewrite app_assoc. reflexivity.
Qed.

Lemma contains_lower (w s : str) :
  forallb stable w = true ->
  contains w s = true -> contains w (lower s) = true.
Proof.
  intros Hw. rewrite !contains_spec. intros [a [b ->]].
  unfold lower. destruct (lower_from_app a [] (w ++ b)) as [x E].
  rewrite E, (lower_from_stable w Hw). eauto.
Qed.

Lemma lstrip_app_char (a : str) (c : N) (r : str) :
  is_space c = false -> lstrip (a ++ c :: r) = lstrip a ++ c :: r.
Proof.
  intros Hc. induction a as [|x a IH]; simpl.
  - rewrite Hc. reflexivity.
  - destruct (is_space x); [exact IH | reflexivity].
Qed.

Lemma rstrip_app_char (a : str) (c : N) (r : str) :
  is_space c = false -> rstrip (a ++ c :: r) = a ++ c :: rstrip r.
Proof.
  intros Hc. unfold rstrip.
  rewrite rev_app_distr. simpl. rewrite <- app_assoc. simpl.
  rewrite lstrip_app_char by exact Hc.
  rewrite rev_app_distr. simpl. rewrite rev_involutive, <- app_assoc.
  reflexivity.
Qed.

Lemma lstrip_spaces (a s : str) : all is_space a -> lstrip (a ++ s) = lstrip s.
Proof.
  induction 1 as [|x a Hx _ IH]; simpl; [reflexivity|].
  rewrite Hx. exact IH.
Qed.

Lemma lstrip_all_spaces (a : str) : all is_space a -> lstrip a = [].
Proof.
  intros H. rewrite <- (app_nil_r a), lstrip_spaces by exact H. reflexivity.
Qed.

Lemma all_rev (p : N -> bool) (a : str) : all p a -> all p (rev a).
Proof. unfold all. apply Forall_rev. Qed.

Lemma rstrip_spaces (s b : str) : all is_space b -> rstrip (s ++ b) = rstrip s.
Proof.
  intros H. unfold rstrip. rewrite rev_app_distr.
  rewrite lstrip_spaces by (apply all_rev; exact H). reflexivity.
Qed.

Lemma rstrip_nil : rstrip [] = [].
Proof. reflexivity. Qed.

Lemma lstrip_suffix (s : str) :
  exists a, s = a ++ lstrip s /\ all is_space a.
Proof.
  induction s as [|c s [a [H1 H2]]]; simpl.
  - exists []. split; [reflexivity | constructor].
  - destruct (is_space c) eqn:Hc.
    + exists (c :: a). split; [simpl; f_equal; exact H1|].
      constructor; assumption.
    + exists []. split; [reflexivity | constructor].
Qed.

(** [strip] only removes whitespace around the text. *)
Lemma strip_spaces_around (a s b : str) :
  all is_space a -> all is_space b -> strip (a ++ s ++ b) = strip s.
Proof.
  intros Ha Hb. unfold strip. rewrite lstrip_spaces by exact Ha.
  destruct (lstrip_suffix s) as [l [Hs Hl]].
  destruct (lstrip s) as [|c r] eqn:E.
  - rewrite app_nil_r in Hs. subst l.
    rewrite lstrip_all_spaces; [reflexivity|].
    unfold all. apply Forall_app. split; assumption.
  - assert (Hc : is_space c = false).
    { destruct s as [|x s']; [discriminate|]. clear -E.
      induction (x :: s') as [|y t IH]; [discriminate|].
      simpl in E. destruct (is_space y) eqn:Hy.
      - apply IH; exact E.
      - injection E as -> _. exact Hy. }
    rewrite Hs at 1. rewrite <- app_assoc. simpl.
    rewrite lstrip_app_char by exact Hc.
    rewrite (lstrip_all_spaces l Hl). simpl.
    apply (rstrip_spaces (c :: r)). exact Hb.
Qed.

Lemma trimmed_edges (w : str) :
  trimmed w = true ->
  exists c1 w1 w2 c2,
    w = c1 :: w1 /\ w = w2 ++ [c2] /\
    is_space c1 = false /\ is_space c2 = false.
Proof.
  destruct w as [|c w]; [discriminate|]. unfold trimmed.
  rewrite andb_true_iff, !negb_true_iff. intros [H1 H2].
  destruct (@exists_last _ (c :: w)) as [w2 [c2 E]]; [discriminate|].
  exists c, w, w2, c2. repeat split; try assumption.
  rewrite E in H2. rewrite last_last in H2. exact H2.
Qed.

(** A phrase without whitespace at its ends survives [strip]. *)
Lemma contains_strip (w s : str) :
  trimmed w = true -> contains w s = true -> contains w (strip s) = true.
Proof.
  intros Hw. rewrite !contains_spec. intros [a [b ->]].
  destruct (trimmed_edges w Hw) as [c1 [w1 [w2 [c2 [E1 [E2 [H1 H2]]]]]]].
  exists (lstrip a), (rstrip b). unfold strip.
  rewrite E1 at 1. simpl. rewrite lstrip_app_char by exact H1.
  change (c1 :: w1 ++ b) with ((c1 :: w1) ++ b). rewrite <- E1.
  rewrite E2 at 1. rewrite <- app_assoc. simpl.
  rewrite app_assoc. rewrite rstrip_app_char by exact H2.
  rewrite <- app_assoc. f_equal.
  change (w2 ++ c2 :: rstrip b) with (w2 ++ [c2] ++ rstrip b).
  rewrite app_assoc, <- E2. reflexivity.
Qed.

Lemma list_words_shape (w : str) :
  In w INTENT_LIST_WORDS -> trimmed w = true /\ forallb stable w = true.
Proof.
  intros H. simpl in H.
  repeat (destruct H as [<- | H]; [split; vm_compute; reflexivity|]).
  contradiction.
Qed.

(* ================================================================== *)
(** * Intent detection *)

Section Intent.

Variable dp : str -> option datetime.

Lemma list_trigger_of_word (w text : str) :
  In w INTENT_LIST_WORDS ->
  contains w text = true \/ contains w (lower text) = true ->
  list_trigger (strip (lower text)) = true.
Proof.
  intros Hin Hc. destruct (list_words_shape w Hin) as [Htrim Hlow].
  assert (H : contains w (lower text) = true).
  { destruct Hc as [Hc | Hc]; [|exact Hc].
    apply contains_lower; assumption. }
  unfold list_trigger. apply orb_true_iff. left.
  apply existsb_exists. exists w. split; [exact Hin|].
  apply contains_strip; assumption.
Qed.

(** On the list path the answer is one of the four list intents. *)
Lemma detect_intent_list_path (text : str) :
  list_trigger (strip (lower text)) = true ->
  detect_intent dp text =
    let t := strip (lower text) in
    if contains (py "hoy") t then list_today
    else if contains (py "mañana") t then list_tomorrow
    else if contains (py "semana") t || contains (py "esta semana") t
    then list_week
    else if truthy_dt (dp t) then list_date
    else list_today.
Proof.
  intros H. unfold detect_intent, parse_datetime_es.
  unfold list_trigger in H. rewrite H. reflexivity.
Qed.

Lemma detect_intent_list_path_is_list (text : str) :
  list_trigger (strip (lower text)) = true ->
  is_list_intent (detect_intent dp text) = true.
Proof.
  intros H. rewrite (detect_intent_list_path text H). cbv zeta.
  repeat match goal with
         | |- context [if ?b then _ else _] => destruct b
         end; reflexivity.
Qed.

End Intent.

(** C2. A text that contains a phrase of the list vocabulary (as typed or
    in another letter case) is classified as one of the four list
    intents, never as [create], whatever else it contains: the list
    check comes first. *)
Theorem list_vocabulary_wins (dp : str -> option datetime) (w text : str) :
  In w INTENT_LIST_WORDS ->
  contains w text = true \/ contains w (lower text) = true ->
  is_list_intent (detect_intent dp text) = true /\
  detect_intent dp text <> create.
Proof.
  intros Hin Hc.
  assert (H := detect_intent_list_path_is_list dp text
                 (list_trigger_of_word w text Hin Hc)).
  split; [exact H|].
  intros E. rewrite E in H. discriminate.
Qed.

(** The example of the specification: a list phrase together with a
    clock time and the create word "hacer". *)
Lemma list_vocabulary_wins_witness :
  In (py "qué debo hacer") INTENT_LIST_WORDS /\
  contains (py "hacer") (py "qué debo hacer hoy a las 3pm") = true /\
  detect_intent resolver_cita (py "qué debo hacer hoy a las 3pm") = list_today /\
  is_list_intent
    (detect_intent resolver_cita (py "qué debo hacer hoy a las 3pm")) = true.
Proof.
  assert (Hin : In (py "qué debo hacer") INTENT_LIST_WORDS).
  { vm_compute. tauto. }
  split; [exact Hin|]. split; [vm_compute; reflexivity|].
  split; [vm_compute; reflexivity|].
  apply (list_vocabulary_wins resolver_cita (py "qué debo hacer")
           (py "qué debo hacer hoy a las 3pm") Hin).
  left. vm_compute. reflexivity.
Defined.

(* ================================================================== *)
(** * Failure of the temporal resolver *)

Lemma start_of_parse (dp : str -> option datetime) (text : str) :
  start (parse_event_from_text dp text) = dp text.
Proof.
  unfold parse_event_from_text, parse_datetime_es.
  destruct (dp text); cbv zeta;
    repeat match goal with
           | |- context [match ?x with Some _ => _ | None => _ end] =>
               destruct x
           | |- context [if ?b then _ else _] => destruct b
           end; reflexivity.
Qed.

(** The other slots do not depend on the resolver. *)
Lemma slots_of_parse (dp dp' : str -> option datetime) (text : str) :
  title (parse_event_from_text dp text)
    = title (parse_event_from_text dp' text) /\
  location (parse_event_from_text dp text)
    = location (parse_event_from_text dp' text) /\
  duration_min (parse_event_from_text dp text)
    = duration_min (parse_event_from_text dp' text) /\
  end_ (parse_event_from_text dp text) = None /\
  description (parse_event_from_text dp text) = None.
Proof.
  unfold parse_event_from_text, parse_datetime_es.
  destruct (dp text), (dp' text); cbv zeta;
    destruct (search true RE_LUGAR text), (search true RE_MIN text),
      (search true RE_HORA text), (search true RE_TITULO text);
    cbn [title location duration_min end_ description set_title
         set_start set_location set_duration_min PendingEvent_new];
    repeat match goal with
           | |- context [if ?b then _ else _] => destruct b
           end; cbn; auto.
Qed.

(** C8. A failure of the temporal resolver is not fatal.  The slot
    extractor still returns its draft, with [start] unset and the other
    slots as they are with any resolver; and the list path of the
    classifier, when the resolver fails on the text, answers as if no
    date had been asked for: [list_today] unless a keyword decides. *)
Theorem unparseable_is_not_fatal (dp : str -> option datetime) (text : str) :
  (dp text = None ->
     start (parse_event_from_text dp text) = None /\
     forall dp',
       title (parse_event_from_text dp text)
         = title (parse_event_from_text dp' text) /\
       location (parse_event_from_text dp text)
         = location (parse_event_from_text dp' text) /\
       duration_min (parse_event_from_text dp text)
         = duration_min (parse_event_from_text dp' text)) /\
  (let t := strip (lower text) in
   list_trigger t = true -> dp t = None ->
   is_list_intent (detect_intent dp text) = true /\
   detect_intent dp text <> list_date /\
   (contains (py "hoy") t = false -> contains (py "mañana") t = false ->
    contains (py "semana") t = false ->
    detect_intent dp text = list_today)).
Proof.
  split.
  - intros H. split.
    + rewrite start_of_parse. exact H.
    + intros dp'. destruct (slots_of_parse dp dp' text) as [H1 [H2 [H3 _]]].
      auto.
  - intros t Htrig Hnone.
    split; [apply detect_intent_list_path_is_list; exact Htrig|].
    rewrite (detect_intent_list_path dp text Htrig). fold t. cbv zeta.
    rewrite Hnone. simpl truthy_dt. cbv iota.
    split.
    + repeat match goal with
             | |- context [if ?b then _ else _] => destruct b
             end; discriminate.
    + intros H1 H2 H3. rewrite H1, H2, H3.
      assert (H4 : contains (py "esta semana") t = false).
      { destruct (contains (py "esta semana") t) eqn:E; [|reflexivity].
        apply contains_spec in E. destruct E as [a [b E]].
        assert (C : contains (py "semana") t = true).
        { apply contains_spec. exists (a ++ py "esta "), b.
          rewrite E. rewrite <- !app_assoc. reflexivity. }
        rewrite C in H3. discriminate. }
      rewrite H4. reflexivity.
Qed.

Lemma unparseable_is_not_fatal_witness :
  start (parse_event_from_text resolver_none (py "crear cita con Ana")) = None /\
  title (parse_event_from_text resolver_none (py "crear cita con Ana"))
    = Some (py "Ana") /\
  detect_intent resolver_none (py "ver agenda del 31/02") = list_today.
Proof.
  destruct (unparseable_is_not_fatal resolver_none (py "crear cita con Ana"))
    as [H1 _].
  destruct (H1 eq_refl) as [Hs _].
  destruct (unparseable_is_not_fatal resolver_none (py "ver agenda del 31/02"))
    as [_ H2].
  destruct (H2 eq_refl eq_refl) as [_ [_ H3]].
  split; [exact Hs|]. split; [vm_compute; reflexivity|].
  apply H3; vm_compute; reflexivity.
Defined.

(* ================================================================== *)
(** * The sentence of the usage banner *)

(** C1 (as amended).  For the sentence of the usage banner the extractor
    yields the location "zona 10 por 45 minutos" (the location runs to the
    next [.], [,] or line break), the duration 45, the title "el dentista
    en zona 10 por 45 minutos" (the title runs to the end of the string),
    and as start whatever the resolver finds in the whole sentence. *)
Theorem banner_sentence_slots (dp : str -> option datetime) :
  let ev := parse_event_from_text dp UTTERANCE_CITA in
  location ev = Some (py "zona 10 por 45 minutos") /\
  duration_min ev = Some 45%Z /\
  title ev = Some (py "el dentista en zona 10 por 45 minutos") /\
  start ev = dp UTTERANCE_CITA.
Proof.
  cbv zeta. split; [|split; [|split]].
  - destruct (slots_of_parse dp resolver_none UTTERANCE_CITA)
      as [_ [H _]]. rewrite H. vm_compute. reflexivity.
  - destruct (slots_of_parse dp resolver_none UTTERANCE_CITA)
      as [_ [_ [H _]]]. rewrite H. vm_compute. reflexivity.
  - destruct (slots_of_parse dp resolver_none UTTERANCE_CITA)
      as [H _]. rewrite H. vm_compute. reflexivity.
  - apply start_of_parse.
Qed.

(** As the specification words it, the property fails on the code: with a resolver that
    finds 2024-06-11 15:00 the sentence is not classified as [create],
    its location is not "zona 10" and its title is not "el dentista". *)
Lemma banner_sentence_counterexample :
  detect_intent resolver_cita UTTERANCE_CITA <> create /\
  location (parse_event_from_text resolver_cita UTTERANCE_CITA)
    <> Some (py "zona 10") /\
  title (parse_event_from_text resolver_cita UTTERANCE_CITA)
    <> Some (py "el dentista") /\
  duration_min (parse_event_from_text resolver_cita UTTERANCE_CITA)
    = Some 45%Z /\
  start (parse_event_from_text resolver_cita UTTERANCE_CITA)
    = Some (local 2024 6 11 15 0).
Proof.
  repeat split; try (vm_compute; discriminate); vm_compute; reflexivity.
Qed.

(** What the classifier answers for that sentence: it starts with
    "agenda" and contains "mañana". *)
Example banner_sentence_intent (dp : str -> option datetime) :
  detect_intent dp UTTERANCE_CITA = list_tomorrow.
Proof. vm_compute. reflexivity. Qed.

(* ================================================================== *)
(** * The matcher finds exactly what the patterns describe *)

Section Matcher.

Variable A : Type.

Lemma within_more (hi : option nat) (n : nat) :
  within hi (S n) -> more_allowed hi = true /\ within (option_map pred hi) n.
Proof.
  destruct hi as [[|h]|]; simpl; intros H; try lia; split; auto; lia.
Qed.

Lemma more_within (hi : option nat) (n : nat) :
  more_allowed hi = true -> within (option_map pred hi) n -> within hi (S n).
Proof.
  destruct hi as [[|h]|]; simpl; intros H1 H2; try discriminate; auto; lia.
Qed.

(** Whatever [greedy] returns comes from a run of the class within the
    bounds, followed by a success of the continuation. *)
Lemma greedy_sound (p : N -> bool) (k : option N -> str -> option A) (a : A) :
  forall s lo hi b,
    greedy p lo hi b s k = Some a ->
    exists taken rest,
      s = taken ++ rest /\ all p taken /\
      (lo <= List.length taken)%nat /\ within hi (List.length taken) /\
      k (last_read b taken) rest = Some a.
Proof.
  assert (Hstop : forall s lo hi b,
             match lo with O => k b s | S _ => None end = Some a ->
             exists taken rest,
               s = taken ++ rest /\ all p taken /\
               (lo <= List.length taken)%nat /\
               within hi (List.length taken) /\
               k (last_read b taken) rest = Some a).
  { intros s lo hi b H. destruct lo; [|discriminate].
    exists [], s. repeat split; auto.
    - constructor.
    - destruct hi; simpl; auto; lia. }
  induction s as [|c s IH]; intros lo hi b H; simpl in H.
  - apply Hstop; exact H.
  - destruct (more_allowed hi && p c) eqn:E; [|apply Hstop; exact H].
    apply andb_true_iff in E. destruct E as [Em Ep].
    destruct (greedy p (pred lo) (option_map pred hi) (Some c) s k) eqn:G;
      [|apply Hstop; exact H].
    injection H as ->.
    destruct (IH _ _ _ G) as [taken [rest [Hs [Hall [Hlo [Hhi Hk]]]]]].
    exists (c :: taken), rest. repeat split.
    + simpl. f_equal. exact Hs.
    + constructor; assumption.
    + simpl. lia.
    + simpl. apply more_within; assumption.
    + exact Hk.
Qed.

(** [greedy] tries every admissible run: it fails only if the
    continuation fails after each of them. *)
Lemma greedy_exhaustive (p : N -> bool) (k : option N -> str -> option A)
    (a : A) :
  forall taken rest lo hi b,
    all p taken -> (lo <= List.length taken)%nat ->
    within hi (List.length taken) ->
    k (last_read b taken) rest = Some a ->
    exists a', greedy p lo hi b (taken ++ rest) k = Some a'.
Proof.
  induction taken as [|c taken IH]; intros rest lo hi b Hall Hlo Hhi Hk.
  - simpl in *. assert (lo = O) by lia. subst lo.
    destruct rest as [|c s]; simpl.
    + eauto.
    + destruct (more_allowed hi && p c); [|eauto].
      destruct (greedy p 0 (option_map pred hi) (Some c) s k); eauto.
  - simpl. inversion Hall as [|x l Hc Hall']; subst.
    destruct (within_more hi _ Hhi) as [Hm Hw].
    rewrite Hm, Hc. simpl.
    destruct (IH rest (pred lo) (option_map pred hi) (Some c) Hall')
      as [a' Ha']; auto.
    + simpl in Hlo. lia.
    + rewrite Ha'. eauto.
Qed.

Lemma run_sound (ic : bool) (r : regex) :
  forall c (k : cursor -> option A) a,
    run ic r c k = Some a ->
    exists c', matches ic r c c' /\ k c' = Some a.
Proof.
  induction r as [|x|p|r1 IH1 r2 IH2|r1 IH1 r2 IH2|p lo hi|n r IH| |];
    intros c k a H; simpl in H.
  - exists c. split; [constructor | exact H].
  - destruct c as [b [|y s] g]; simpl in H; [discriminate|].
    destruct (same_char ic x y) eqn:E; [|discriminate].
    eexists. split; [constructor; exact E | exact H].
  - destruct c as [b [|y s] g]; simpl in H; [discriminate|].
    destruct (p y) eqn:E; [|discriminate].
    eexists. split; [constructor; exact E | exact H].
  - destruct (IH1 _ _ _ H) as [c1 [M1 H1]].
    destruct (IH2 _ _ _ H1) as [c2 [M2 H2]].
    exists c2. split; [econstructor; eassumption | exact H2].
  - destruct (run ic r1 c k) eqn:E.
    + injection H as ->. destruct (IH1 _ _ _ E) as [c1 [M1 H1]].
      exists c1. split; [apply M_AltL; exact M1 | exact H1].
    + destruct (IH2 _ _ _ H) as [c2 [M2 H2]].
      exists c2. split; [apply M_AltR; exact M2 | exact H2].
  - destruct c as [b s g]; simpl in H.
    destruct (greedy_sound _ _ _ _ _ _ _ H)
      as [taken [rest [Hs [Hall [Hlo [Hhi Hk]]]]]].
    subst s. eexists. split; [constructor; eassumption | exact Hk].
  - destruct (IH _ _ _ H) as [c1 [M1 H1]].
    eexists. split; [constructor; exact M1 | exact H1].
  - destruct (xorb _ _) eqn:E; [|discriminate].
    exists c. split; [constructor; exact E | exact H].
  - destruct c as [b [|y [|z s]] g]; simpl in H; try discriminate.
    + eexists. split; [constructor | exact H].
    + destruct (N.eqb_spec y 10); [|discriminate]. subst y.
      eexists. split; [apply M_EndNewline | exact H].
Qed.

Lemma run_exhaustive (ic : bool) (r : regex) (c c' : cursor) :
  matches ic r c c' ->
  forall (k : cursor -> option A) a,
    k c' = Some a -> exists a', run ic r c k = Some a'.
Proof.
  induction 1 as [c|x y b s g E|p y b s g E|r1 r2 c c1 c2 M1 IH1 M2 IH2
                 |r1 r2 c c1 M IH|r1 r2 c c2 M IH
                 |p lo hi b taken rest g Hall Hlo Hhi
                 |n r c c1 M IH|c E|b g|b g];
    intros k a Hk; simpl.
  - eauto.
  - rewrite E. eauto.
  - rewrite E. eauto.
  - destruct (IH2 _ _ Hk) as [a2 H2].
    exact (IH1 _ _ H2).
  - destruct (IH _ _ Hk) as [a1 H1]. rewrite H1. eauto.
  - destruct (run ic r1 c k); [eauto|]. exact (IH _ _ Hk).
  - exact (greedy_exhaustive p (fun b0 s0 => k (Cursor b0 s0 g)) a
             taken rest lo hi b Hall Hlo Hhi Hk).
  - exact (IH _ _ Hk).
  - rewrite E. eauto.
  - eauto.
  - eauto.
Qed.

End Matcher.

(** [match_here] succeeds exactly where the pattern matches. *)
Lemma match_here_sound (ic : bool) (r : regex) (b : option N) (s : str)
    (g : list (nat * str)) :
  match_here ic r b s = Some g ->
  exists c', matches ic r (Cursor b s []) c' /\ groups c' = g.
Proof.
  intros H. destruct (run_sound _ ic r _ _ _ H) as [c' [M E]].
  exists c'. split; [exact M|]. injection E as E. exact E.
Qed.

Lemma match_here_exhaustive (ic : bool) (r : regex) (b : option N) (s : str)
    (c' : cursor) :
  matches ic r (Cursor b s []) c' ->
  exists g, match_here ic r b s = Some g.
Proof.
  intros M.
  exact (run_exhaustive _ ic r _ _ M (fun c => Some (groups c)) _ eq_refl).
Qed.

Lemma last_read_app (b : option N) (u v : str) :
  last_read b (u ++ v) = last_read (last_read b u) v.
Proof. apply fold_left_app. Qed.

(** [search_from] returns the match of the leftmost position. *)
Lemma search_from_some (ic : bool) (r : regex) (g : list (nat * str)) :
  forall s b,
    search_from ic r b s = Some g ->
    exists pre rest,
      s = pre ++ rest /\
      match_here ic r (last_read b pre) rest = Some g /\
      forall pre' rest',
        s = pre' ++ rest' -> (List.length pre' < List.length pre)%nat ->
        match_here ic r (last_read b pre') rest' = None.
Proof.
  induction s as [|c s IH]; intros b H; simpl in H.
  - destruct (match_here ic r b []) eqn:E; [|discriminate].
    injection H as ->. exists [], []. repeat split; auto.
    intros pre' rest' _ Hlt. simpl in Hlt. lia.
  - destruct (match_here ic r b (c :: s)) eqn:E.
    + injection H as ->. exists [], (c :: s). repeat split; auto.
      intros pre' rest' _ Hlt. simpl in Hlt. lia.
    + destruct (IH _ H) as [pre [rest [Hs [Hm Hleft]]]].
      exists (c :: pre), rest. repeat split.
      * simpl. f_equal. exact Hs.
      * exact Hm.
      * intros pre' rest' Hs' Hlt. destruct pre' as [|x pre'].
        -- simpl in Hs'. subst rest'. exact E.
        -- simpl in Hs'. injection Hs' as <- Hs'.
           apply (Hleft pre' rest' Hs'). simpl in Hlt. lia.
Qed.

Lemma search_from_none (ic : bool) (r : regex) :
  forall s b,
    search_from ic r b s = None ->
    forall pre rest,
      s = pre ++ rest -> match_here ic r (last_read b pre) rest = None.
Proof.
  induction s as [|c s IH]; intros b H pre rest Hs; simpl in H.
  - destruct (match_here ic r b []) eqn:E; [discriminate|].
    destruct pre; [|discriminate]. simpl in Hs. subst rest. exact E.
  - destruct (match_here ic r b (c :: s)) eqn:E; [discriminate|].
    destruct pre as [|x pre].
    + simpl in Hs. subst rest. exact E.
    + simpl in Hs. injection Hs as <- Hs. apply (IH _ H pre rest Hs).
Qed.

(** The two lemmas in the words of [matches]. *)
Lemma search_found (ic : bool) (r : regex) (text : str)
    (g : list (nat * str)) :
  search ic r text = Some g ->
  exists pre rest c',
    text = pre ++ rest /\
    matches ic r (Cursor (last_read None pre) rest []) c' /\
    groups c' = g /\
    forall pre' rest' c'',
      text = pre' ++ rest' -> (List.length pre' < List.length pre)%nat ->
      ~ matches ic r (Cursor (last_read None pre') rest' []) c''.
Proof.
  intros H. destruct (search_from_some ic r g _ _ H)
    as [pre [rest [Hs [Hm Hleft]]]].
  destruct (match_here_sound _ _ _ _ _ Hm) as [c' [M E]].
  exists pre, rest, c'. repeat split; auto.
  intros pre' rest' c'' Hs' Hlt M'.
  destruct (match_here_exhaustive _ _ _ _ _ M') as [g' Hg'].
  rewrite (Hleft pre' rest' Hs' Hlt) in Hg'. discriminate.
Qed.

Lemma search_not_found (ic : bool) (r : regex) (text : str) :
  search ic r text = None ->
  forall pre rest c',
    text = pre ++ rest ->
    ~ matches ic r (Cursor (last_read None pre) rest []) c'.
Proof.
  intros H pre rest c' Hs M.
  destruct (match_here_exhaustive _ _ _ _ _ M) as [g Hg].
  rewrite (search_from_none ic r _ _ H pre rest Hs) in Hg. discriminate.
Qed.

(* ================================================================== *)
(** * Characters *)

Ltac bool_facts :=
  repeat match goal with
         | H : _ && _ = true |- _ => apply andb_true_iff in H; destruct H
         | H : _ || _ = true |- _ => apply orb_true_iff in H; destruct H
         | H : (_ <=? _)%N = true |- _ => apply N.leb_le in H
         | H : (_ <? _)%N = true |- _ => apply N.ltb_lt in H
         | H : (_ <? _)%N = false |- _ => apply N.ltb_ge in H
         | H : (_ =? _)%N = true |- _ => apply N.eqb_eq in H
         end.

Ltac char_facts :=
  unfold is_space, dot, in_range in *; bool_facts.

Lemma in_range_out (lo hi x : N) :
  (x < lo \/ hi < x)%N -> in_range lo hi x = false.
Proof.
  intros H. unfold in_range. apply andb_false_iff.
  destruct H as [H | H]; [left | right]; apply N.leb_gt; exact H.
Qed.

Lemma in_range_in (lo hi x : N) :
  (lo <= x <= hi)%N -> in_range lo hi x = true.
Proof.
  intros [H1 H2]. unfold in_range. apply andb_true_iff.
  split; apply N.leb_le; assumption.
Qed.

Lemma is_space_cases (c : N) : is_space c = true -> In c SPACE_CHARS.
Proof. intros H. char_facts; unfold SPACE_CHARS; simpl; lia. Qed.

Lemma space_classes :
  forallb (fun c => negb (is_digit c) && negb (is_word c)) SPACE_CHARS = true.
Proof. vm_compute. reflexivity. Qed.

Lemma space_not_digit (c : N) : is_space c = true -> is_digit c = false.
Proof.
  intros H. apply is_space_cases in H.
  pose proof (proj1 (forallb_forall _ _) space_classes c H) as K.
  apply andb_true_iff in K. destruct K as [K _].
  apply negb_true_iff in K. exact K.
Qed.

Lemma space_not_word (c : N) : is_space c = true -> is_word c = false.
Proof.
  intros H. apply is_space_cases in H.
  pose proof (proj1 (forallb_forall _ _) space_classes c H) as K.
  apply andb_true_iff in K. destruct K as [_ K].
  apply negb_true_iff in K. exact K.
Qed.

(** The classes of the ASCII letters. *)
Lemma ascii_letter_classes (c : N) :
  in_range 0x41 0x5A c = true \/ in_range 0x61 0x7A c = true ->
  is_word c = true /\ is_digit c = false /\ is_space c = false.
Proof.
  intros H.
  assert (R : (0x41 <= c <= 0x5A \/ 0x61 <= c <= 0x7A)%N)
    by (unfold in_range in H; destruct H as [H | H]; bool_facts; lia).
  assert (A : (c <? 0x80)%N = true) by (apply N.ltb_lt; lia).
  split; [|split].
  - unfold is_word. rewrite A.
    destruct R as [R | R]; rewrite (in_range_in _ _ c R);
      rewrite ?orb_true_r; reflexivity.
  - unfold is_digit, decimal. rewrite A.
    rewrite (in_range_out 0x30 0x39 c) by lia. reflexivity.
  - destruct (is_space c) eqn:D; [|reflexivity]. exfalso. char_facts; lia.
Qed.

(** The characters that [re.IGNORECASE] takes for an ASCII lower-case
    letter of a pattern: the letter, its capital and, for three letters,
    one or two characters more. *)
Lemma fold_char_letter (x y : N) :
  in_range 0x61 0x7A x = true -> fold_char y = x ->
  y = x \/ y = (x - 32)%N \/ In y [0x130; 0x131; 0x17F; 0x212A]%N.
Proof.
  unfold fold_char. intros Hx.
  destruct (in_range 0x41 0x5A y) eqn:E1.
  { intros <-. right. left. unfold in_range in E1. bool_facts. lia. }
  destruct ((y =? 0x130)%N || (y =? 0x131)%N) eqn:E2.
  { intros _. right. right. bool_facts; subst y; simpl; auto. }
  destruct (y =? 0x17F)%N eqn:E3.
  { intros _. right. right. bool_facts; subst y; simpl; auto. }
  destruct (y =? 0x212A)%N eqn:E4.
  { intros _. right. right. bool_facts; subst y; simpl; auto. }
  intros <-. left. reflexivity.
Qed.

Lemma fold_char_letter_word (x y : N) :
  in_range 0x61 0x7A x = true -> fold_char y = x ->
  is_word y = true /\ is_digit y = false /\ is_space y = false.
Proof.
  intros Hx Hy.
  assert (R : (0x61 <= x <= 0x7A)%N)
    by (unfold in_range in Hx; bool_facts; lia).
  destruct (fold_char_letter x y Hx Hy) as [-> | [-> | H]].
  - apply ascii_letter_classes. right. exact Hx.
  - apply ascii_letter_classes. left. apply in_range_in. lia.
  - simpl in H.
    destruct H as [<- | [<- | [<- | [<- | []]]]]; vm_compute; auto.
Qed.

Lemma decimal_range (c : N) (v : Z) :
  decimal c = Some v -> (0 <= v <= 9)%Z.
Proof.
  unfold decimal. destruct (c <? 0x80)%N.
  - destruct (in_range 0x30 0x39 c) eqn:E; [|discriminate].
    intros H. injection H as <-. unfold in_range in E. bool_facts. lia.
  - destruct (find (fun z => in_range z (z + 9) c) DIGIT_ZEROS) as [z|] eqn:E;
      [|discriminate].
    intros H. injection H as <-. apply find_some in E. destruct E as [_ E].
    unfold in_range in E. bool_facts. lia.
Qed.

Lemma digit_value_range (c : N) :
  is_digit c = true -> (0 <= digit_value c <= 9)%Z.
Proof.
  unfold is_digit, digit_value. destruct (decimal c) as [v|] eqn:E;
    [|discriminate].
  intros _. exact (decimal_range c v E).
Qed.

(* ================================================================== *)
(** * The patterns of the source, in plain words *)

Lemma word_inv (ic : bool) (w : str) :
  forall c c',
    matches ic (word w) c c' ->
    exists u,
      ahead c = u ++ ahead c' /\ same_word ic w u /\
      before c' = last_read (before c) u /\ groups c' = groups c.
Proof.
  induction w as [|x w IH]; intros c c' M; simpl in M.
  - inversion M; subst. exists []. repeat split. constructor.
  - inversion M as [| | |r1 r2 c0 c1 c2 M1 M2| | | | | | |]; subst.
    inversion M1; subst.
    destruct (IH _ _ M2) as [u [Ha [Hw [Hb Hg]]]]. simpl in *.
    exists (y :: u). repeat split.
    + simpl. f_equal. exact Ha.
    + constructor; assumption.
    + exact Hb.
    + exact Hg.
Qed.

Lemma word_intro (ic : bool) (w u : str) :
  same_word ic w u ->
  forall b post g,
    matches ic (word w) (Cursor b (u ++ post) g)
      (Cursor (last_read b u) post g).
Proof.
  induction 1 as [|x y w u E _ IH]; intros b post g; simpl.
  - constructor.
  - eapply M_Cat; [constructor; exact E | apply IH].
Qed.

Lemma same_word_fold (w u : str) :
  fold_case w = w -> (same_word true w u <-> fold_case u = w).
Proof.
  revert u. induction w as [|x w IH]; intros u Hw.
  - split.
    + intros H. inversion H. reflexivity.
    + destruct u; [constructor | discriminate].
  - simpl in Hw. injection Hw as Hx Hw. split.
    + intros H. inversion H as [|x0 y w0 u0 E T]; subst. simpl.
      unfold same_char in E. apply N.eqb_eq in E. rewrite Hx in E.
      rewrite <- E. f_equal. apply IH; assumption.
    + destruct u as [|y u]; [discriminate|]. simpl. intros H.
      injection H as Hy Hu. constructor.
      * unfold same_char. apply N.eqb_eq. rewrite Hx. symmetry. exact Hy.
      * apply IH; assumption.
Qed.

Lemma firstn_taken (taken rest : str) :
  firstn (List.length (taken ++ rest) - List.length rest) (taken ++ rest)
    = taken.
Proof.
  rewrite length_app.
  replace (List.length taken + List.length rest - List.length rest)%nat
    with (List.length taken + 0)%nat by lia.
  rewrite firstn_app_2. simpl. apply app_nil_r.
Qed.

Lemma app_same_length (a b a' b' : str) :
  a ++ b = a' ++ b' -> List.length a = List.length a' -> a = a' /\ b = b'.
Proof.
  revert a'. induction a as [|x a IH]; intros [|y a'] H L;
    simpl in *; try discriminate.
  - auto.
  - injection H as -> H. injection L as L.
    destruct (IH _ H L) as [-> ->]. auto.
Qed.

Section UnitPattern.

Variables (maxd : nat) (unit : str).
Hypothesis unit_fold : fold_case unit = unit.

Lemma unit_matches_inv (b : option N) (rest : str) (c' : cursor) :
  matches true (RE_UNIT maxd unit) (Cursor b rest []) c' ->
  exists ds ws u post,
    rest = ds ++ ws ++ u ++ post /\
    ds <> [] /\ (List.length ds <= maxd)%nat /\ all is_digit ds /\
    all is_space ws /\ fold_case u = unit /\ groups c' = [(1%nat, ds)].
Proof.
  intros M. unfold RE_UNIT, between, star in M.
  inversion M as [| | |r1 r2 c0 c1 c2 M1 M2| | | | | | |]; subst. clear M.
  inversion M1 as [| | | | | | |n r c0 c3 M3| | |]; subst. clear M1.
  inversion M3 as [| | | | | |p lo hi b0 taken rest0 g Hall Hlo Hhi| | | |];
    subst. clear M3.
  simpl in M2.
  inversion M2 as [| | |r1 r2 c0 c1 c4 M4 M5| | | | | | |]; subst. clear M2.
  inversion M4 as [| | | | | |p lo hi b0 ws rest1 g Hall2 Hlo2 Hhi2| | | |];
    subst. clear M4.
  destruct (word_inv _ _ _ _ M5) as [u [Ha [Hw [Hb Hg]]]]. simpl in *.
  exists taken, ws, u, (ahead c'). repeat split.
  - rewrite Ha. reflexivity.
  - intros ->. simpl in Hlo. lia.
  - exact Hhi.
  - exact Hall.
  - exact Hall2.
  - apply same_word_fold; assumption.
  - rewrite Hg. rewrite (firstn_taken taken (ws ++ rest1)). reflexivity.
Qed.

Lemma unit_matches_intro (b : option N) (ds ws u post : str) :
  ds <> [] -> (List.length ds <= maxd)%nat -> all is_digit ds ->
  all is_space ws -> fold_case u = unit ->
  exists c',
    matches true (RE_UNIT maxd unit)
      (Cursor b (ds ++ ws ++ u ++ post) []) c'.
Proof.
  intros Hne Hlen Hd Hs Hu. eexists. unfold RE_UNIT.
  eapply M_Cat.
  - apply M_Group. unfold between. apply M_Repeat.
    + exact Hd.
    + destruct ds; [contradiction | simpl; lia].
    + exact Hlen.
  - simpl. eapply M_Cat.
    + unfold star. apply M_Repeat; [exact Hs | lia | exact I].
    + apply word_intro. apply same_word_fold; assumption.
Qed.

Hypothesis unit_letter :
  exists x w, unit = x :: w /\ in_range 0x61 0x7A x = true.

(** What follows the digits of an occurrence does not start with a
    digit. *)
Lemma unit_tail_nondigit (ws u post : str) :
  all is_space ws -> fold_case u = unit ->
  forall c x, ws ++ u ++ post = c :: x -> is_digit c = false.
Proof.
  intros Hs Hu c x E. destruct ws as [|s ws].
  - destruct unit_letter as [x0 [w [Hunit Hx0]]].
    destruct u as [|y u]; [rewrite <- Hu in Hunit; discriminate|].
    simpl in E. injection E as <- _.
    rewrite Hunit in Hu. simpl in Hu. injection Hu as Hy _.
    apply (fold_char_letter_word x0 y Hx0 Hy).
  - simpl in E. injection E as <- _.
    inversion Hs; subst. apply space_not_digit. assumption.
Qed.

Lemma digits_unique (ds ds' x x' : str) :
  all is_digit ds -> all is_digit ds' ->
  (forall c y, x = c :: y -> is_digit c = false) ->
  (forall c y, x' = c :: y -> is_digit c = false) ->
  ds ++ x = ds' ++ x' -> ds = ds'.
Proof.
  revert ds'. induction ds as [|d ds IH]; intros [|d' ds'] H1 H2 Hx Hx' E;
    simpl in E.
  - reflexivity.
  - inversion H2; subst. rewrite (Hx d' _ eq_refl) in *. discriminate.
  - inversion H1; subst. rewrite (Hx' d _ eq_refl) in *. discriminate.
  - injection E as -> E. inversion H1; subst. inversion H2; subst.
    f_equal. apply IH; assumption.
Qed.

Lemma unit_at_matches (text pre ds : str) :
  unit_at maxd unit text pre ds ->
  exists rest c',
    text = pre ++ rest /\
    matches true (RE_UNIT maxd unit) (Cursor (last_read None pre) rest []) c'.
Proof.
  intros [ws [u [post [Ht [Hne [Hlen [Hd [Hs Hu]]]]]]]].
  destruct (unit_matches_intro (last_read None pre) ds ws u post
              Hne Hlen Hd Hs Hu) as [c' M].
  exists (ds ++ ws ++ u ++ post), c'. split; assumption.
Qed.

Lemma matches_unit_at (text pre rest : str) (c' : cursor) :
  text = pre ++ rest ->
  matches true (RE_UNIT maxd unit) (Cursor (last_read None pre) rest []) c' ->
  exists ds, unit_at maxd unit text pre ds /\ groups c' = [(1%nat, ds)].
Proof.
  intros Ht M.
  destruct (unit_matches_inv _ _ _ M)
    as [ds [ws [u [post [Hr [Hne [Hlen [Hd [Hs [Hu Hg]]]]]]]]]].
  exists ds. split; [|exact Hg].
  exists ws, u, post. subst rest. repeat split; assumption.
Qed.

(** The search finds nothing exactly when the text has no occurrence. *)
Lemma search_unit_none (text : str) :
  search true (RE_UNIT maxd unit) text = None <-> no_unit maxd unit text.
Proof.
  split.
  - intros H pre ds Hat.
    destruct (unit_at_matches _ _ _ Hat) as [rest [c' [Ht M]]].
    exact (search_not_found _ _ _ H pre rest c' Ht M).
  - intros H. destruct (search true (RE_UNIT maxd unit) text) eqn:E;
      [|reflexivity].
    destruct (search_found _ _ _ _ E) as [pre [rest [c' [Ht [M _]]]]].
    destruct (matches_unit_at _ _ _ _ Ht M) as [ds [Hat _]].
    destruct (H pre ds Hat).
Qed.

(** The search returns the digits of the leftmost occurrence. *)
Lemma search_unit_first (text ds : str) :
  search true (RE_UNIT maxd unit) text = Some [(1%nat, ds)]
  <-> first_unit maxd unit text ds.
Proof.
  split.
  - intros E.
    destruct (search_found _ _ _ _ E) as [pre [rest [c' [Ht [M [Hg Hleft]]]]]].
    destruct (matches_unit_at _ _ _ _ Ht M) as [ds0 [Hat Hg0]].
    rewrite Hg in Hg0. injection Hg0 as <-.
    exists pre. split; [exact Hat|].
    intros pre' ds' Hat'.
    destruct (unit_at_matches _ _ _ Hat') as [rest' [c'' [Ht' M']]].
    destruct (Nat.le_gt_cases (List.length pre) (List.length pre'))
      as [Hle | Hlt]; [exact Hle|].
    destruct (Hleft pre' rest' c'' Ht' Hlt M').
  - intros [pre [Hat Hmin]].
    destruct (unit_at_matches _ _ _ Hat) as [rest [c1 [Ht M1]]].
    destruct (search true (RE_UNIT maxd unit) text) eqn:E.
    + destruct (search_found _ _ _ _ E)
        as [pre0 [rest0 [c0 [Ht0 [M0 [Hg Hleft]]]]]].
      destruct (matches_unit_at _ _ _ _ Ht0 M0) as [ds0 [Hat0 Hg0]].
      assert (Hlen : List.length pre = List.length pre0).
      { apply Nat.le_antisymm; [exact (Hmin _ _ Hat0)|].
        destruct (Nat.le_gt_cases (List.length pre0) (List.length pre))
          as [Hle | Hlt]; [exact Hle|].
        destruct (Hleft pre rest c1 Ht Hlt M1). }
      destruct Hat as [ws [u [post [Hx [_ [_ [Hd [Hs Hu]]]]]]]].
      destruct Hat0 as [ws0 [u0 [post0 [Hx0 [_ [_ [Hd0 [Hs0 Hu0]]]]]]]].
      rewrite Hx in Hx0.
      destruct (app_same_length _ _ _ _ Hx0 Hlen) as [_ Hrest].
      assert (ds = ds0).
      { apply (digits_unique ds ds0 _ _ Hd Hd0
                 (unit_tail_nondigit ws u post Hs Hu)
                 (unit_tail_nondigit ws0 u0 post0 Hs0 Hu0) Hrest). }
      subst ds0. rewrite <- Hg, Hg0. reflexivity.
    + destruct (search_not_found _ _ _ E pre rest c1 Ht M1).
Qed.

(** Whatever the search returns is of that form. *)
Lemma search_unit_some (text : str) (g : list (nat * str)) :
  search true (RE_UNIT maxd unit) text = Some g ->
  exists ds, g = [(1%nat, ds)] /\ first_unit maxd unit text ds.
Proof.
  intros E.
  destruct (search_found _ _ _ _ E) as [pre [rest [c' [Ht [M [Hg _]]]]]].
  destruct (matches_unit_at _ _ _ _ Ht M) as [ds [_ Hg0]].
  exists ds. rewrite Hg in Hg0. split; [exact Hg0|].
  apply search_unit_first. rewrite E, Hg0. reflexivity.
Qed.

End UnitPattern.

(* ================================================================== *)
(** * Duration *)

Lemma min_letter :
  exists x w, py "min" = x :: w /\ in_range 0x61 0x7A x = true.
Proof. exists 109%N, [105%N; 110%N]. split; reflexivity. Qed.

Lemma hora_letter :
  exists x w, py "hora" = x :: w /\ in_range 0x61 0x7A x = true.
Proof. exists 104%N, [111%N; 114%N; 97%N]. split; reflexivity. Qed.

Lemma search_min_first (text ds : str) :
  search true RE_MIN text = Some [(1%nat, ds)]
  <-> first_unit 3 (py "min") text ds.
Proof. exact (search_unit_first 3 (py "min") eq_refl min_letter text ds). Qed.

Lemma search_min_none (text : str) :
  search true RE_MIN text = None <-> no_unit 3 (py "min") text.
Proof. exact (search_unit_none 3 (py "min") eq_refl text). Qed.

Lemma search_hora_first (text ds : str) :
  search true RE_HORA text = Some [(1%nat, ds)]
  <-> first_unit 2 (py "hora") text ds.
Proof. exact (search_unit_first 2 (py "hora") eq_refl hora_letter text ds). Qed.

Lemma search_hora_none (text : str) :
  search true RE_HORA text = None <-> no_unit 2 (py "hora") text.
Proof. exact (search_unit_none 2 (py "hora") eq_refl text). Qed.

Lemma duration_of_parse (dp : str -> option datetime) (text : str) :
  duration_min (parse_event_from_text dp text) =
    match search true RE_MIN text with
    | Some m => Some (int_of_digits (group 1 m))
    | None =>
        match search true RE_HORA text with
        | Some m => Some (int_of_digits (group 1 m) * 60)%Z
        | None => None
        end
    end.
Proof.
  unfold parse_event_from_text, parse_datetime_es. cbv zeta.
  destruct (search true RE_LUGAR text), (search true RE_MIN text),
    (search true RE_HORA text), (dp text), (search true RE_TITULO text);
    cbn [title location duration_min set_title set_start set_location
         set_duration_min PendingEvent_new];
    repeat match goal with
           | |- context [if ?b then _ else _] => destruct b
           end; reflexivity.
Qed.

(** C3 (as amended).  The leftmost run of one to three digits that is
    followed by optional whitespace and the letters "min" (in any case)
    sets [duration_min] to the value of those digits, whether or not the
    text also has an hours form; when the text has no such run, the
    leftmost run of one or two digits followed by optional whitespace and
    "hora" sets it to sixty times their value; with neither, the
    duration stays unset. *)
Theorem duration_rule (dp : str -> option datetime) (text : str) :
  (forall ds, first_unit 3 (py "min") text ds ->
     duration_min (parse_event_from_text dp text)
       = Some (int_of_digits ds)) /\
  (no_unit 3 (py "min") text ->
   forall ds, first_unit 2 (py "hora") text ds ->
     duration_min (parse_event_from_text dp text)
       = Some (int_of_digits ds * 60)%Z) /\
  (no_unit 3 (py "min") text -> no_unit 2 (py "hora") text ->
     duration_min (parse_event_from_text dp text) = None).
Proof.
  rewrite duration_of_parse. repeat split.
  - intros ds H. apply search_min_first in H. rewrite H. reflexivity.
  - intros Hno ds H. apply search_min_none in Hno.
    apply search_hora_first in H. rewrite Hno, H. reflexivity.
  - intros Hmin Hhora. apply search_min_none in Hmin.
    apply search_hora_none in Hhora. rewrite Hmin, Hhora. reflexivity.
Qed.

(** The example of the specification, "30 min ... 2 horas", and one with
    hours only. *)
Lemma duration_rule_witness :
  duration_min
    (parse_event_from_text resolver_none (py "30 min de camino y 2 horas alli"))
    = Some 30%Z /\
  duration_min (parse_event_from_text resolver_none (py "reunion de 2 horas"))
    = Some 120%Z /\
  duration_min (parse_event_from_text resolver_none (py "reunion")) = None.
Proof.
  split; [|split].
  - destruct (duration_rule resolver_none
                (py "30 min de camino y 2 horas alli")) as [H _].
    apply (H (py "30")). apply search_min_first. vm_compute. reflexivity.
  - destruct (duration_rule resolver_none (py "reunion de 2 horas"))
      as [_ [H _]].
    apply (fun Hno => H Hno (py "2")).
    + apply search_min_none. vm_compute. reflexivity.
    + apply search_hora_first. vm_compute. reflexivity.
  - destruct (duration_rule resolver_none (py "reunion")) as [_ [_ H]].
    apply H; [apply search_min_none | apply search_hora_none];
      vm_compute; reflexivity.
Defined.

(** As the specification words it, the property fails on the code: of a number of more
    than three digits before "min" (two before "hora") only the last
    digits are read. *)
Lemma duration_counterexample :
  duration_min (parse_event_from_text resolver_none (py "1234 min"))
    = Some 234%Z /\
  duration_min (parse_event_from_text resolver_none (py "1234 min"))
    <> Some 1234%Z /\
  duration_min (parse_event_from_text resolver_none (py "100 horas"))
    = Some 0%Z /\
  duration_min (parse_event_from_text resolver_none (py "100 horas"))
    <> Some (100 * 60)%Z.
Proof.
  repeat split; try (vm_compute; discriminate); vm_compute; reflexivity.
Qed.

(* ================================================================== *)
(** * Title *)

Lemma connector_inv (c c' : cursor) :
  matches true RE_CONNECTOR c c' ->
  exists u,
    ahead c = u ++ ahead c' /\ In (fold_case u) CONNECTORS /\
    before c' = last_read (before c) u /\ groups c' = groups c.
Proof.
  intros M. unfold RE_CONNECTOR in M.
  assert (K : forall w, fold_case w = w -> In w CONNECTORS ->
                matches true (word w) c c' ->
                exists u,
                  ahead c = u ++ ahead c' /\ In (fold_case u) CONNECTORS /\
                  before c' = last_read (before c) u /\
                  groups c' = groups c).
  { intros w Hl Hin Mw.
    destruct (word_inv _ _ _ _ Mw) as [u [Ha [Hw [Hb Hg]]]].
    apply same_word_fold in Hw; [|exact Hl].
    exists u. rewrite Hw. auto. }
  inversion M as [| | | |r1 r2 c0 c1 M1|r1 r2 c0 c1 M1| | | | |]; subst.
  - apply (K (py "con")); [reflexivity | simpl; auto | exact M1].
  - inversion M1 as [| | | |r1 r2 c0 c1 M2|r1 r2 c0 c1 M2| | | | |]; subst.
    + apply (K (py "para")); [reflexivity | simpl; auto | exact M2].
    + apply (K (py "sobre")); [reflexivity | simpl; auto | exact M2].
Qed.

Lemma connector_intro (u : str) :
  In (fold_case u) CONNECTORS ->
  forall b post g,
    matches true RE_CONNECTOR (Cursor b (u ++ post) g)
      (Cursor (last_read b u) post g).
Proof.
  intros H b post g. simpl in H. unfold RE_CONNECTOR.
  destruct H as [H | [H | [H | []]]]; symmetry in H.
  - apply M_AltL. apply word_intro.
    apply same_word_fold; [reflexivity | exact H].
  - apply M_AltR, M_AltL. apply word_intro.
    apply same_word_fold; [reflexivity | exact H].
  - apply M_AltR, M_AltR. apply word_intro.
    apply same_word_fold; [reflexivity | exact H].
Qed.

(** A connector word starts with a letter. *)
Lemma connector_head (u : str) :
  In (fold_case u) CONNECTORS ->
  exists y u', u = y :: u' /\ is_word y = true.
Proof.
  intros H. simpl in H.
  destruct u as [|y u']; [simpl in H; intuition discriminate|].
  exists y, u'. split; [reflexivity|].
  destruct H as [H | [H | [H | []]]]; simpl in H; injection H as Hy _;
    symmetry in Hy;
    refine (proj1 (fold_char_letter_word _ y _ Hy)); reflexivity.
Qed.

Lemma connector_length (u : str) :
  In (fold_case u) CONNECTORS ->
  exists y u',
    u = y :: u' /\
    ((fold_char y = 99%N /\ List.length u = 3%nat) \/
     (fold_char y = 112%N /\ List.length u = 4%nat) \/
     (fold_char y = 115%N /\ List.length u = 5%nat)).
Proof.
  intros H. simpl in H.
  destruct u as [|y u']; [simpl in H; intuition discriminate|].
  exists y, u'. split; [reflexivity|].
  rewrite <- (length_map fold_char (y :: u')). fold (fold_case (y :: u')).
  destruct H as [H | [H | [H | []]]]; rewrite <- H; simpl in H;
    injection H as Hy _; rewrite <- Hy; simpl; auto.
Qed.

(** At a given position there is at most one connector word. *)
Lemma connector_unique (u u' r r' : str) :
  In (fold_case u) CONNECTORS -> In (fold_case u') CONNECTORS ->
  u ++ r = u' ++ r' -> u = u' /\ r = r'.
Proof.
  intros H H' E.
  destruct (connector_length u H) as [y [u0 [Hu C]]].
  destruct (connector_length u' H') as [y' [u0' [Hu' C']]].
  assert (Hy : y = y').
  { rewrite Hu, Hu' in E. simpl in E. injection E as E _. exact E. }
  subst y'.
  apply app_same_length; [exact E|].
  destruct C as [[C L] | [[C L] | [C L]]];
    destruct C' as [[C' L'] | [[C' L'] | [C' L']]];
    rewrite L, L'; try reflexivity; rewrite C in C'; discriminate.
Qed.

Lemma titulo_matches_inv (b : option N) (rest : str) (c' : cursor) :
  matches true RE_TITULO (Cursor b rest []) c' ->
  exists conn ws g tail,
    rest = conn ++ ws ++ g ++ tail /\
    In (fold_case conn) CONNECTORS /\ is_word_opt b = false /\
    ws <> [] /\ all is_space ws /\ g <> [] /\ all dot g /\
    (tail = [] \/ tail = [0x0A%N]) /\ group 2 (groups c') = g.
Proof.
  intros M. unfold RE_TITULO in M.
  fold RE_CONNECTOR in M. unfold plus in M.
  inversion M as [| | |r1 r2 c0 c1 c2 M1 M2| | | | | | |]; subst. clear M.
  inversion M1 as [| | | | | | | |c0 Hwb| |]; subst. clear M1.
  inversion M2 as [| | |r1 r2 c0 c1 c2 M3 M4| | | | | | |]; subst. clear M2.
  inversion M3 as [| | | | | | |n r c0 c3 M5| | |]; subst. clear M3.
  destruct (connector_inv _ _ M5) as [conn [Ha [Hin [Hb Hg]]]].
  simpl in Ha, Hb, Hg, Hwb.
  inversion M4 as [| | |r1 r2 c0 c1 c2 M6 M7| | | | | | |]; subst. clear M4.
  inversion M6 as [| | | | | |p lo hi b0 ws rest1 g0 Hs Hlo Hhi| | | |];
    subst. clear M6.
  inversion M7 as [| | |r1 r2 c0 c1 c2 M8 M9| | | | | | |]; subst. clear M7.
  inversion M8 as [| | | | | | |n r c0 c4 M10| | |]; subst. clear M8.
  inversion M10 as [| | | | | |p lo hi b0 g rest2 g1 Hd Hlo2 Hhi2| | | |];
    subst. clear M10.
  simpl in M9.
  exists conn, ws, g, rest2. repeat split.
  - exact Hin.
  - destruct (connector_head conn Hin) as [y [u' [Hc Hy]]].
    rewrite Hc in Hwb. simpl in Hwb. rewrite Hy in Hwb.
    destruct (is_word_opt b); [discriminate | reflexivity].
  - intros ->. simpl in Hlo. lia.
  - exact Hs.
  - intros ->. simpl in Hlo2. lia.
  - exact Hd.
  - inversion M9; subst; auto.
  - inversion M9; subst; cbn [groups group Nat.eqb]; apply firstn_taken.
Qed.

Lemma titulo_matches_intro (b : option N) (conn ws g tail : str) :
  In (fold_case conn) CONNECTORS -> is_word_opt b = false ->
  ws <> [] -> all is_space ws -> g <> [] -> all dot g ->
  tail = [] \/ tail = [0x0A%N] ->
  exists c',
    matches true RE_TITULO (Cursor b (conn ++ ws ++ g ++ tail) []) c'.
Proof.
  intros Hin Hb Hws Hs Hg Hd Ht. eexists. unfold RE_TITULO.
  fold RE_CONNECTOR.
  eapply M_Cat.
  { apply M_WordBoundary. simpl.
    destruct (connector_head conn Hin) as [y [u' [Hc Hy]]].
    rewrite Hc. simpl. rewrite Hb, Hy. reflexivity. }
  eapply M_Cat.
  { apply M_Group. apply connector_intro. exact Hin. }
  simpl. eapply M_Cat.
  { unfold plus. apply M_Repeat; [exact Hs | | exact I].
    destruct ws; [contradiction | simpl; lia]. }
  eapply M_Cat.
  { apply M_Group. unfold plus. apply M_Repeat; [exact Hd | | exact I].
    destruct g; [contradiction | simpl; lia]. }
  simpl. destruct Ht as [-> | ->]; constructor.
Qed.

Lemma connector_at_matches (text pre conn rem : str) :
  connector_at text pre conn rem ->
  exists c',
    matches true RE_TITULO (Cursor (last_read None pre) (conn ++ rem) []) c'.
Proof.
  intros [_ [Hin [Hb [ws [g [tail [Hr [Hws [Hs [Hg [Hd Ht]]]]]]]]]]].
  subst rem. apply titulo_matches_intro; assumption.
Qed.

Lemma matches_connector_at (text pre rest : str) (c' : cursor) :
  text = pre ++ rest ->
  matches true RE_TITULO (Cursor (last_read None pre) rest []) c' ->
  exists conn rem,
    rest = conn ++ rem /\ connector_at text pre conn rem /\
    strip (group 2 (groups c')) = strip rem.
Proof.
  intros Ht M.
  destruct (titulo_matches_inv _ _ _ M)
    as [conn [ws [g [tail [Hr [Hin [Hb [Hws [Hs [Hg [Hd [Htail Hgr]]]]]]]]]]]].
  exists conn, (ws ++ g ++ tail). split; [exact Hr|]. split.
  - split; [rewrite Ht, Hr; reflexivity|]. split; [exact Hin|].
    split; [exact Hb|]. exists ws, g, tail. repeat split; assumption.
  - rewrite Hgr. symmetry. apply strip_spaces_around; [exact Hs|].
    destruct Htail as [-> | ->]; [constructor|].
    constructor; [reflexivity | constructor].
Qed.

(** The search finds nothing exactly when the text has no connector
    occurrence. *)
Lemma search_titulo_none (text : str) :
  search true RE_TITULO text = None <-> no_connector text.
Proof.
  split.
  - intros H pre conn rem Hat.
    destruct (connector_at_matches _ _ _ _ Hat) as [c' M].
    destruct Hat as [Ht _].
    exact (search_not_found _ _ _ H pre (conn ++ rem) c' Ht M).
  - intros H. destruct (search true RE_TITULO text) eqn:E; [|reflexivity].
    destruct (search_found _ _ _ _ E) as [pre [rest [c' [Ht [M _]]]]].
    destruct (matches_connector_at _ _ _ _ Ht M) as [conn [rem [_ [Hat _]]]].
    destruct (H pre conn rem Hat).
Qed.

(** The second group of the search is, up to surrounding whitespace,
    what follows the leftmost connector occurrence. *)
Lemma search_titulo_some (text : str) (m : list (nat * str)) :
  search true RE_TITULO text = Some m ->
  exists conn rem,
    first_connector text conn rem /\ strip (group 2 m) = strip rem.
Proof.
  intros E.
  destruct (search_found _ _ _ _ E) as [pre [rest [c' [Ht [M [Hg Hleft]]]]]].
  destruct (matches_connector_at _ _ _ _ Ht M) as [conn [rem [_ [Hat Hs]]]].
  exists conn, rem. rewrite <- Hg. split; [|exact Hs].
  exists pre. split; [exact Hat|].
  intros pre' conn' rem' Hat'.
  destruct (connector_at_matches _ _ _ _ Hat') as [c'' M'].
  destruct Hat' as [Ht' _].
  destruct (Nat.le_gt_cases (List.length pre) (List.length pre'))
    as [Hle | Hlt]; [exact Hle|].
  destruct (Hleft pre' _ c'' Ht' Hlt M').
Qed.

Lemma first_connector_unique (text conn rem conn' rem' : str) :
  first_connector text conn rem -> first_connector text conn' rem' ->
  conn = conn' /\ rem = rem'.
Proof.
  intros [pre [Hat Hmin]] [pre' [Hat' Hmin']].
  assert (L : List.length pre = List.length pre').
  { apply Nat.le_antisymm; [exact (Hmin _ _ _ Hat') | exact (Hmin' _ _ _ Hat)]. }
  destruct Hat as [Ht [Hin _]]. destruct Hat' as [Ht' [Hin' _]].
  rewrite Ht in Ht'.
  destruct (app_same_length _ _ _ _ Ht' L) as [_ Hrest].
  exact (connector_unique _ _ _ _ Hin Hin' Hrest).
Qed.

Lemma search_titulo_first (text conn rem : str) :
  first_connector text conn rem ->
  exists m,
    search true RE_TITULO text = Some m /\ strip (group 2 m) = strip rem.
Proof.
  intros Hfirst. destruct (search true RE_TITULO text) as [m|] eqn:E.
  - exists m. split; [reflexivity|].
    destruct (search_titulo_some _ _ E) as [conn' [rem' [Hfirst' Hs]]].
    destruct (first_connector_unique _ _ _ _ _ Hfirst Hfirst') as [_ ->].
    exact Hs.
  - destruct Hfirst as [pre [Hat _]].
    destruct (proj1 (search_titulo_none text) E pre conn rem Hat).
Qed.

Lemma title_of_parse (dp : str -> option datetime) (text : str) :
  title (parse_event_from_text dp text) =
    Some (match search true RE_TITULO text with
          | Some m => if nonempty (strip (group 2 m))
                      then strip (group 2 m)
                      else firstn 30 (strip text)
          | None => firstn 30 (strip text)
          end).
Proof.
  unfold parse_event_from_text, parse_datetime_es. cbv zeta.
  destruct (search true RE_LUGAR text), (search true RE_MIN text),
    (search true RE_HORA text), (dp text), (search true RE_TITULO text);
    cbn [title location duration_min set_title set_start set_location
         set_duration_min PendingEvent_new truthy_str negb];
    repeat match goal with
           | |- context [if nonempty ?b then _ else _] => destruct (nonempty b)
           end; reflexivity.
Qed.

(** C7 (as amended).  Title extraction is total.  When the text has a
    connector word ("con", "para", "sobre", in any case, at a word
    boundary, followed by whitespace and more text up to the end of the
    string), the title is what follows the leftmost one up to the end of
    the string, trimmed, unless that is empty; in that case, and when
    there is no connector, it is [text.strip()[:30]].  The title is not
    empty as soon as the text has a character that is not whitespace. *)
Theorem title_rule (dp : str -> option datetime) (text : str) :
  (exists t, title (parse_event_from_text dp text) = Some t) /\
  (forall conn rem, first_connector text conn rem ->
     title (parse_event_from_text dp text)
       = Some (if nonempty (strip rem) then strip rem
               else firstn 30 (strip text))) /\
  (no_connector text ->
     title (parse_event_from_text dp text) = Some (firstn 30 (strip text))) /\
  (strip text <> [] ->
     exists t, title (parse_event_from_text dp text) = Some t /\ t <> []).
Proof.
  rewrite title_of_parse. repeat split.
  - eauto.
  - intros conn rem H.
    destruct (search_titulo_first _ _ _ H) as [m [E Hs]].
    rewrite E, Hs. reflexivity.
  - intros H. apply search_titulo_none in H. rewrite H. reflexivity.
  - intros Hne. eexists. split; [reflexivity|].
    assert (F : firstn 30 (strip text) <> []).
    { destruct (strip text); [contradiction | discriminate]. }
    destruct (search true RE_TITULO text) as [m|]; [|exact F].
    destruct (nonempty (strip (group 2 m))) eqn:E; [|exact F].
    destruct (strip (group 2 m)); [discriminate | discriminate].
Qed.

Lemma title_rule_witness :
  title (parse_event_from_text resolver_none (py "comprar pan"))
    = Some (py "comprar pan") /\
  (exists t,
     title (parse_event_from_text resolver_none (py "comprar pan")) = Some t
     /\ t <> []) /\
  title (parse_event_from_text resolver_none (py "Cita CON  el dentista "))
    = Some (py "el dentista").
Proof.
  destruct (title_rule resolver_none (py "comprar pan")) as [_ [_ [H1 H2]]].
  destruct (title_rule resolver_none (py "Cita CON  el dentista "))
    as [_ [H3 _]].
  split; [|split].
  - apply H1. apply search_titulo_none. vm_compute. reflexivity.
  - apply H2. vm_compute. discriminate.
  - destruct (search_titulo_some (py "Cita CON  el dentista ")
                [(2%nat, py "el dentista "); (1%nat, py "CON")])
      as [conn [rem [Hf Hs]]]; [vm_compute; reflexivity|].
    rewrite (H3 conn rem Hf). rewrite <- Hs. vm_compute. reflexivity.
Defined.

(** As the specification words it, the property fails on the code: a text made of one
    space is not empty, and its title is the empty string. *)
Lemma title_counterexample :
  py " " <> [] /\
  title (parse_event_from_text resolver_none (py " ")) = Some [].
Proof.
  split; [vm_compute; discriminate | vm_compute; reflexivity].
Qed.

(* ================================================================== *)
(** * Ranges of the list requests *)

Lemma DAY_pos : (0 < DAY)%Z.
Proof. reflexivity. Qed.

Lemma instant_of_instant (off t : Z) : instant (of_instant off t) = t.
Proof.
  unfold instant, of_instant. simpl.
  pose proof (Z.div_mod (t + off * MINUTE) DAY) as H.
  assert (DAY <> 0)%Z by (pose proof DAY_pos; lia).
  specialize (H H0). lia.
Qed.

Lemma micros_of_instant (off t : Z) :
  (0 <= micros (of_instant off t) < DAY)%Z.
Proof. unfold of_instant. simpl. apply Z.mod_pos_bound. exact DAY_pos. Qed.

(** A datetime of the configured zone is left as it is. *)
Lemma astimezone_local (d : datetime) :
  utcoffset d = TZ -> (0 <= micros d < DAY)%Z -> astimezone d = d.
Proof.
  destruct d as [o m off]. cbn [utcoffset micros]. intros -> Hm.
  unfold astimezone, of_instant, instant. cbn [ordinal micros utcoffset].
  assert (E : (o * DAY + m - TZ * MINUTE + TZ * MINUTE = DAY * o + m)%Z)
    by lia.
  rewrite E.
  rewrite <- (Z.div_unique_pos (DAY * o + m) DAY o m Hm eq_refl).
  rewrite <- (Z.mod_unique_pos (DAY * o + m) DAY o m Hm eq_refl).
  reflexivity.
Qed.

Lemma astimezone_idem (d : datetime) : astimezone (astimezone d) = astimezone d.
Proof.
  apply astimezone_local; [reflexivity|].
  unfold astimezone. apply micros_of_instant.
Qed.

Lemma midnight_local (o : Z) : astimezone (Datetime o 0 TZ) = Datetime o 0 TZ.
Proof.
  apply astimezone_local; [reflexivity|].
  cbn [micros]. pose proof DAY_pos. lia.
Qed.

Lemma shift_days_midnight (o n : Z) :
  shift (Datetime o 0 TZ) n 0 = Datetime (o + n) 0 TZ.
Proof.
  unfold shift. cbn [ordinal micros utcoffset].
  change (0 + 0 * MINUTE)%Z with 0%Z.
  rewrite Zdiv_0_l, Zmod_0_l. f_equal. lia.
Qed.

(** A sum that stays within the years 1 to 9999. *)
Lemma add_days_midnight (o n : Z) :
  (MINORD <= o + n <= MAXORD)%Z ->
  add_timedelta (Datetime o 0 TZ) n 0 = Some (Datetime (o + n) 0 TZ).
Proof.
  intros [H1 H2]. unfold add_timedelta. rewrite shift_days_midnight.
  unfold in_years. cbn [ordinal].
  apply Z.leb_le in H1. apply Z.leb_le in H2. rewrite H1, H2. reflexivity.
Qed.

Lemma add_days_some (B : Type) (d r : datetime) (n : Z) (f : datetime -> IO B)
    (w : world) :
  add_timedelta d n 0 = Some r -> bind (add_days d n) f w = f r w.
Proof. intros H. unfold add_days. rewrite H. reflexivity. Qed.

Lemma instant_plus_days (d : datetime) (n : Z) :
  instant (plus_days d n) = (instant d + n * DAY)%Z.
Proof. unfold instant, plus_days. simpl. lia. Qed.

(** The day of an instant contains it. *)
Lemma midnight_brackets (t : Z) :
  let day0 := midnight (of_instant TZ t) in
  (instant day0 <= t < instant (plus_days day0 1))%Z.
Proof.
  cbv zeta. rewrite instant_plus_days.
  unfold midnight. rewrite astimezone_local;
    [|reflexivity | apply micros_of_instant].
  pose proof (instant_of_instant TZ t) as Hi.
  pose proof (micros_of_instant TZ t) as Hm.
  unfold instant in *. cbn [ordinal micros utcoffset] in *.
  change (utcoffset (of_instant TZ t)) with TZ in Hi.
  set (o := ordinal (of_instant TZ t)) in *.
  set (m := micros (of_instant TZ t)) in *.
  change DAY with 86400000000%Z in *.
  change (TZ * MINUTE)%Z with (-21600000000)%Z in *. lia.
Qed.

(** The local date of a modern instant: from 30 September 2006 to
    23 December 9999. *)
Lemma modern_ordinal (t : Z) :
  modern t ->
  (ymd2ord 2006 9 30 <= ordinal (of_instant TZ t) <= MAXORD - 8)%Z.
Proof.
  unfold modern. intros [H1 H2].
  change MODERN_FROM with 63295362000000000%Z in H1.
  change MODERN_TO with 315537314400000000%Z in H2.
  unfold of_instant. cbn [ordinal].
  change (TZ * MINUTE)%Z with (-21600000000)%Z.
  change DAY with 86400000000%Z.
  change (ymd2ord 2006 9 30) with 732584%Z.
  change (MAXORD - 8)%Z with 3652051%Z.
  split.
  - apply Z.div_le_lower_bound; lia.
  - assert (((t + -21600000000) / 86400000000 < 3652052)%Z);
      [apply Z.div_lt_upper_bound; lia | lia].
Qed.

Lemma queries_app (a b : list io_event) :
  queries (a ++ b) = queries a ++ queries b.
Proof.
  induction a as [|e a IH]; simpl; [reflexivity|].
  destruct e; simpl; rewrite IH; reflexivity.
Qed.

Lemma inserts_app (a b : list io_event) :
  inserts (a ++ b) = inserts a ++ inserts b.
Proof.
  induction a as [|e a IH]; simpl; [reflexivity|].
  destruct e; simpl; rewrite IH; reflexivity.
Qed.

Section Ranges.

Variable dp : str -> option datetime.
Variable clock : nat -> Z.
Variable calendar_insert : event_body -> option str.
Variable calendar_list : datetime -> datetime -> option (list item).
Variable notify : option str.

(** What [list_events] asks the service. *)
Lemma list_events_query (a b : datetime) (w : world) :
  queries (trace (snd (list_events calendar_list a b w)))
    = queries (trace w) ++ [(astimezone a, astimezone b)].
Proof.
  unfold list_events, bind, emit, say, print, emit, raise. simpl.
  destruct (calendar_list (astimezone a) (astimezone b)) as [[|i l]|]; simpl;
    rewrite ?queries_app; simpl; rewrite ?app_nil_r; reflexivity.
Qed.

(** A turn that lists ends in the world that [list_events] leaves. *)
Lemma list_turn_world (m : IO bool) (k : IO unit) (a b : datetime)
    (w w0 : world) :
  m w = bind (list_events calendar_list a b) (fun _ => ret true) w0 ->
  snd (bind m (fun done => if done then ret tt else k) w)
    = snd (list_events calendar_list a b w0).
Proof.
  unfold bind at 2. intros ->. unfold bind.
  destruct (list_events calendar_list a b w0) as [[[]|e] w1]; reflexivity.
Qed.

(** The list branch at an instant from which the days asked for are
    dates: one reading of the clock, then the query from the midnight
    [from] days after today's, for [days] days. *)
Lemma main_list_days (i : intent) (texto : str) (w : world)
    (from days : Z) :
  modern (clock (ticks w)) ->
  (i = list_today /\ from = 0 /\ days = 1 \/
   i = list_tomorrow /\ from = 1 /\ days = 1 \/
   i = list_week /\ from = 0 /\ days = 7)%Z ->
  let o := ordinal (of_instant TZ (clock (ticks w))) in
  main_list dp clock calendar_list i texto w
    = bind (list_events calendar_list (Datetime (o + from) 0 TZ)
              (Datetime (o + from + days) 0 TZ))
        (fun _ => ret true) (World (stdin w) (S (ticks w)) (trace w)).
Proof.
  intros Hm Hi o.
  pose proof (modern_ordinal _ Hm) as Ho. fold o in Ho.
  change (ymd2ord 2006 9 30) with 732584%Z in Ho.
  assert (Hmin : (MINORD = 1)%Z) by reflexivity.
  assert (Hnow : of_instant TZ (clock (ticks w))
                 = Datetime o (micros (of_instant TZ (clock (ticks w)))) TZ)
    by reflexivity.
  unfold main_list. unfold bind at 1. unfold datetime_now.
  destruct Hi as [[-> [-> ->]] | [[-> [-> ->]] | [-> [-> ->]]]].
  - unfold replace_midnight. cbn [ordinal utcoffset of_instant]. fold o.
    rewrite (add_days_some _ _ (Datetime (o + 1) 0 TZ))
      by (apply add_days_midnight; lia).
    rewrite Z.add_0_r. reflexivity.
  - rewrite (add_days_some _ _
               (Datetime (o + 1) (micros (of_instant TZ (clock (ticks w)))) TZ)).
    + unfold replace_midnight. cbn [ordinal utcoffset].
      rewrite (add_days_some _ _ (Datetime (o + 1 + 1) 0 TZ))
        by (apply add_days_midnight; lia).
      reflexivity.
    + rewrite Hnow. unfold add_timedelta, shift, in_years.
      cbn [ordinal micros utcoffset].
      change (0 * MINUTE)%Z with 0%Z. rewrite Z.add_0_r.
      rewrite (Z.div_small _ DAY) by apply micros_of_instant.
      rewrite (Z.mod_small _ DAY) by apply micros_of_instant.
      rewrite Z.add_0_r.
      replace (MINORD <=? o + 1)%Z with true by (symmetry; apply Z.leb_le; lia).
      replace (o + 1 <=? MAXORD)%Z with true by (symmetry; apply Z.leb_le; lia).
      reflexivity.
  - unfold replace_midnight. cbn [ordinal utcoffset of_instant]. fold o.
    rewrite (add_days_some _ _ (Datetime (o + 7) 0 TZ))
      by (apply add_days_midnight; lia).
    rewrite Z.add_0_r. reflexivity.
Qed.

(** The same for the day of a date found in the utterance. *)
Lemma main_list_date (texto : str) (w : world) (dt : datetime) :
  dp texto = Some dt -> modern (instant dt) ->
  let o := ordinal (astimezone dt) in
  main_list dp clock calendar_list list_date texto w
    = bind (list_events calendar_list (Datetime o 0 TZ)
              (Datetime (o + 1) 0 TZ))
        (fun _ => ret true) (World (stdin w) (S (ticks w)) (trace w)).
Proof.
  intros Hdt Hm o.
  pose proof (modern_ordinal _ Hm) as Ho.
  change (ordinal (of_instant TZ (instant dt))) with o in Ho.
  change (ymd2ord 2006 9 30) with 732584%Z in Ho.
  assert (Hmin : (MINORD = 1)%Z) by reflexivity.
  unfold main_list. unfold bind at 1. unfold datetime_now, parse_datetime_es.
  rewrite Hdt. unfold replace_midnight.
  change (utcoffset (astimezone dt)) with TZ. fold o.
  rewrite (add_days_some _ _ (Datetime (o + 1) 0 TZ))
    by (apply add_days_midnight; lia).
  reflexivity.
Qed.

Let turn := main_body dp clock calendar_insert calendar_list notify.

(** C4.  At an instant from October 2006 on (since when the zone keeps
    UTC-06:00) and before 24 December 9999, the range that a list
    request asks the calendar for has its bounds at local midnights of
    the configured zone: for [list_today] the day of the reference
    instant, for [list_tomorrow] the day after, for [list_week] seven
    days from the midnight of today, for [list_date] the day of the date
    found in the utterance, if that date is in the same period.  The day
    of the reference instant is the one that contains it in local
    time. *)
Theorem list_ranges (texto : str) (w : world) :
  let ref := clock (ticks w) in
  let day0 := midnight (of_instant TZ ref) in
  let asked := queries (trace (snd (turn texto w))) in
  modern ref ->
  ((instant day0 <= ref < instant (plus_days day0 1))%Z /\
   micros day0 = 0%Z /\ utcoffset day0 = TZ) /\
  (detect_intent dp texto = list_today ->
     asked = queries (trace w) ++ [(day0, plus_days day0 1)]) /\
  (detect_intent dp texto = list_tomorrow ->
     asked = queries (trace w) ++ [(plus_days day0 1, plus_days day0 2)]) /\
  (detect_intent dp texto = list_week ->
     asked = queries (trace w) ++ [(day0, plus_days day0 7)]) /\
  (detect_intent dp texto = list_date ->
   forall dt, dp texto = Some dt -> modern (instant dt) ->
     asked = queries (trace w)
               ++ [(midnight dt, plus_days (midnight dt) 1)]).
Proof.
  cbv zeta. intros Hm.
  assert (Hnow : astimezone (of_instant TZ (clock (ticks w)))
                 = of_instant TZ (clock (ticks w))).
  { apply astimezone_local; [reflexivity | apply micros_of_instant]. }
  assert (Hday : midnight (of_instant TZ (clock (ticks w)))
                 = Datetime (ordinal (of_instant TZ (clock (ticks w)))) 0 TZ).
  { unfold midnight. rewrite Hnow. reflexivity. }
  split; [|repeat split].
  - split; [apply midnight_brackets | split; reflexivity].
  - intros Hi. unfold turn, main_body. rewrite Hi. cbn [is_list_intent].
    erewrite list_turn_world
      by (apply (main_list_days list_today texto w 0 1 Hm); auto).
    rewrite list_events_query. cbn [trace].
    rewrite !midnight_local, Hday. unfold plus_days.
    cbn [ordinal micros utcoffset]. rewrite !Z.add_0_r. reflexivity.
  - intros Hi. unfold turn, main_body. rewrite Hi. cbn [is_list_intent].
    erewrite list_turn_world
      by (apply (main_list_days list_tomorrow texto w 1 1 Hm); auto).
    rewrite list_events_query. cbn [trace].
    rewrite !midnight_local, Hday. unfold plus_days.
    cbn [ordinal micros utcoffset]. rewrite <- Z.add_assoc. reflexivity.
  - intros Hi. unfold turn, main_body. rewrite Hi. cbn [is_list_intent].
    erewrite list_turn_world
      by (apply (main_list_days list_week texto w 0 7 Hm); auto).
    rewrite list_events_query. cbn [trace].
    rewrite !midnight_local, Hday. unfold plus_days.
    cbn [ordinal micros utcoffset]. rewrite !Z.add_0_r. reflexivity.
  - intros Hi dt Hdt Hmd. unfold turn, main_body. rewrite Hi.
    cbn [is_list_intent].
    erewrite list_turn_world by (apply (main_list_date texto w dt Hdt Hmd)).
    rewrite list_events_query. cbn [trace].
    rewrite !midnight_local. reflexivity.
Qed.

End Ranges.

(** The example of the specification: at 23:30 local time of 2024-06-10
    (05:30 UTC of the next day) today runs from 2024-06-10 00:00 to
    2024-06-11 00:00, local time; and the other three kinds of request
    at the same instant. *)
Lemma list_ranges_witness :
  let turn := main_body resolver_cita clock_2330 insert_ok list_empty None in
  let w0 := World [] 0 [] in
  clock_2330 0 = instant (Datetime (ymd2ord 2024 6 11)
                            (time_of_day 5 30 0 0) 0) /\
  queries (trace (snd (turn (py "qué debo hacer hoy?") w0)))
    = [(local 2024 6 10 0 0, local 2024 6 11 0 0)] /\
  queries (trace (snd (turn (py "qué tareas tengo para mañana?") w0)))
    = [(local 2024 6 11 0 0, local 2024 6 12 0 0)] /\
  queries (trace (snd (turn (py "ver mi agenda de esta semana") w0)))
    = [(local 2024 6 10 0 0, local 2024 6 17 0 0)] /\
  queries (trace (snd (turn (py "listar el 11/06") w0)))
    = [(local 2024 6 11 0 0, local 2024 6 12 0 0)].
Proof.
  cbv zeta. split; [vm_compute; reflexivity|].
  assert (Hm : modern (clock_2330 0)).
  { split; [apply Z.leb_le | apply Z.ltb_lt]; vm_compute; reflexivity. }
  assert (Hd : modern (instant (local 2024 6 11 15 0))).
  { split; [apply Z.leb_le | apply Z.ltb_lt]; vm_compute; reflexivity. }
  split; [|split; [|split]].
  - destruct (list_ranges resolver_cita clock_2330 insert_ok list_empty None
                (py "qué debo hacer hoy?") (World [] 0 []) Hm)
      as [_ [H _]].
    rewrite H by (vm_compute; reflexivity). vm_compute. reflexivity.
  - destruct (list_ranges resolver_cita clock_2330 insert_ok list_empty None
                (py "qué tareas tengo para mañana?") (World [] 0 []) Hm)
      as [_ [_ [H _]]].
    rewrite H by (vm_compute; reflexivity). vm_compute. reflexivity.
  - destruct (list_ranges resolver_cita clock_2330 insert_ok list_empty None
                (py "ver mi agenda de esta semana") (World [] 0 []) Hm)
      as [_ [_ [_ [H _]]]].
    rewrite H by (vm_compute; reflexivity). vm_compute. reflexivity.
  - destruct (list_ranges resolver_cita clock_2330 insert_ok list_empty None
                (py "listar el 11/06") (World [] 0 []) Hm)
      as [_ [_ [_ [_ H]]]].
    rewrite (H ltac:(vm_compute; reflexivity) (local 2024 6 11 15 0) eq_refl Hd).
    vm_compute. reflexivity.
Defined.

(* ================================================================== *)
(** * The console session *)

Lemma console_inserts (tr : list io_event) :
  Forall console tr -> inserts tr = [].
Proof.
  induction 1 as [|e tr He _ IH]; [reflexivity|].
  destruct e; simpl in *; try contradiction; exact IH.
Qed.

Lemma console_queries (tr : list io_event) :
  Forall console tr -> queries tr = [].
Proof.
  induction 1 as [|e tr He _ IH]; [reflexivity|].
  destruct e; simpl in *; try contradiction; exact IH.
Qed.

Lemma calm_ret (A : Type) (a : A) (P : A -> Prop) : P a -> calm (ret a) P.
Proof.
  intros H w. exists a, w, []. unfold ret. rewrite app_nil_r.
  repeat split; auto.
Qed.

Lemma calm_bind (A B : Type) (m : IO A) (f : A -> IO B)
    (Q : A -> Prop) (P : B -> Prop) :
  calm m Q -> (forall a, Q a -> calm (f a) P) -> calm (bind m f) P.
Proof.
  intros Hm Hf w.
  destruct (Hm w) as [a [w1 [tr1 [E1 [Ha [T1 [C1 [K1 L1]]]]]]]].
  destruct (Hf a Ha w1) as [b [w2 [tr2 [E2 [Hb [T2 [C2 [K2 L2]]]]]]]].
  exists b, w2, (tr1 ++ tr2). unfold bind. rewrite E1, E2.
  repeat split; auto.
  - rewrite T2, T1, app_assoc. reflexivity.
  - apply Forall_app. split; assumption.
  - congruence.
  - lia.
Qed.

Lemma calm_weaken (A : Type) (m : IO A) (P Q : A -> Prop) :
  calm m P -> (forall a, P a -> Q a) -> calm m Q.
Proof.
  intros Hm HPQ w.
  destruct (Hm w) as [a [w1 [tr1 [E1 [Ha [T1 [C1 [K1 L1]]]]]]]].
  exists a, w1, tr1. repeat split; auto.
Qed.

Lemma calm_print (o : output) : calm (print o) (fun _ => True).
Proof.
  intros w. exists tt, (World (stdin w) (ticks w) (trace w ++ [Printed o])),
    [Printed o].
  repeat split; auto. constructor; [exact I | constructor].
Qed.

Lemma solicitar_spec (p : str) (w : world) :
  solicitar p w
    = (inl (reply w),
       World (tl (stdin w)) (ticks w) (trace w ++ [Asked p])).
Proof.
  unfold solicitar, try_except, bind, input, ret, reply.
  destruct (stdin w); reflexivity.
Qed.

Lemma calm_solicitar (p : str) : calm (solicitar p) (fun _ => True).
Proof.
  intros w. rewrite solicitar_spec.
  eexists _, _, [Asked p]. repeat split; auto.
  - constructor; [exact I | constructor].
  - simpl. destruct (stdin w); simpl; lia.
Qed.

Lemma bind_inl {A B : Type} {m : IO A} (f : A -> IO B) {w w1 : world} {a : A} :
  m w = (inl a, w1) -> bind m f w = f a w1.
Proof. intros E. unfold bind. rewrite E. reflexivity. Qed.

Lemma bind_ret (A B : Type) (a : A) (f : A -> IO B) : bind (ret a) f = f a.
Proof. reflexivity. Qed.

Lemma tl_length (l : list str) : (List.length (tl l) <= List.length l)%nat.
Proof. destruct l; simpl; lia. Qed.

(** ** The fallback pass does nothing but prompt *)

Lemma prompting_console (e : io_event) : prompting e -> console e.
Proof. destruct e as [[]| | | |]; simpl; tauto. Qed.

Lemma prompting_all_console (tr : list io_event) :
  Forall prompting tr -> Forall console tr.
Proof. apply Forall_impl. exact prompting_console. Qed.

Lemma prompting_not_help (tr : list io_event) :
  Forall prompting tr -> ~ In (Printed (Line (py AYUDA))) tr.
Proof.
  intros H Hin. rewrite Forall_forall in H. specialize (H _ Hin).
  simpl in H. vm_compute in H. discriminate.
Qed.

Lemma reporting_not_help (tr : list io_event) :
  Forall reporting tr -> ~ In (Printed (Line (py AYUDA))) tr.
Proof.
  intros H Hin. rewrite Forall_forall in H. exact (H _ Hin).
Qed.

Lemma reporting_inserts (tr : list io_event) :
  Forall reporting tr -> inserts tr = [] /\ queries tr = [].
Proof.
  induction 1 as [|e tr He _ [IH1 IH2]]; [split; reflexivity|].
  destruct e as [[]| | | |]; simpl in *; try contradiction; auto.
Qed.

Lemma prompts_ret (A : Type) (a : A) : prompts (ret a).
Proof.
  intros w. exists a, w, []. unfold ret. rewrite app_nil_r.
  repeat split; constructor.
Qed.

Lemma prompts_bind (A B : Type) (m : IO A) (f : A -> IO B) :
  prompts m -> (forall a, prompts (f a)) -> prompts (bind m f).
Proof.
  intros Hm Hf w.
  destruct (Hm w) as [a [w1 [tr1 [E1 [T1 F1]]]]].
  destruct (Hf a w1) as [b [w2 [tr2 [E2 [T2 F2]]]]].
  exists b, w2, (tr1 ++ tr2). unfold bind. rewrite E1, E2.
  split; [reflexivity|]. split.
  - rewrite T2, T1, app_assoc. reflexivity.
  - apply Forall_app. split; assumption.
Qed.

Lemma prompts_solicitar (p : str) : prompts (solicitar p).
Proof.
  intros w. rewrite solicitar_spec. eexists _, _, [Asked p].
  split; [reflexivity|]. split; [reflexivity|].
  constructor; [exact I | constructor].
Qed.

Lemma prompts_pedir_fecha_hora (dp : str -> option datetime) :
  prompts (pedir_fecha_hora dp).
Proof.
  assert (H : forall n, prompts (pedir_fecha_hora_loop dp n)).
  { induction n as [|n IH]; cbn [pedir_fecha_hora_loop].
    - apply prompts_ret.
    - apply prompts_bind; [apply prompts_solicitar|]. intros resp.
      destruct (negb (nonempty resp)); [apply prompts_ret|].
      destruct (parse_datetime_es dp resp); [apply prompts_ret|].
      apply prompts_bind; [|intros _; exact IH].
      intros w. eexists tt, _, [_]. unfold say, print, emit.
      split; [reflexivity|]. split; [reflexivity|].
      constructor; [reflexivity | constructor]. }
  intros w. unfold pedir_fecha_hora. apply H.
Qed.

Lemma prompts_pedir_titulo : prompts pedir_titulo.
Proof.
  unfold pedir_titulo. apply prompts_bind; [apply prompts_solicitar|].
  intros resp. apply prompts_ret.
Qed.

Lemma prompts_pedir_lugar : prompts pedir_lugar.
Proof.
  unfold pedir_lugar. apply prompts_bind; [apply prompts_solicitar|].
  intros resp. apply prompts_ret.
Qed.

Lemma prompts_pedir_duracion : prompts pedir_duracion.
Proof.
  unfold pedir_duracion. apply prompts_bind; [apply prompts_solicitar|].
  intros resp. destruct (negb (nonempty resp)); [apply prompts_ret|].
  destruct (int resp); apply prompts_ret.
Qed.

Lemma prompts_completar_antes (dp : str -> option datetime)
    (ev : PendingEvent) :
  prompts (completar_antes dp ev).
Proof.
  unfold completar_antes.
  apply prompts_bind.
  { destruct (negb (truthy_dt (start ev))); [|apply prompts_ret].
    apply prompts_bind; [apply prompts_pedir_fecha_hora|].
    intros v. apply prompts_ret. }
  intros ev1. apply prompts_bind.
  { destruct (negb (truthy_str (title ev1))); [|apply prompts_ret].
    apply prompts_bind; [apply prompts_pedir_titulo|].
    intros v. apply prompts_ret. }
  intros ev2. apply prompts_bind.
  { destruct (negb (truthy_str (location ev2))); [|apply prompts_ret].
    apply prompts_bind; [apply prompts_pedir_lugar|].
    intros v. apply prompts_ret. }
  intros ev3. apply prompts_ret.
Qed.

Lemma bind_assoc (A B C : Type) (m : IO A) (f : A -> IO B) (g : B -> IO C)
    (w : world) :
  bind (bind m f) g w = bind m (fun a => bind (f a) g) w.
Proof. unfold bind. destruct (m w) as [[a|e] w1]; reflexivity. Qed.

Lemma bind_ext (A B : Type) (m : IO A) (f g : A -> IO B) (w : world) :
  (forall a w', f a w' = g a w') -> bind m f w = bind m g w.
Proof. intros H. unfold bind. destruct (m w) as [[a|e] w1]; auto. Qed.

(** The pass is the three questions and then the one for the
    duration. *)
Lemma completar_datos_antes (dp : str -> option datetime)
    (ev : PendingEvent) (w : world) :
  completar_datos dp ev w =
    bind (completar_antes dp ev)
      (fun ev3 =>
         ev4 <- (if negb (truthy_int (duration_min ev3))
                 then (v <- pedir_duracion ;;
                       ret (set_duration_min ev3
                              (if truthy_int v then v
                               else Some DEFAULT_DURATION_MIN)))
                 else ret ev3) ;;
         ret ev4) w.
Proof.
  unfold completar_datos, completar_antes.
  rewrite bind_assoc. apply bind_ext. intros ev1 w1.
  rewrite bind_assoc. apply bind_ext. intros ev2 w2.
  rewrite bind_assoc. apply bind_ext. intros ev3 w3.
  rewrite bind_ret. reflexivity.
Qed.

Section Session.

Variable dp : str -> option datetime.
Variable clock : nat -> Z.
Variable calendar_insert : event_body -> option str.
Variable calendar_list : datetime -> datetime -> option (list item).
Variable notify : option str.

Lemma calm_pedir_fecha_hora_loop (n : nat) :
  calm (pedir_fecha_hora_loop dp n) (fun _ => True).
Proof.
  induction n as [|n IH]; simpl.
  - apply calm_ret. exact I.
  - eapply calm_bind; [apply calm_solicitar|]. intros resp _.
    destruct (negb (nonempty resp)); [apply calm_ret; exact I|].
    destruct (parse_datetime_es dp resp); [apply calm_ret; exact I|].
    eapply calm_bind; [apply calm_print|]. intros _ _. exact IH.
Qed.

Lemma calm_pedir_fecha_hora : calm (pedir_fecha_hora dp) (fun _ => True).
Proof.
  intros w. unfold pedir_fecha_hora. apply calm_pedir_fecha_hora_loop.
Qed.

Lemma calm_pedir_titulo : calm pedir_titulo (fun _ => True).
Proof.
  unfold pedir_titulo. eapply calm_bind; [apply calm_solicitar|].
  intros resp _. apply calm_ret. exact I.
Qed.

Lemma calm_pedir_lugar : calm pedir_lugar (fun _ => True).
Proof.
  unfold pedir_lugar. eapply calm_bind; [apply calm_solicitar|].
  intros resp _. apply calm_ret. exact I.
Qed.

Lemma calm_pedir_duracion : calm pedir_duracion (fun _ => True).
Proof.
  unfold pedir_duracion. eapply calm_bind; [apply calm_solicitar|].
  intros resp _. destruct (negb (nonempty resp)); [apply calm_ret; exact I|].
  destruct (int resp); apply calm_ret; exact I.
Qed.

Lemma keeps_refl (ev : PendingEvent) : keeps ev ev.
Proof. unfold keeps. tauto. Qed.

Lemma keeps_trans (a b c : PendingEvent) : keeps a b -> keeps b c -> keeps a c.
Proof.
  unfold keeps.
  intros [A1 [A2 [A3 [A4 [A5 A6]]]]] [B1 [B2 [B3 [B4 [B5 B6]]]]].
  repeat split.
  - intros H. rewrite <- (A1 H). apply B1. rewrite (A1 H). exact H.
  - intros H. rewrite <- (A2 H). apply B2. rewrite (A2 H). exact H.
  - intros H. rewrite <- (A3 H). apply B3. rewrite (A3 H). exact H.
  - intros H. rewrite <- (A4 H). apply B4. rewrite (A4 H). exact H.
  - congruence.
  - congruence.
Qed.

(** The three questions keep the slots that were set and leave the
    duration alone. *)
Lemma calm_completar_antes (ev : PendingEvent) :
  calm (completar_antes dp ev)
    (fun ev3 => keeps ev ev3 /\ duration_min ev3 = duration_min ev).
Proof.
  unfold completar_antes.
  eapply calm_bind
    with (Q := fun e => keeps ev e /\ duration_min e = duration_min ev).
  { destruct (truthy_dt (start ev)) eqn:E; cbn [negb].
    - apply calm_ret. split; [apply keeps_refl | reflexivity].
    - eapply calm_bind; [apply calm_pedir_fecha_hora|]. intros v _.
      apply calm_ret. split; [|reflexivity]. unfold keeps. cbn. rewrite E.
      repeat split; auto; discriminate. }
  intros ev1 [K1 D1].
  eapply calm_bind
    with (Q := fun e => keeps ev1 e /\ duration_min e = duration_min ev1).
  { destruct (truthy_str (title ev1)) eqn:E; cbn [negb].
    - apply calm_ret. split; [apply keeps_refl | reflexivity].
    - eapply calm_bind; [apply calm_pedir_titulo|]. intros v _.
      apply calm_ret. split; [|reflexivity]. unfold keeps. cbn. rewrite E.
      repeat split; auto; discriminate. }
  intros ev2 [K2 D2].
  eapply calm_bind
    with (Q := fun e => keeps ev2 e /\ duration_min e = duration_min ev2).
  { destruct (truthy_str (location ev2)) eqn:E; cbn [negb].
    - apply calm_ret. split; [apply keeps_refl | reflexivity].
    - eapply calm_bind; [apply calm_pedir_lugar|]. intros v _.
      apply calm_ret. split; [|reflexivity]. unfold keeps. cbn. rewrite E.
      repeat split; auto; discriminate. }
  intros ev3 [K3 D3]. apply calm_ret. split.
  - exact (keeps_trans _ _ _ K1 (keeps_trans _ _ _ K2 K3)).
  - congruence.
Qed.

(** The fallback pass never raises, only talks to the console, keeps
    the slots that were set and leaves a duration in the draft. *)
Lemma calm_completar_datos (ev : PendingEvent) :
  calm (completar_datos dp ev) (completed ev).
Proof.
  intros w. rewrite completar_datos_antes. revert w.
  eapply calm_bind; [apply calm_completar_antes|].
  cbv beta. intros ev3 [K3 D3].
  eapply calm_bind with (Q := completed ev3).
  { destruct (truthy_int (duration_min ev3)) eqn:E; cbn [negb].
    - apply calm_ret. split; [exact E | apply keeps_refl].
    - eapply calm_bind; [apply calm_pedir_duracion|]. intros v _.
      apply calm_ret. split.
      + cbn. destruct (truthy_int v) eqn:Ev; [exact Ev | reflexivity].
      + unfold keeps. cbn. rewrite E. repeat split; auto; discriminate. }
  intros ev4 [D4 K4]. apply calm_ret. split; [exact D4|].
  exact (keeps_trans _ _ _ K3 K4).
Qed.

Lemma prompts_completar_datos (ev : PendingEvent) :
  prompts (completar_datos dp ev).
Proof.
  intros w. rewrite completar_datos_antes. revert w.
  apply prompts_bind; [apply prompts_completar_antes|]. intros ev3.
  apply prompts_bind; [|intros ev4; apply prompts_ret].
  destruct (negb (truthy_int (duration_min ev3))); [|apply prompts_ret].
  apply prompts_bind; [apply prompts_pedir_duracion|].
  intros v. apply prompts_ret.
Qed.

(** What the pass returns, in both readings at once. *)
Lemma completar_datos_run (ev : PendingEvent) (w : world) :
  exists ev' w' tr,
    completar_datos dp ev w = (inl ev', w') /\ completed ev ev' /\
    trace w' = trace w ++ tr /\ Forall prompting tr /\
    (List.length (stdin w') <= List.length (stdin w))%nat.
Proof.
  destruct (calm_completar_datos ev w) as [ev' [w' [tr [E [Hc [T [_ [_ L]]]]]]]].
  destruct (prompts_completar_datos ev w) as [ev2 [w2 [tr2 [E2 [T2 F2]]]]].
  rewrite E in E2. injection E2 as <- <-.
  rewrite T in T2. apply app_inv_head in T2. subst tr2.
  exists ev', w', tr. auto.
Qed.

Lemma confirmar_evento_spec (ev : PendingEvent) (w : world) :
  confirmar_evento ev w
    = (inl (confirms (reply w)),
       World (tl (stdin w)) (ticks w) (trace w ++ confirmacion ev)).
Proof.
  unfold confirmar_evento, bind, print, emit, confirmacion, RESUMEN,
    PREGUNTA_CONFIRMA.
  rewrite solicitar_spec. unfold ret, reply, confirms.
  cbn [stdin ticks trace]. rewrite <- app_assoc. reflexivity.
Qed.

Lemma confirmacion_console (ev : PendingEvent) :
  Forall console (confirmacion ev).
Proof. repeat constructor. Qed.

Lemma confirmacion_not_help (ev : PendingEvent) :
  ~ In (Printed (Line (py AYUDA))) (confirmacion ev).
Proof. intros [H | [H | []]]; discriminate. Qed.

(** The draft from which [create_event] can build its request. *)
Lemma create_event_body_cases (ev : PendingEvent) :
  match start ev with
  | None => create_event_body ev = inr AttributeError
  | Some s =>
      if end_fits ev then exists body, create_event_body ev = inl body
      else create_event_body ev = inr OverflowError
  end.
Proof.
  unfold create_event_body, end_fits, add_timedelta.
  destruct (start ev) as [s|]; [|reflexivity].
  destruct (end_ ev) as [e|]; [eexists; reflexivity|].
  destruct (in_years (shift (astimezone s) 0 (duration_or_default ev)));
    [eexists; reflexivity | reflexivity].
Qed.

(** The [try] block: one insert, then the report and the mail; or the
    report of what [create_event] raised before sending anything. *)
Lemma crear_y_avisar_spec (ev : PendingEvent) (w : world) :
  match create_event_body ev with
  | inl body =>
      exists tr,
        crear_y_avisar calendar_insert notify ev w
          = (inl tt,
             World (stdin w) (ticks w) (trace w ++ Inserted body :: tr)) /\
        Forall reporting tr
  | inr e =>
      crear_y_avisar calendar_insert notify ev w
        = (inl tt,
           World (stdin w) (ticks w)
             (trace w ++ [Printed (ErrorCreando e)]))
  end.
Proof.
  unfold crear_y_avisar, create_event, try_except, bind.
  destruct (create_event_body ev) as [body|e]; [|reflexivity].
  unfold emit. cbn [stdin ticks trace].
  destruct (calendar_insert body) as [link|].
  - unfold ret, print, emit, flujo_notificacion. cbn [stdin ticks trace].
    destruct (negb (truthy_str notify)).
    + eexists. split.
      * unfold ret. rewrite <- !app_assoc. reflexivity.
      * repeat constructor.
    + destruct notify as [to|].
      * eexists. split.
        -- unfold emit. cbn [stdin ticks trace].
           rewrite <- !app_assoc. reflexivity.
        -- repeat constructor.
      * eexists. split.
        -- unfold ret. rewrite <- !app_assoc. reflexivity.
        -- repeat constructor.
  - unfold raise, print, emit. cbn [stdin ticks trace].
    eexists. split.
    + rewrite <- !app_assoc. reflexivity.
    + repeat constructor.
Qed.

Let turn := main_body dp clock calendar_insert calendar_list notify.

Lemma turn_create (texto : str) (w : world) :
  detect_intent dp texto = create ->
  turn texto w = main_create dp calendar_insert notify texto w.
Proof.
  intros H. unfold turn, main_body. rewrite H. cbn [is_list_intent].
  unfold bind at 1. unfold ret at 1. reflexivity.
Qed.

Lemma turn_unknown (texto : str) (w : world) :
  detect_intent dp texto = unknown ->
  turn texto w = main_unknown dp calendar_insert notify texto w.
Proof.
  intros H. unfold turn, main_body. rewrite H. cbn [is_list_intent].
  unfold bind at 1. unfold ret at 1. reflexivity.
Qed.

(** What follows a confirmation: the report of an end out of range, or
    the insert and its report. *)
Lemma confirmed_cases (ev : PendingEvent) (w2 : world) :
  truthy_dt (start ev) = true ->
  (end_fits ev = false /\
   create_event_body ev = inr OverflowError /\
   crear_y_avisar calendar_insert notify ev w2
     = (inl tt, World (stdin w2) (ticks w2)
                  (trace w2 ++ [Printed (ErrorCreando OverflowError)])))
  \/
  (end_fits ev = true /\
   exists body tr3,
     create_event_body ev = inl body /\ Forall reporting tr3 /\
     crear_y_avisar calendar_insert notify ev w2
       = (inl tt, World (stdin w2) (ticks w2)
                    (trace w2 ++ Inserted body :: tr3))).
Proof.
  intros Hs. pose proof (create_event_body_cases ev) as Hb.
  pose proof (crear_y_avisar_spec ev w2) as Hc.
  destruct (start ev) as [s|]; [|discriminate].
  destruct (end_fits ev).
  - right. split; [reflexivity|]. destruct Hb as [body Hb].
    rewrite Hb in Hc. destruct Hc as [tr3 [E3 R3]].
    exists body, tr3. auto.
  - left. split; [reflexivity|]. rewrite Hb in Hc. auto.
Qed.

(** The four ways in which the create branch ends. *)
Lemma main_create_cases (texto : str) (w : world) :
  exists ev w1 tr1,
    completar_datos dp (parse_event_from_text dp texto) w = (inl ev, w1) /\
    completed (parse_event_from_text dp texto) ev /\
    trace w1 = trace w ++ tr1 /\ Forall prompting tr1 /\
    (List.length (stdin w1) <= List.length (stdin w))%nat /\
    let out := main_create dp calendar_insert notify texto w in
    let w2 := World (tl (stdin w1)) (ticks w1)
                (trace w1 ++ confirmacion ev) in
    ((truthy_dt (start ev) && truthy_str (title ev) = false /\
      out = (inl tt, World (stdin w1) (ticks w1)
                       (trace w1 ++ [Printed (Line (py FALTAN_DATOS))])))
     \/
     (truthy_dt (start ev) && truthy_str (title ev) = true /\
      confirms (reply w1) = false /\
      out = (inl tt, World (stdin w2) (ticks w2)
                       (trace w2 ++ [Printed (Line (py "Cancelado."))])))
     \/
     (truthy_dt (start ev) && truthy_str (title ev) = true /\
      confirms (reply w1) = true /\ end_fits ev = false /\
      create_event_body ev = inr OverflowError /\
      out = (inl tt, World (stdin w2) (ticks w2)
                       (trace w2 ++ [Printed (ErrorCreando OverflowError)])))
     \/
     (truthy_dt (start ev) && truthy_str (title ev) = true /\
      confirms (reply w1) = true /\ end_fits ev = true /\
      exists body tr3,
        create_event_body ev = inl body /\ Forall reporting tr3 /\
        out = (inl tt, World (stdin w2) (ticks w2)
                         (trace w2 ++ Inserted body :: tr3)))).
Proof.
  destruct (completar_datos_run (parse_event_from_text dp texto) w)
    as [ev [w1 [tr1 [E [Hc [T1 [C1 L1]]]]]]].
  exists ev, w1, tr1. repeat (split; [assumption|]).
  cbv zeta. unfold main_create. rewrite (bind_inl _ E).
  destruct (truthy_dt (start ev)) eqn:Hs; cbn [negb orb andb].
  2:{ left. split; [reflexivity|]. reflexivity. }
  destruct (truthy_str (title ev)) eqn:Ht; cbn [negb orb andb].
  2:{ left. split; [reflexivity|]. reflexivity. }
  right.
  rewrite (bind_inl _ (confirmar_evento_spec ev w1)).
  destruct (confirms (reply w1)) eqn:Hr; cbn [negb].
  - right.
    destruct (confirmed_cases ev
                (World (tl (stdin w1)) (ticks w1)
                   (trace w1 ++ confirmacion ev)) Hs)
      as [[Hf [Hb Ho]] | [Hf [body [tr3 [Hb [R3 Ho]]]]]].
    + left. repeat (split; [assumption || reflexivity|]). exact Ho.
    + right. repeat (split; [assumption || reflexivity|]).
      exists body, tr3. auto.
  - left. split; [reflexivity|]. split; [reflexivity|]. reflexivity.
Qed.

(** The ways in which the branch of the unknown intent ends. *)
Lemma main_unknown_cases (texto : str) (w : world) :
  let out := main_unknown dp calendar_insert notify texto w in
  (dp texto = None /\
   out = (inl tt, World (stdin w) (ticks w)
                    (trace w ++ [Printed (Line (py AYUDA))])))
  \/
  (exists dt ev w1 tr1,
     dp texto = Some dt /\
     completar_datos dp (parse_event_from_text dp texto) w = (inl ev, w1) /\
     completed (parse_event_from_text dp texto) ev /\
     start ev = Some dt /\
     trace w1 = trace w ++ tr1 /\ Forall prompting tr1 /\
     (List.length (stdin w1) <= List.length (stdin w))%nat /\
     let w2 := World (tl (stdin w1)) (ticks w1)
                 (trace w1 ++ confirmacion ev) in
     ((truthy_str (title ev) = false /\
       out = (inl tt, World (stdin w1) (ticks w1)
                        (trace w1 ++ [Printed (Line (py AYUDA))])))
      \/
      (truthy_str (title ev) = true /\ confirms (reply w1) = false /\
       out = (inl tt, World (stdin w2) (ticks w2)
                        (trace w2 ++ [Printed (Line (py AYUDA))])))
      \/
      (truthy_str (title ev) = true /\ confirms (reply w1) = true /\
       end_fits ev = false /\ create_event_body ev = inr OverflowError /\
       out = (inl tt, World (stdin w2) (ticks w2)
                        (trace w2 ++ [Printed (ErrorCreando OverflowError)])))
      \/
      (truthy_str (title ev) = true /\ confirms (reply w1) = true /\
       end_fits ev = true /\
       exists body tr3,
         create_event_body ev = inl body /\ Forall reporting tr3 /\
         out = (inl tt, World (stdin w2) (ticks w2)
                          (trace w2 ++ Inserted body :: tr3))))).
Proof.
  intros out. assert (Hout : out = main_unknown dp calendar_insert notify texto w)
    by reflexivity. clearbody out.
  unfold main_unknown in Hout.
  pose proof (start_of_parse dp texto) as Hst.
  destruct (dp texto) as [dt|] eqn:Edp.
  2:{ left. split; [reflexivity|]. rewrite Hout, Hst. reflexivity. }
  right.
  destruct (completar_datos_run (parse_event_from_text dp texto) w)
    as [ev [w1 [tr1 [E [Hc [T1 [C1 L1]]]]]]].
  assert (Hsev : start ev = Some dt).
  { destruct Hc as [_ [K _]]. rewrite K; [exact Hst|]. rewrite Hst. reflexivity. }
  exists dt, ev, w1, tr1. repeat (split; [assumption || reflexivity|]).
  cbv zeta.
  rewrite Hst in Hout. cbn [truthy_dt] in Hout. unfold bind at 1 in Hout.
  rewrite (bind_inl _ E) in Hout. rewrite Hsev in Hout.
  cbn [truthy_dt andb] in Hout.
  destruct (truthy_str (title ev)) eqn:Ht; cbn [andb].
  2:{ left. split; [reflexivity|]. rewrite Hout. reflexivity. }
  right.
  rewrite (bind_inl _ (confirmar_evento_spec ev w1)) in Hout.
  destruct (confirms (reply w1)) eqn:Hr.
  - right.
    assert (Hs : truthy_dt (start ev) = true) by (rewrite Hsev; reflexivity).
    destruct (confirmed_cases ev
                (World (tl (stdin w1)) (ticks w1)
                   (trace w1 ++ confirmacion ev)) Hs)
      as [[Hf [Hb Ho]] | [Hf [body [tr3 [Hb [R3 Ho]]]]]].
    + left. repeat (split; [assumption || reflexivity|]).
      rewrite (bind_inl _ Ho) in Hout. rewrite Hout. reflexivity.
    + right. repeat (split; [assumption || reflexivity|]).
      exists body, tr3. repeat (split; [assumption|]).
      rewrite (bind_inl _ Ho) in Hout. rewrite Hout. reflexivity.
  - left. split; [reflexivity|]. split; [reflexivity|].
    rewrite Hout. reflexivity.
Qed.


(** ** Every insert of a session comes from a complete draft *)

Lemma safe_calm (A : Type) (m : IO A) (P : A -> Prop) : calm m P -> safe m.
Proof.
  intros H w. destruct (H w) as [a [w1 [tr [E [_ [T [C [_ L]]]]]]]].
  exists tr. rewrite E. cbn [snd]. split; [exact T|]. split; [|exact L].
  rewrite (console_inserts tr C). constructor.
Qed.

Lemma safe_bind (A B : Type) (m : IO A) (f : A -> IO B) :
  safe m -> (forall a, safe (f a)) -> safe (bind m f).
Proof.
  intros Hm Hf w. destruct (Hm w) as [tr1 [T1 [F1 L1]]].
  unfold bind. destruct (m w) as [[a|e] w1]; cbn [snd] in *.
  - destruct (Hf a w1) as [tr2 [T2 [F2 L2]]].
    exists (tr1 ++ tr2). split; [rewrite T2, T1, app_assoc; reflexivity|].
    split; [|lia]. rewrite inserts_app. apply Forall_app. split; assumption.
  - exists tr1. auto.
Qed.

Lemma complete_body_of (ev : PendingEvent) (body : event_body) :
  create_event_body ev = inl body ->
  truthy_str (title ev) = true -> complete_body body.
Proof.
  intros Hb Ht. unfold complete_body.
  destruct (start ev) as [s|] eqn:Hs.
  - exists ev, s. auto.
  - unfold create_event_body in Hb. rewrite Hs in Hb. discriminate.
Qed.

(** The inserts of a trace made of prompts, the confirmation and what a
    create flow adds. *)
Lemma flow_inserts (tr1 : list io_event) (ev : PendingEvent)
    (rest : list io_event) :
  Forall prompting tr1 ->
  inserts (tr1 ++ confirmacion ev ++ rest) = inserts rest.
Proof.
  intros C1. rewrite !inserts_app.
  rewrite (console_inserts tr1 (prompting_all_console tr1 C1)).
  reflexivity.
Qed.

Lemma flow_queries (tr1 : list io_event) (ev : PendingEvent)
    (rest : list io_event) :
  Forall prompting tr1 ->
  queries (tr1 ++ confirmacion ev ++ rest) = queries rest.
Proof.
  intros C1. rewrite !queries_app.
  rewrite (console_queries tr1 (prompting_all_console tr1 C1)).
  reflexivity.
Qed.

Lemma safe_main_create (texto : str) :
  safe (main_create dp calendar_insert notify texto).
Proof.
  intros w.
  destruct (main_create_cases texto w)
    as [ev [w1 [tr1 [E [Hc [T1 [C1 [L1 H]]]]]]]].
  cbv zeta in H.
  destruct H as [[Hm Ho] | [[Hm [Hr Ho]]
                           | [[Hm [Hr [Hf [Hb Ho]]]]
                             | [Hm [Hr [Hf [body [tr3 [Hb [R3 Ho]]]]]]]]]];
    rewrite Ho; cbn [snd trace stdin].
  - exists (tr1 ++ [Printed (Line (py FALTAN_DATOS))]).
    split; [rewrite T1, app_assoc; reflexivity|]. split; [|exact L1].
    rewrite inserts_app, (console_inserts tr1 (prompting_all_console _ C1)).
    constructor.
  - exists (tr1 ++ confirmacion ev ++ [Printed (Line (py "Cancelado."))]).
    split; [rewrite T1, <- !app_assoc; reflexivity|].
    split; [|pose proof (tl_length (stdin w1)); lia].
    rewrite (flow_inserts tr1 ev _ C1). constructor.
  - exists (tr1 ++ confirmacion ev ++ [Printed (ErrorCreando OverflowError)]).
    split; [rewrite T1, <- !app_assoc; reflexivity|].
    split; [|pose proof (tl_length (stdin w1)); lia].
    rewrite (flow_inserts tr1 ev _ C1). constructor.
  - exists (tr1 ++ confirmacion ev ++ Inserted body :: tr3).
    split; [rewrite T1, <- !app_assoc; reflexivity|].
    split; [|pose proof (tl_length (stdin w1)); lia].
    rewrite (flow_inserts tr1 ev _ C1). cbn [inserts].
    rewrite (proj1 (reporting_inserts tr3 R3)). constructor; [|constructor].
    apply andb_true_iff in Hm. destruct Hm as [_ Ht].
    exact (complete_body_of ev body Hb Ht).
Qed.

Lemma safe_main_unknown (texto : str) :
  safe (main_unknown dp calendar_insert notify texto).
Proof.
  intros w. pose proof (main_unknown_cases texto w) as H. cbv zeta in H.
  destruct H as [[_ Ho] | [dt [ev [w1 [tr1 [_ [E [Hc [Hs [T1 [C1 [L1 H]]]]]]]]]]]].
  - rewrite Ho. cbn [snd trace stdin].
    exists [Printed (Line (py AYUDA))].
    split; [reflexivity|]. split; [constructor | lia].
  - destruct H as [[Ht Ho] | [[Ht [Hr Ho]]
                             | [[Ht [Hr [Hf [Hb Ho]]]]
                               | [Ht [Hr [Hf [body [tr3 [Hb [R3 Ho]]]]]]]]]];
      rewrite Ho; cbn [snd trace stdin].
    + exists (tr1 ++ [Printed (Line (py AYUDA))]).
      split; [rewrite T1, app_assoc; reflexivity|]. split; [|exact L1].
      rewrite inserts_app, (console_inserts tr1 (prompting_all_console _ C1)).
      constructor.
    + exists (tr1 ++ confirmacion ev ++ [Printed (Line (py AYUDA))]).
      split; [rewrite T1, <- !app_assoc; reflexivity|].
      split; [|pose proof (tl_length (stdin w1)); lia].
      rewrite (flow_inserts tr1 ev _ C1). constructor.
    + exists (tr1 ++ confirmacion ev ++ [Printed (ErrorCreando OverflowError)]).
      split; [rewrite T1, <- !app_assoc; reflexivity|].
      split; [|pose proof (tl_length (stdin w1)); lia].
      rewrite (flow_inserts tr1 ev _ C1). constructor.
    + exists (tr1 ++ confirmacion ev ++ Inserted body :: tr3).
      split; [rewrite T1, <- !app_assoc; reflexivity|].
      split; [|pose proof (tl_length (stdin w1)); lia].
      rewrite (flow_inserts tr1 ev _ C1). cbn [inserts].
      rewrite (proj1 (reporting_inserts tr3 R3)). constructor; [|constructor].
      exact (complete_body_of ev body Hb Ht).
Qed.

Lemma safe_list_events (a b : datetime) : safe (list_events calendar_list a b).
Proof.
  intros w. unfold list_events, bind, emit, say, print, emit, raise, ret.
  cbn [stdin ticks trace].
  destruct (calendar_list (astimezone a) (astimezone b)) as [[|i l]|];
    cbn [snd trace stdin]; eexists;
    (split; [rewrite <- ?app_assoc; reflexivity|]);
    (split; [repeat constructor | lia]).
Qed.

Lemma safe_ret (A : Type) (a : A) : safe (ret a).
Proof. apply (safe_calm A (ret a) (fun _ => True)). apply calm_ret. exact I. Qed.

Lemma safe_add_days (d : datetime) (n : Z) : safe (add_days d n).
Proof.
  intros w. exists []. unfold add_days.
  destruct (add_timedelta d n 0); unfold ret, raise; cbn [snd trace stdin];
    rewrite app_nil_r; (split; [reflexivity|]); (split; [constructor | lia]).
Qed.

Lemma safe_main_list (i : intent) (texto : str) :
  safe (main_list dp clock calendar_list i texto).
Proof.
  assert (K : forall a n,
             safe (end_ <- add_days a n ;;
                   list_events calendar_list a end_ ;;; ret true)).
  { intros a n. apply safe_bind; [apply safe_add_days|]. intros e.
    apply safe_bind; [apply safe_list_events | intros; apply safe_ret]. }
  unfold main_list. apply safe_bind.
  - intros w. exists []. unfold datetime_now. cbn [snd trace stdin].
    rewrite app_nil_r. split; [reflexivity|]. split; [constructor | lia].
  - intros now.
    destruct i; try apply safe_ret; try apply K.
    + apply safe_bind; [apply safe_add_days|]. intros t. apply K.
    + destruct (parse_datetime_es dp texto); [apply K | apply safe_ret].
Qed.

Lemma safe_main_body (texto : str) : safe (turn texto).
Proof.
  unfold turn, main_body. apply safe_bind.
  - destruct (is_list_intent (detect_intent dp texto));
      [apply safe_main_list | apply safe_ret].
  - intros [|]; [apply safe_ret|].
    destruct (detect_intent dp texto);
      try apply safe_main_unknown; apply safe_main_create.
Qed.

Lemma safe_main_loop (n : nat) :
  safe (main_loop dp clock calendar_insert calendar_list notify n).
Proof.
  induction n as [|n IH]; simpl.
  - apply safe_ret.
  - apply safe_bind; [exact (safe_calm _ _ _ (calm_solicitar _))|].
    intros texto. destruct (negb (nonempty texto) || is_salir texto).
    + exact (safe_calm _ _ _ (calm_print _)).
    + apply safe_bind; [apply safe_main_body | intros; exact IH].
Qed.

Lemma safe_main : safe (main dp clock calendar_insert calendar_list notify).
Proof.
  unfold main.
  repeat (apply safe_bind; [exact (safe_calm _ _ _ (calm_print _)) | intros _]).
  intros w. apply safe_main_loop.
Qed.

End Session.

(* ================================================================== *)
(** * The gates before the calendar *)

Lemma app_one_not_self (A : Type) (l : list A) (x : A) : l <> l ++ [x].
Proof.
  intros E. apply (f_equal (@List.length A)) in E.
  rewrite length_app in E. simpl in E. lia.
Qed.

Lemma list_events_inserts
    (calendar_list : datetime -> datetime -> option (list item))
    (a b : datetime) (w : world) :
  inserts (trace (snd (list_events calendar_list a b w))) = inserts (trace w).
Proof.
  unfold list_events, bind, emit, say, print, emit, raise. simpl.
  destruct (calendar_list (astimezone a) (astimezone b)) as [[|i l]|]; simpl;
    rewrite ?inserts_app; simpl; rewrite ?app_nil_r; reflexivity.
Qed.

Section Gates.

Variable dp : str -> option datetime.
Variable clock : nat -> Z.
Variable calendar_insert : event_body -> option str.
Variable calendar_list : datetime -> datetime -> option (list item).
Variable notify : option str.

Let turn := main_body dp clock calendar_insert calendar_list notify.
Let session := main dp clock calendar_insert calendar_list notify.

Lemma add_days_bind (B : Type) (d : datetime) (n : Z) (f : datetime -> IO B)
    (w : world) :
  bind (add_days d n) f w
    = match add_timedelta d n 0 with
      | Some r => f r w
      | None => (inr OverflowError, w)
      end.
Proof. unfold bind, add_days. destruct (add_timedelta d n 0); reflexivity. Qed.

(** The list branch creates nothing; when it falls through it has done
    nothing but read the clock, and the resolver had found no date. *)
Lemma main_list_outcome (i : intent) (texto : str) (w : world) :
  is_list_intent i = true ->
  let out := main_list dp clock calendar_list i texto w in
  inserts (trace (snd out)) = inserts (trace w) /\
  (fst out = inl false ->
     dp texto = None /\
     snd out = World (stdin w) (S (ticks w)) (trace w)).
Proof.
  intros Hi. cbv zeta.
  set (w0 := World (stdin w) (S (ticks w)) (trace w)).
  set (now := of_instant TZ (clock (ticks w))).
  assert (E : main_list dp clock calendar_list i texto w
              = (fun now => _) now w0) by reflexivity.
  cbv beta in E.
  assert (K : forall a n,
             let out := bind (add_days a n)
                          (fun e => bind (list_events calendar_list a e)
                                      (fun _ => ret true)) w0 in
             inserts (trace (snd out)) = inserts (trace w) /\
             (fst out = inl false ->
                dp texto = None /\ snd out = w0)).
  { intros a n. cbv zeta. rewrite add_days_bind.
    destruct (add_timedelta a n 0) as [e|];
      [|split; [reflexivity | intros H; discriminate H]].
    unfold bind, ret.
    pose proof (list_events_inserts calendar_list a e w0) as L.
    destruct (list_events calendar_list a e w0) as [[[]|x] w1];
      (split; [exact L | intros H; discriminate H]). }
  rewrite E. clear E.
  destruct i; try discriminate; try apply K.
  - rewrite add_days_bind.
    destruct (add_timedelta (of_instant TZ (clock (ticks w))) 1 0) as [t|];
      [|split; [reflexivity | intros H; discriminate H]].
    apply K.
  - unfold parse_datetime_es. destruct (dp texto); [apply K|].
    split; [reflexivity|]. intros _. split; reflexivity.
Qed.

(** A list request creates nothing. *)
Lemma list_turn_inserts (texto : str) (w : world) :
  is_list_intent (detect_intent dp texto) = true ->
  inserts (trace (snd (turn texto w))) = inserts (trace w).
Proof.
  intros H. unfold turn, main_body. rewrite H.
  destruct (main_list_outcome (detect_intent dp texto) texto w H) as [L F].
  unfold bind at 1.
  destruct (main_list dp clock calendar_list (detect_intent dp texto) texto w)
    as [[[|]|e] w1]; cbn [fst snd] in *; try exact L.
  destruct (F eq_refl) as [Hn ->].
  assert (U : main_unknown dp calendar_insert notify texto
                (World (stdin w) (S (ticks w)) (trace w))
              = (inl tt, World (stdin w) (S (ticks w))
                           (trace w ++ [Printed (Line (py AYUDA))]))).
  { pose proof (main_unknown_cases dp calendar_insert notify texto
                  (World (stdin w) (S (ticks w)) (trace w))) as Hc.
    cbv zeta in Hc. destruct Hc as [[_ Ho] | [dt [ev [w1 [tr1 [Hd _]]]]]].
    - exact Ho.
    - rewrite Hn in Hd. discriminate. }
  destruct (detect_intent dp texto); try discriminate;
    rewrite U; cbn [snd trace]; rewrite inserts_app; apply app_nil_r.
Qed.

(** C5 (as amended).  With a resolver that answers with instants from
    October 2006 to 23 December 9999: in the create flow the draft that
    the fallback pass returns is handed to the calendar if and only if
    its start and its title are present, the user confirms, and the end
    that [create_event] computes (the start plus the duration) is
    still a date.  When start or title is missing the turn ends with
    the message "Faltan datos esenciales" and nothing else; when the
    end is out of range the error is reported and nothing is sent; the
    create flow never raises; and in a whole session every insert comes
    from a draft with a start and a non-empty title. *)
Theorem create_gate (lines : list str) (texto : str) (w : world) :
  modern_resolver dp ->
  Forall complete_body (inserts (trace (snd (session (World lines 0 []))))) /\
  (detect_intent dp texto = create ->
   exists ev w1,
     completar_datos dp (parse_event_from_text dp texto) w = (inl ev, w1) /\
     ((exists body,
         create_event_body ev = inl body /\
         inserts (trace (snd (turn texto w))) = inserts (trace w) ++ [body])
      <-> (truthy_dt (start ev) = true /\ truthy_str (title ev) = true /\
           confirms (reply w1) = true /\ end_fits ev = true)) /\
     (truthy_dt (start ev) = false \/ truthy_str (title ev) = false ->
        turn texto w
          = (inl tt, World (stdin w1) (ticks w1)
                       (trace w1 ++ [Printed (Line (py FALTAN_DATOS))])) /\
        inserts (trace (snd (turn texto w))) = inserts (trace w)) /\
     (truthy_dt (start ev) = true -> truthy_str (title ev) = true ->
      confirms (reply w1) = true -> end_fits ev = false ->
        turn texto w
          = (inl tt, World (tl (stdin w1)) (ticks w1)
                       (trace w1 ++ confirmacion ev
                          ++ [Printed (ErrorCreando OverflowError)])) /\
        inserts (trace (snd (turn texto w))) = inserts (trace w)) /\
     fst (turn texto w) = inl tt).
Proof.
  intros _. split.
  { destruct (safe_main dp clock calendar_insert calendar_list notify
                (World lines 0 [])) as [tr [T [F _]]].
    unfold session. rewrite T. exact F. }
  intros Hi. unfold turn. rewrite (turn_create dp clock calendar_insert
                                     calendar_list notify texto w Hi).
  destruct (main_create_cases dp calendar_insert notify texto w)
    as [ev [w1 [tr1 [E [Hc [T1 [C1 [L1 H]]]]]]]].
  exists ev, w1. split; [exact E|]. cbv zeta in H.
  destruct H as [[Hm Ho] | [[Hm [Hr Ho]]
                           | [[Hm [Hr [Hf [Hb Ho]]]]
                             | [Hm [Hr [Hf [body [tr3 [Hb [R3 Ho]]]]]]]]]];
    rewrite Ho; cbn [fst snd trace stdin ticks].
  - assert (Hins : inserts (trace w1 ++ [Printed (Line (py FALTAN_DATOS))])
                   = inserts (trace w)).
    { rewrite T1, !inserts_app,
        (console_inserts tr1 (prompting_all_console _ C1)). simpl.
      rewrite !app_nil_r. reflexivity. }
    split; [|split; [|split; [|reflexivity]]].
    + rewrite Hins. split.
      * intros [body [_ Hb]]. destruct (app_one_not_self _ _ _ Hb).
      * intros [Hs [Ht _]]. rewrite Hs, Ht in Hm. discriminate.
    + intros _. split; [reflexivity | exact Hins].
    + intros Hs Ht. rewrite Hs, Ht in Hm. discriminate.
  - apply andb_true_iff in Hm. destruct Hm as [Hs Ht].
    assert (Hins : inserts ((trace w1 ++ confirmacion ev)
                              ++ [Printed (Line (py "Cancelado."))])
                   = inserts (trace w)).
    { rewrite T1, <- !app_assoc, inserts_app, (flow_inserts tr1 ev _ C1).
      simpl. apply app_nil_r. }
    split; [|split; [|split; [|reflexivity]]].
    + rewrite Hins. split.
      * intros [body [_ Hb]]. destruct (app_one_not_self _ _ _ Hb).
      * intros [_ [_ [Hr' _]]]. rewrite Hr in Hr'. discriminate.
    + intros [H | H]; [rewrite Hs in H | rewrite Ht in H]; discriminate.
    + intros _ _ Hr'. rewrite Hr in Hr'. discriminate.
  - apply andb_true_iff in Hm. destruct Hm as [Hs Ht].
    assert (Hins : inserts ((trace w1 ++ confirmacion ev)
                              ++ [Printed (ErrorCreando OverflowError)])
                   = inserts (trace w)).
    { rewrite T1, <- !app_assoc, inserts_app, (flow_inserts tr1 ev _ C1).
      simpl. apply app_nil_r. }
    split; [|split; [|split; [|reflexivity]]].
    + rewrite Hins. split.
      * intros [body [_ Hb']]. destruct (app_one_not_self _ _ _ Hb').
      * intros [_ [_ [_ Hf']]]. rewrite Hf in Hf'. discriminate.
    + intros [H | H]; [rewrite Hs in H | rewrite Ht in H]; discriminate.
    + intros _ _ _ _. split; [|exact Hins].
      rewrite <- app_assoc. reflexivity.
  - apply andb_true_iff in Hm. destruct Hm as [Hs Ht].
    assert (Hins : inserts ((trace w1 ++ confirmacion ev)
                              ++ Inserted body :: tr3)
                   = inserts (trace w) ++ [body]).
    { rewrite T1, <- !app_assoc, inserts_app, (flow_inserts tr1 ev _ C1).
      cbn [inserts]. rewrite (proj1 (reporting_inserts tr3 R3)).
      reflexivity. }
    split; [|split; [|split; [|reflexivity]]].
    + split; [auto|]. intros _. exists body. auto.
    + intros [H | H]; [rewrite Hs in H | rewrite Ht in H]; discriminate.
    + intros _ _ _ Hf'. rewrite Hf in Hf'. discriminate.
Qed.

(** C9 (as amended).  With a resolver that answers with instants from
    October 2006 to 23 December 9999: a turn whose utterance is
    classified as [unknown] ends normally and asks the calendar for no
    list.  When the resolver finds no date in the utterance, the help
    message is printed and nothing else happens.  When it finds one,
    the create flow is tried.  If the draft has a title and the user
    confirms, there is no help message: the event is created, unless
    its end is out of range, which is reported as an error and creates
    nothing.  Otherwise nothing is created and the turn ends with the
    help message. *)
Theorem unknown_intent_outcome (texto : str) (w : world) :
  modern_resolver dp ->
  detect_intent dp texto = unknown ->
  let out := turn texto w in
  fst out = inl tt /\
  queries (trace (snd out)) = queries (trace w) /\
  (dp texto = None ->
     out = (inl tt, World (stdin w) (ticks w)
                      (trace w ++ [Printed (Line (py AYUDA))]))) /\
  (forall dt, dp texto = Some dt ->
     exists ev w1 tr,
       completar_datos dp (parse_event_from_text dp texto) w = (inl ev, w1) /\
       start ev = Some dt /\
       trace (snd out) = trace w ++ tr /\
       (truthy_str (title ev) && confirms (reply w1) = true ->
          ~ In (Printed (Line (py AYUDA))) tr /\
          (end_fits ev = true ->
             exists body,
               create_event_body ev = inl body /\
               inserts (trace (snd out)) = inserts (trace w) ++ [body]) /\
          (end_fits ev = false ->
             In (Printed (ErrorCreando OverflowError)) tr /\
             inserts (trace (snd out)) = inserts (trace w))) /\
       (truthy_str (title ev) && confirms (reply w1) = false ->
          inserts (trace (snd out)) = inserts (trace w) /\
          exists tr0,
            tr = tr0 ++ [Printed (Line (py AYUDA))] /\
            Forall console tr0)).
Proof.
  intros _ Hi. cbv zeta. unfold turn.
  rewrite (turn_unknown dp clock calendar_insert calendar_list notify
             texto w Hi).
  pose proof (main_unknown_cases dp calendar_insert notify texto w) as H.
  cbv zeta in H.
  destruct H as [[Hn Ho] | [dt [ev [w1 [tr1 [Hd [E [Hc [Hs [T1 [C1 [L1 H]]]]]]]]]]]].
  { rewrite Ho. cbn [fst snd trace]. repeat split.
    - rewrite queries_app. simpl. apply app_nil_r.
    - intros dt Hd. rewrite Hn in Hd. discriminate. }
  pose proof (prompting_all_console tr1 C1) as K1.
  destruct H as [[Ht Ho] | [[Ht [Hr Ho]]
                           | [[Ht [Hr [Hf [Hb Ho]]]]
                             | [Ht [Hr [Hf [body [tr3 [Hb [R3 Ho]]]]]]]]]];
    rewrite Ho; cbn [fst snd trace stdin ticks];
    (split; [reflexivity|]); (split; [|split]);
    try (intros Hn; rewrite Hn in Hd; discriminate).
  - rewrite T1, !queries_app, (console_queries tr1 K1). simpl.
    rewrite !app_nil_r. reflexivity.
  - intros dt' Hd'. rewrite Hd in Hd'. injection Hd' as <-.
    exists ev, w1, (tr1 ++ [Printed (Line (py AYUDA))]).
    split; [exact E|]. split; [exact Hs|].
    split; [rewrite T1, app_assoc; reflexivity|]. split.
    + intros Hx. rewrite Ht in Hx. discriminate.
    + intros _. split.
      * rewrite T1, !inserts_app, (console_inserts tr1 K1). simpl.
        rewrite !app_nil_r. reflexivity.
      * exists tr1. split; [reflexivity | exact K1].
  - rewrite T1, <- !app_assoc, queries_app, (flow_queries tr1 ev _ C1).
    simpl. apply app_nil_r.
  - intros dt' Hd'. rewrite Hd in Hd'. injection Hd' as <-.
    exists ev, w1, (tr1 ++ confirmacion ev ++ [Printed (Line (py AYUDA))]).
    split; [exact E|]. split; [exact Hs|].
    split; [rewrite T1, <- !app_assoc; reflexivity|]. split.
    + intros Hx. rewrite Ht, Hr in Hx. discriminate.
    + intros _. split.
      * rewrite T1, <- !app_assoc, inserts_app, (flow_inserts tr1 ev _ C1).
        simpl. apply app_nil_r.
      * exists (tr1 ++ confirmacion ev). split; [rewrite app_assoc; reflexivity|].
        apply Forall_app. split; [exact K1 | apply confirmacion_console].
  - rewrite T1, <- !app_assoc, queries_app, (flow_queries tr1 ev _ C1).
    simpl. apply app_nil_r.
  - intros dt' Hd'. rewrite Hd in Hd'. injection Hd' as <-.
    exists ev, w1,
      (tr1 ++ confirmacion ev ++ [Printed (ErrorCreando OverflowError)]).
    split; [exact E|]. split; [exact Hs|].
    split; [rewrite T1, <- !app_assoc; reflexivity|]. split.
    + intros _. split; [|split].
      * intros Hin. apply in_app_or in Hin. destruct Hin as [Hin | Hin];
          [exact (prompting_not_help tr1 C1 Hin)|].
        apply in_app_or in Hin. destruct Hin as [Hin | Hin];
          [exact (confirmacion_not_help ev Hin)|].
        destruct Hin as [Hin | []]. discriminate.
      * intros Hf'. rewrite Hf in Hf'. discriminate.
      * intros _. split.
        -- apply in_or_app. right. apply in_or_app. right. left. reflexivity.
        -- rewrite T1, <- !app_assoc, inserts_app,
             (flow_inserts tr1 ev _ C1). simpl. apply app_nil_r.
    + intros Hx. rewrite Ht, Hr in Hx. discriminate.
  - rewrite T1, <- !app_assoc, queries_app, (flow_queries tr1 ev _ C1).
    cbn [queries]. rewrite (proj2 (reporting_inserts tr3 R3)).
    apply app_nil_r.
  - intros dt' Hd'. rewrite Hd in Hd'. injection Hd' as <-.
    exists ev, w1, (tr1 ++ confirmacion ev ++ Inserted body :: tr3).
    split; [exact E|]. split; [exact Hs|].
    split; [rewrite T1, <- !app_assoc; reflexivity|]. split.
    + intros _. split; [|split].
      * intros Hin. apply in_app_or in Hin. destruct Hin as [Hin | Hin];
          [exact (prompting_not_help tr1 C1 Hin)|].
        apply in_app_or in Hin. destruct Hin as [Hin | Hin];
          [exact (confirmacion_not_help ev Hin)|].
        destruct Hin as [Hin | Hin]; [discriminate|].
        exact (reporting_not_help tr3 R3 Hin).
      * intros _. exists body. split; [exact Hb|].
        rewrite T1, <- !app_assoc, inserts_app, (flow_inserts tr1 ev _ C1).
        cbn [inserts]. rewrite (proj1 (reporting_inserts tr3 R3)).
        reflexivity.
      * intros Hf'. rewrite Hf in Hf'. discriminate.
    + intros Hx. rewrite Ht, Hr in Hx. discriminate.
Qed.


End Gates.

(* ================================================================== *)
(** * The default duration *)

Lemma instant_add_minutes (d : datetime) (n : Z) :
  instant (shift d 0 n) = (instant d + n * MINUTE)%Z.
Proof.
  unfold instant, shift. cbn [ordinal micros utcoffset].
  pose proof (Z.div_mod (micros d + n * MINUTE) DAY) as H.
  assert (H0 : DAY <> 0%Z) by (pose proof DAY_pos; lia).
  specialize (H H0).
  set (q := ((micros d + n * MINUTE) / DAY)%Z) in *.
  set (r := ((micros d + n * MINUTE) mod DAY)%Z) in *.
  lia.
Qed.

(** What [pedir_duracion] returns and leaves. *)
Lemma pedir_duracion_spec (w : world) :
  exists q,
    pedir_duracion w
      = (inl (match int (reply w) with
              | Some v => if (0 <? v)%Z then Some v else None
              | None => None
              end),
         World (tl (stdin w)) (ticks w) (trace w ++ [Asked q])).
Proof.
  unfold pedir_duracion. eexists.
  rewrite (bind_inl _ (solicitar_spec _ w)).
  destruct (reply w) as [|c r] eqn:E; [reflexivity|]. cbn [nonempty negb].
  destruct (int (c :: r)); reflexivity.
Qed.

Section Duration.

Variable dp : str -> option datetime.

Lemma pedir_duracion_positive (w : world) (v : Z) :
  fst (pedir_duracion w) = inl (Some v) -> truthy_int (Some v) = true.
Proof.
  destruct (pedir_duracion_spec w) as [q ->]. cbn [fst].
  destruct (int (reply w)) as [n|]; [|discriminate].
  destruct (0 <? n)%Z eqn:E; [|discriminate].
  intros H. injection H as <-.
  apply Z.ltb_lt in E. cbn. apply negb_true_iff. apply Z.eqb_neq. lia.
Qed.

(** C6 (as amended).  The fallback pass writes the default into the
    draft: after it [duration_min] is always set and not zero, and a
    duration that was set is kept.  On a draft whose duration is unset or
    zero, whatever its other slots, the field becomes the answer to the
    duration question when the answer reads as a positive integer, and
    60 otherwise; the question comes after those for the date, the title
    and the place, which leave the duration alone.  [create_event], when
    [end] is absent, sets the end [duration_min] minutes after the start
    (60 when the field is unset or zero), and raises [OverflowError]
    when that end is beyond year 9999. *)
Theorem default_duration (ev : PendingEvent) (w : world) :
  (exists ev' w',
     completar_datos dp ev w = (inl ev', w') /\
     truthy_int (duration_min ev') = true /\
     (truthy_int (duration_min ev) = true ->
        duration_min ev' = duration_min ev)) /\
  (truthy_int (duration_min ev) = false ->
     exists ev3 w3,
       completar_antes dp ev w = (inl ev3, w3) /\
       keeps ev ev3 /\ duration_min ev3 = duration_min ev /\
       completar_datos dp ev w
         = (inl (set_duration_min ev3
                   (Some (respuesta_duracion (reply w3)))),
            snd (pedir_duracion w3))) /\
  (forall s, start ev = Some s -> modern (instant s) -> end_ ev = None ->
     (end_fits ev = true ->
        exists body,
          create_event_body ev = inl body /\
          body_start body = astimezone s /\
          body_end body = shift (astimezone s) 0 (duration_or_default ev) /\
          instant (body_end body)
            = (instant (body_start body)
               + duration_or_default ev * MINUTE)%Z) /\
     (end_fits ev = false -> create_event_body ev = inr OverflowError) /\
     (truthy_int (duration_min ev) = true ->
        duration_min ev = Some (duration_or_default ev)) /\
     (truthy_int (duration_min ev) = false ->
        duration_or_default ev = DEFAULT_DURATION_MIN)).
Proof.
  split; [|split].
  - destruct (calm_completar_datos dp ev w)
      as [ev' [w' [tr [E [[D [_ [_ [_ [K _]]]]] _]]]]].
    exists ev', w'. auto.
  - intros Hd.
    destruct (calm_completar_antes dp ev w)
      as [ev3 [w3 [tr [E [[K D3] _]]]]].
    exists ev3, w3. split; [exact E|]. split; [exact K|].
    split; [exact D3|].
    rewrite completar_datos_antes, (bind_inl _ E).
    rewrite D3, Hd. cbn [negb].
    destruct (pedir_duracion_spec w3) as [q Hq].
    rewrite bind_assoc, (bind_inl _ Hq). rewrite Hq. cbn [snd].
    unfold respuesta_duracion.
    destruct (int (reply w3)) as [v|]; [|reflexivity].
    destruct (0 <? v)%Z eqn:Hv; [|reflexivity].
    assert (T : truthy_int (Some v) = true).
    { apply Z.ltb_lt in Hv. cbn. apply negb_true_iff, Z.eqb_neq. lia. }
    unfold bind, ret. rewrite T. reflexivity.
  - intros s Hs _ He. split; [|split].
    + intros Hf. unfold create_event_body, add_timedelta. rewrite Hs, He.
      unfold end_fits in Hf. rewrite Hs, He in Hf. rewrite Hf.
      eexists. split; [reflexivity|]. cbn [body_start body_end].
      split; [reflexivity|]. split; [reflexivity|].
      apply instant_add_minutes.
    + intros Hf. unfold create_event_body, add_timedelta. rewrite Hs, He.
      unfold end_fits in Hf. rewrite Hs, He in Hf. rewrite Hf. reflexivity.
    + unfold duration_or_default, truthy_int.
      destruct (duration_min ev) as [n|].
      * destruct (n =? 0)%Z; split; intros H; try discriminate; reflexivity.
      * split; intros H; try discriminate; reflexivity.
Qed.

End Duration.

(* ================================================================== *)
(** * Examples of sessions *)

(** "crear cita con Ana", with a resolver that finds 2024-06-11 15:00:
    the place and the duration are asked for, then the confirmation.
    With a duration that takes the end beyond year 9999 the error is
    reported and nothing is sent. *)
Lemma create_gate_witness :
  let turn := main_body resolver_cita clock_2330 insert_ok list_empty None in
  let w := World [py "oficina"; py ""; py "s"] 0 [] in
  let w' := World [py "oficina"; py "99999999999999"; py "s"] 0 [] in
  detect_intent resolver_cita (py "crear cita con Ana") = create /\
  fst (turn (py "crear cita con Ana") w) = inl tt /\
  inserts (trace (snd (turn (py "crear cita con Ana") w)))
    = [mkBody (Some (py "Ana")) (py "oficina") []
         (local 2024 6 11 15 0) (local 2024 6 11 16 0)] /\
  inserts (trace (snd (turn (py "crear cita con Ana") w'))) = [] /\
  In (Printed (ErrorCreando OverflowError))
    (trace (snd (turn (py "crear cita con Ana") w'))) /\
  Forall complete_body
    (inserts (trace (snd (main resolver_cita clock_2330 insert_ok list_empty
                            None
                            (World [py "crear cita con Ana"; py "oficina";
                                    py ""; py "s"] 0 []))))).
Proof.
  cbv zeta.
  assert (Hi : detect_intent resolver_cita (py "crear cita con Ana") = create)
    by (vm_compute; reflexivity).
  assert (Hm : modern_resolver resolver_cita).
  { intros t d H. injection H as <-.
    split; [apply Z.leb_le | apply Z.ltb_lt]; vm_compute; reflexivity. }
  destruct (create_gate resolver_cita clock_2330 insert_ok list_empty None
              [py "crear cita con Ana"; py "oficina"; py ""; py "s"]
              (py "crear cita con Ana")
              (World [py "oficina"; py ""; py "s"] 0 []) Hm)
    as [Hsession Hcreate].
  destruct (Hcreate Hi) as [ev [w1 [E [Hiff [Hmiss [Hover Hfst]]]]]].
  split; [exact Hi|]. split; [exact Hfst|].
  split; [vm_compute; reflexivity|].
  split; [vm_compute; reflexivity|].
  split; [vm_compute; tauto | exact Hsession].
Defined.

(** As the specification words it, the property fails on the code: after the fallback pass
    the draft has a title and a start, the user answers "n", and nothing
    is handed to the calendar. *)
Lemma create_gate_counterexample :
  let w := World [py "oficina"; py ""; py "n"] 0 [] in
  let draft := parse_event_from_text resolver_cita (py "crear cita con Ana") in
  detect_intent resolver_cita (py "crear cita con Ana") = create /\
  (exists ev w1,
     completar_datos resolver_cita draft w = (inl ev, w1) /\
     truthy_str (title ev) = true /\ truthy_dt (start ev) = true) /\
  inserts (trace (snd (main_body resolver_cita clock_2330 insert_ok
                         list_empty None (py "crear cita con Ana") w))) = [].
Proof.
  cbv zeta. split; [vm_compute; reflexivity|]. split.
  - eexists. eexists. split; [vm_compute; reflexivity|].
    split; reflexivity.
  - vm_compute. reflexivity.
Qed.

(** A draft that lacks only the duration: an empty answer, and "45";
    and a draft that lacks the place too, with "casa" and "45". *)
Lemma default_duration_witness :
  fst (completar_datos resolver_none DRAFT_ANA (World [] 0 []))
    = inl (set_duration_min DRAFT_ANA (Some 60%Z)) /\
  fst (completar_datos resolver_none DRAFT_ANA (World [py "45"] 0 []))
    = inl (set_duration_min DRAFT_ANA (Some 45%Z)) /\
  fst (completar_datos resolver_none (set_location DRAFT_ANA None)
         (World [py "casa"; py "45"] 0 []))
    = inl (set_duration_min DRAFT_ANA (Some 45%Z)) /\
  (exists body,
     create_event_body DRAFT_ANA = inl body /\
     body_end body = local 2024 6 11 16 0).
Proof.
  destruct (default_duration resolver_none DRAFT_ANA (World [] 0 []))
    as [_ [H1 H4]].
  destruct (default_duration resolver_none DRAFT_ANA (World [py "45"] 0 []))
    as [_ [H2 _]].
  destruct (default_duration resolver_none (set_location DRAFT_ANA None)
              (World [py "casa"; py "45"] 0 []))
    as [_ [H3 _]].
  split; [|split; [|split]].
  - destruct (H1 eq_refl) as [ev3 [w3 [E [_ [_ ->]]]]].
    vm_compute in E. injection E as <- <-. vm_compute. reflexivity.
  - destruct (H2 eq_refl) as [ev3 [w3 [E [_ [_ ->]]]]].
    vm_compute in E. injection E as <- <-. vm_compute. reflexivity.
  - destruct (H3 eq_refl) as [ev3 [w3 [E [_ [_ ->]]]]].
    vm_compute in E. injection E as <- <-. vm_compute. reflexivity.
  - assert (Hm : modern (instant (local 2024 6 11 15 0))).
    { split; [apply Z.leb_le | apply Z.ltb_lt]; vm_compute; reflexivity. }
    destruct (H4 (local 2024 6 11 15 0) eq_refl Hm eq_refl) as [Hb _].
    destruct (Hb ltac:(vm_compute; reflexivity)) as [body [Eb [_ [He _]]]].
    exists body. split; [exact Eb|]. rewrite He. vm_compute. reflexivity.
Defined.

(** As the specification words it, the property fails on the code: the fallback pass
    writes the default into the field of a draft that had no duration. *)
Lemma default_duration_counterexample :
  duration_min DRAFT_ANA = None /\
  exists ev w',
    completar_datos resolver_none DRAFT_ANA (World [] 0 []) = (inl ev, w') /\
    duration_min ev = Some DEFAULT_DURATION_MIN.
Proof.
  split; [reflexivity|]. eexists. eexists.
  split; [vm_compute; reflexivity | reflexivity].
Qed.

(** "hola" has no date: help.  "mañana" has one and the user declines:
    help after the questions. *)
Lemma unknown_intent_outcome_witness :
  let turn := main_body resolver_manana clock_2330 insert_ok list_empty None in
  detect_intent resolver_manana (py "hola") = unknown /\
  turn (py "hola") (World [] 0 [])
    = (inl tt, World [] 0 [Printed (Line (py AYUDA))]) /\
  detect_intent resolver_manana (py "mañana") = unknown /\
  inserts (trace (snd (turn (py "mañana")
                         (World [py "casa"; py ""; py "n"] 0 [])))) = [].
Proof.
  cbv zeta.
  assert (H1 : detect_intent resolver_manana (py "hola") = unknown)
    by (vm_compute; reflexivity).
  assert (H2 : detect_intent resolver_manana (py "mañana") = unknown)
    by (vm_compute; reflexivity).
  assert (Hm : modern_resolver resolver_manana).
  { intros t d H. unfold resolver_manana in H.
    destruct (list_eq_dec N.eq_dec t (py "mañana")); [|discriminate].
    injection H as <-.
    split; [apply Z.leb_le | apply Z.ltb_lt]; vm_compute; reflexivity. }
  split; [exact H1|]. split.
  - destruct (unknown_intent_outcome resolver_manana clock_2330 insert_ok
                list_empty None (py "hola") (World [] 0 []) Hm H1)
      as [_ [_ [H _]]].
    apply H. vm_compute. reflexivity.
  - split; [exact H2|].
    destruct (unknown_intent_outcome resolver_manana clock_2330 insert_ok
                list_empty None (py "mañana")
                (World [py "casa"; py ""; py "n"] 0 []) Hm H2)
      as [_ [_ [_ H]]].
    destruct (H (local 2024 6 11 0 0) ltac:(vm_compute; reflexivity))
      as [ev [w1 [tr [E [_ [_ [_ Hno]]]]]]].
    apply Hno.
    assert (Ew : (ev, w1) = (match completar_datos resolver_manana
                                 (parse_event_from_text resolver_manana
                                    (py "mañana"))
                                 (World [py "casa"; py ""; py "n"] 0 [])
                         with
                         | (inl e, w') => (e, w')
                         | (inr _, w') => (ev, w')
                         end)) by (rewrite E; reflexivity).
    vm_compute in Ew. injection Ew as -> ->. vm_compute. reflexivity.
Defined.

(** As the specification words it, the property fails on the code: "mañana" is classified
    as [unknown], the resolver finds a date in it, the user confirms,
    and the event is created; no help message is printed. *)
Lemma unknown_intent_counterexample :
  let out := main_body resolver_manana clock_2330 insert_ok list_empty None
               (py "mañana") (World [py "casa"; py ""; py "s"] 0 []) in
  detect_intent resolver_manana (py "mañana") = unknown /\
  inserts (trace (snd out))
    = [mkBody (Some (py "mañana")) (py "casa") []
         (local 2024 6 11 0 0) (local 2024 6 11 1 0)] /\
  ~ In (Line (py AYUDA)) (printed (trace (snd out))).
Proof.
  cbv zeta. split; [vm_compute; reflexivity|].
  split; [vm_compute; reflexivity|].
  vm_compute. intros [H | [H | []]]; discriminate.
Qed.


(* ================================================================== *)
(** * The loops end *)

Section Fuel.

Variable dp : str -> option datetime.
Variable clock : nat -> Z.
Variable calendar_insert : event_body -> option str.
Variable calendar_list : datetime -> datetime -> option (list item).
Variable notify : option str.

(** The bound of [pedir_fecha_hora] is never reached: any larger one
    gives the same run. *)
Lemma pedir_fecha_hora_loop_fuel (n : nat) :
  forall m w,
    (List.length (stdin w) < n)%nat -> (List.length (stdin w) < m)%nat ->
    pedir_fecha_hora_loop dp n w = pedir_fecha_hora_loop dp m w.
Proof.
  induction n as [|n IH]; intros m w Hn Hm; [lia|].
  destruct m as [|m]; [lia|]. simpl.
  rewrite !(bind_inl _ (solicitar_spec _ w)).
  unfold reply. destruct (stdin w) as [|l rest] eqn:E; [reflexivity|].
  destruct (negb (nonempty (strip l))); [reflexivity|].
  destruct (parse_datetime_es dp (strip l)); [reflexivity|].
  unfold bind, say, print, emit. cbn [stdin ticks trace tl].
  apply IH; cbn [stdin]; simpl in Hn, Hm; lia.
Qed.

(** The same for the loop of [main]: the session ends when the input
    does, if not before. *)
Lemma main_loop_fuel (n : nat) :
  forall m w,
    (List.length (stdin w) < n)%nat -> (List.length (stdin w) < m)%nat ->
    main_loop dp clock calendar_insert calendar_list notify n w
      = main_loop dp clock calendar_insert calendar_list notify m w.
Proof.
  induction n as [|n IH]; intros m w Hn Hm; [lia|].
  destruct m as [|m]; [lia|]. simpl.
  rewrite !(bind_inl _ (solicitar_spec _ w)).
  unfold reply. destruct (stdin w) as [|l rest] eqn:E; [reflexivity|].
  destruct (negb (nonempty (strip l)) || is_salir (strip l)); [reflexivity|].
  cbn [tl].
  set (w1 := World rest (ticks w) (trace w ++ [Asked (10%N :: py "Dime: → ")])).
  destruct (safe_main_body dp clock calendar_insert calendar_list notify
              (strip l) w1) as [tr [_ [_ L]]].
  unfold bind.
  destruct (main_body dp clock calendar_insert calendar_list notify
              (strip l) w1) as [[[]|e] w2]; [|reflexivity].
  cbn [snd] in L. unfold w1 in L. cbn [stdin] in L.
  apply IH; simpl in Hn, Hm; lia.
Qed.

End Fuel.

(* ================================================================== *)
(** * Further properties of the classifier *)

Lemma space_case :
  forallb (fun c => stable c && negb (case_ignorable c) && negb (cased c))
    SPACE_CHARS = true.
Proof. vm_compute. reflexivity. Qed.

(** Whitespace has no case and is not set aside by case. *)
Lemma space_stable (c : N) :
  is_space c = true ->
  stable c = true /\ case_ignorable c = false /\ cased c = false.
Proof.
  intros H. apply is_space_cases in H.
  pose proof (proj1 (forallb_forall _ _) space_case c H) as K.
  apply andb_true_iff in K. destruct K as [K K3].
  apply andb_true_iff in K. destruct K as [K1 K2].
  apply negb_true_iff in K2. apply negb_true_iff in K3. auto.
Qed.

Lemma spaces_stable (a : str) : all is_space a -> forallb stable a = true.
Proof.
  induction 1 as [|c a Hc _ IH]; [reflexivity|].
  cbn [forallb]. rewrite (proj1 (space_stable c Hc)), IH. reflexivity.
Qed.

Lemma final_sigma_before (p ws after : str) :
  all is_space ws -> final_sigma (p ++ ws) after = final_sigma p after.
Proof.
  intros Hw. unfold final_sigma.
  induction p as [|x p IH]; cbn [app skip].
  - destruct Hw as [|c ws Hc _]; [reflexivity|].
    destruct (space_stable c Hc) as [_ [Hi Hd]].
    cbn [skip]. rewrite Hi, Hd. reflexivity.
  - destruct (case_ignorable x); [exact IH | reflexivity].
Qed.

Lemma final_sigma_after (before q ws : str) :
  all is_space ws -> final_sigma before (q ++ ws) = final_sigma before q.
Proof.
  intros Hw. unfold final_sigma.
  destruct (skip case_ignorable before) as [|c0 r0]; [reflexivity|].
  f_equal. induction q as [|x q IH]; cbn [app skip].
  - destruct Hw as [|c ws Hc _]; [reflexivity|].
    destruct (space_stable c Hc) as [_ [Hi Hd]].
    cbn [skip]. rewrite Hi, Hd. reflexivity.
  - destruct (case_ignorable x); [exact IH | reflexivity].
Qed.

Lemma lower_from_before (ws : str) :
  all is_space ws ->
  forall s p, lower_from (p ++ ws) s = lower_from p s.
Proof.
  intros Hw. induction s as [|c s IH]; intros p; [reflexivity|].
  cbn [lower_from]. rewrite (final_sigma_before p ws s Hw).
  f_equal. exact (IH (c :: p)).
Qed.

Lemma lower_from_after (b : str) :
  all is_space b ->
  forall s before, lower_from before (s ++ b) = lower_from before s ++ b.
Proof.
  intros Hb. induction s as [|c s IH]; intros before.
  - cbn [app lower_from].
    pose proof (lower_from_stable b (spaces_stable b Hb) before []) as E.
    rewrite app_nil_r in E. rewrite E. cbn [lower_from].
    rewrite app_nil_r. reflexivity.
  - cbn [app lower_from]. rewrite (final_sigma_after before s b Hb).
    rewrite (IH (c :: before)), app_assoc. reflexivity.
Qed.

(** Whitespace around a text stays where it is. *)
Lemma lower_padding (a s b : str) :
  all is_space a -> all is_space b ->
  lower (a ++ s ++ b) = a ++ lower s ++ b.
Proof.
  intros Ha Hb. unfold lower.
  rewrite (lower_from_stable a (spaces_stable a Ha)).
  assert (Hr : all is_space (rev a)).
  { apply Forall_rev. exact Ha. }
  pose proof (lower_from_before (rev a) Hr (s ++ b) []) as E.
  cbn [app] in E. rewrite app_nil_r, E.
  rewrite (lower_from_after b Hb). reflexivity.
Qed.

Lemma stable_targets : forallb (fun p => stable (snd p)) LOWER_PAIRS = true.
Proof. vm_compute. reflexivity. Qed.

Lemma stable_ascii :
  forallb (fun n => forallb stable (lower_full (N.of_nat n))) (seq 0 128)
    = true.
Proof. vm_compute. reflexivity. Qed.

Lemma stable_fixed (c : N) : lower_full c = [c] -> stable c = true.
Proof. intros H. unfold stable. rewrite H. apply N.eqb_refl. Qed.

(** What [str.lower] writes is in lower case. *)
Lemma lower_full_stable (c : N) : forallb stable (lower_full c) = true.
Proof.
  destruct (c <? 0x80)%N eqn:E1.
  - apply N.ltb_lt in E1.
    pose proof (proj1 (forallb_forall _ _) stable_ascii (N.to_nat c)) as K.
    cbv beta in K. rewrite N2Nat.id in K. apply K. apply in_seq. lia.
  - destruct (c =? 0x130)%N eqn:E2.
    + apply N.eqb_eq in E2. subst c. vm_compute. reflexivity.
    + destruct (find (fun p => (fst p =? c)%N) LOWER_PAIRS) as [p|] eqn:F.
      * assert (E : lower_full c = [snd p])
          by (unfold lower_full; rewrite E1, E2, F; reflexivity).
        rewrite E. cbn [forallb]. apply find_some in F. destruct F as [F _].
        rewrite (proj1 (forallb_forall _ _) stable_targets p F). reflexivity.
      * assert (E : lower_full c = [c])
          by (unfold lower_full; rewrite E1, E2, F; reflexivity).
        rewrite E. cbn [forallb]. rewrite (stable_fixed c E). reflexivity.
Qed.

Lemma lower_from_is_stable (s : str) :
  forall before, forallb stable (lower_from before s) = true.
Proof.
  induction s as [|c s IH]; intros before; [reflexivity|].
  cbn [lower_from]. rewrite forallb_app, IH, andb_true_r.
  destruct (c =? 0x3A3)%N; [|apply lower_full_stable].
  destruct (final_sigma before s); vm_compute; reflexivity.
Qed.

Lemma lower_idem (s : str) : lower (lower s) = lower s.
Proof.
  unfold lower at 1.
  pose proof (lower_from_stable (lower s) (lower_from_is_stable s []) [] [])
    as E.
  cbn [lower_from] in E. rewrite !app_nil_r in E. exact E.
Qed.

Lemma startswith_contains (p s : str) :
  startswith p s = true -> contains p s = true.
Proof.
  intros H. destruct s; simpl; rewrite H; reflexivity.
Qed.

Section Classifier.

Variable dp : str -> option datetime.

(** X1.  The classification does not depend on the letter case of the
    utterance nor on whitespace around it. *)
Theorem detect_intent_padding (a text b : str) :
  all is_space a -> all is_space b ->
  detect_intent dp (a ++ text ++ b) = detect_intent dp text /\
  detect_intent dp (a ++ lower text ++ b) = detect_intent dp text.
Proof.
  intros Ha Hb.
  assert (E1 : strip (lower (a ++ text ++ b)) = strip (lower text)).
  { rewrite (lower_padding a text b Ha Hb).
    apply strip_spaces_around; assumption. }
  assert (E2 : strip (lower (a ++ lower text ++ b)) = strip (lower text)).
  { rewrite (lower_padding a (lower text) b Ha Hb), lower_idem.
    apply strip_spaces_around; assumption. }
  unfold detect_intent, parse_datetime_es. cbv zeta.
  rewrite E1, E2. split; reflexivity.
Qed.

(** X2.  An utterance that begins with "agenda" is never [unknown]: it is
    a list request when it mentions "hoy" or "mañana" (today wins over
    tomorrow), even if the rest asks to schedule something, and a
    creation when it has neither word nor a phrase of the list
    vocabulary. *)
Theorem agenda_prefix (text : str) :
  let t := strip (lower text) in
  startswith (py "agenda") t = true ->
  detect_intent dp text <> unknown /\
  (contains (py "hoy") t = true -> detect_intent dp text = list_today) /\
  (contains (py "hoy") t = false -> contains (py "mañana") t = true ->
     detect_intent dp text = list_tomorrow) /\
  (contains (py "hoy") t = false -> contains (py "mañana") t = false ->
   existsb (fun w => contains w t) INTENT_LIST_WORDS = false ->
     detect_intent dp text = create).
Proof.
  intros t Hs.
  assert (Hc : existsb (fun w => contains w t) INTENT_SCHEDULE_WORDS = true).
  { apply existsb_exists. exists (py "agenda"). split.
    - simpl. auto.
    - apply startswith_contains. exact Hs. }
  unfold detect_intent, parse_datetime_es. fold t. cbv zeta.
  rewrite Hs, Hc. cbn [andb].
  split; [|split; [|split]].
  - repeat match goal with
           | |- context [if ?b then _ else _] => destruct b
           end; discriminate.
  - intros H. rewrite H. rewrite orb_true_r. reflexivity.
  - intros H1 H2. rewrite H1, H2. cbn [orb]. rewrite orb_true_r.
    reflexivity.
  - intros H1 H2 H3. rewrite H1, H2, H3. reflexivity.
Qed.

End Classifier.

Lemma detect_intent_padding_witness :
  detect_intent resolver_none (py "  QUÉ DEBO HACER HOY?  ")
    = detect_intent resolver_none (py "qué debo hacer hoy?").
Proof.
  destruct (detect_intent_padding resolver_none (py "  ")
              (py "QUÉ DEBO HACER HOY?") (py "  ")) as [H1 H2].
  - repeat constructor.
  - repeat constructor.
  - change (py "  QUÉ DEBO HACER HOY?  ")
      with (py "  " ++ py "QUÉ DEBO HACER HOY?" ++ py "  ").
    rewrite H1.
    change (py "qué debo hacer hoy?")
      with ([] ++ lower (py "QUÉ DEBO HACER HOY?") ++ []).
    destruct (detect_intent_padding resolver_none []
                (py "QUÉ DEBO HACER HOY?") []) as [_ H3];
      [constructor | constructor |].
    rewrite H3. reflexivity.
Defined.

Lemma agenda_prefix_witness :
  detect_intent resolver_none (py "Agenda una cita hoy a las 5") = list_today /\
  detect_intent resolver_none (py "agenda reunion con Ana") = create.
Proof.
  split.
  - destruct (agenda_prefix resolver_none (py "Agenda una cita hoy a las 5"))
      as [_ [H _]]; [vm_compute; reflexivity|].
    apply H. vm_compute. reflexivity.
  - destruct (agenda_prefix resolver_none (py "agenda reunion con Ana"))
      as [_ [_ [_ H]]]; [vm_compute; reflexivity|].
    apply H; vm_compute; reflexivity.
Defined.

(* ================================================================== *)
(** * Further properties of the extracted slots *)

(** The value of at most three digits. *)
Lemma int_of_digits_bound (ds : str) (n : nat) :
  all is_digit ds -> (List.length ds <= n)%nat -> (n <= 3)%nat ->
  (0 <= int_of_digits ds < 10 ^ Z.of_nat n)%Z.
Proof.
  intros Hd Hl Hn. unfold int_of_digits.
  assert (P : (10 ^ Z.of_nat (List.length ds) <= 10 ^ Z.of_nat n)%Z)
    by (apply Z.pow_le_mono_r; lia).
  destruct ds as [|a [|b [|c [|d ds]]]]; simpl in *; try lia.
  - inversion Hd as [|x l Ha _]; subst.
    pose proof (digit_value_range a Ha). lia.
  - inversion Hd as [|x l Ha Hd1]; subst.
    inversion Hd1 as [|x l Hb _]; subst.
    pose proof (digit_value_range a Ha).
    pose proof (digit_value_range b Hb). lia.
  - inversion Hd as [|x l Ha Hd1]; subst.
    inversion Hd1 as [|x l Hb Hd2]; subst.
    inversion Hd2 as [|x l Hc _]; subst.
    pose proof (digit_value_range a Ha).
    pose proof (digit_value_range b Hb).
    pose proof (digit_value_range c Hc). lia.
Qed.

Lemma first_unit_digits (maxd : nat) (unit text ds : str) :
  first_unit maxd unit text ds ->
  all is_digit ds /\ (List.length ds <= maxd)%nat.
Proof.
  intros [pre [[ws [u [post [_ [_ [Hl [Hd _]]]]]]] _]]. auto.
Qed.

(** X3.  An extracted duration is never negative and never above 99
    hours: the minutes form gives at most 999, the hours form a whole
    number of hours up to 99.  It may be 0. *)
Theorem duration_bounds (dp : str -> option datetime) (text : str) (d : Z) :
  duration_min (parse_event_from_text dp text) = Some d ->
  (0 <= d <= 5940)%Z /\
  (~ no_unit 3 (py "min") text -> (d <= 999)%Z) /\
  (no_unit 3 (py "min") text ->
     exists h, (0 <= h <= 99)%Z /\ d = (h * 60)%Z).
Proof.
  rewrite duration_of_parse.
  destruct (search true RE_MIN text) as [m|] eqn:Em.
  - intros H. injection H as <-.
    destruct (search_unit_some 3 (py "min") eq_refl min_letter text m Em)
      as [ds [-> Hf]].
    destruct (first_unit_digits _ _ _ _ Hf) as [Hd Hl].
    pose proof (int_of_digits_bound ds 3 Hd Hl (le_n 3)) as B.
    cbn [group Nat.eqb]. change (10 ^ Z.of_nat 3)%Z with 1000%Z in B.
    split; [lia|]. split; [intros _; lia|].
    intros H. apply search_min_none in H. rewrite H in Em. discriminate.
  - destruct (search true RE_HORA text) as [m|] eqn:Eh; [|discriminate].
    intros H. injection H as <-.
    destruct (search_unit_some 2 (py "hora") eq_refl hora_letter text m Eh)
      as [ds [-> Hf]].
    destruct (first_unit_digits _ _ _ _ Hf) as [Hd Hl].
    pose proof (int_of_digits_bound ds 2 Hd Hl ltac:(lia)) as B.
    cbn [group Nat.eqb]. change (10 ^ Z.of_nat 2)%Z with 100%Z in B.
    split; [lia|]. split.
    { intros H. destruct H. apply search_min_none. exact Em. }
    intros _. exists (int_of_digits ds). split; [lia | reflexivity].
Qed.

Lemma duration_bounds_witness :
  duration_min (parse_event_from_text resolver_none (py "cita de 0 min"))
    = Some 0%Z /\
  (0 <= 0 <= 5940)%Z.
Proof.
  assert (H : duration_min
                (parse_event_from_text resolver_none (py "cita de 0 min"))
              = Some 0%Z) by (vm_compute; reflexivity).
  split; [exact H|].
  exact (proj1 (duration_bounds resolver_none (py "cita de 0 min") 0 H)).
Defined.

(** ** What [strip] leaves *)

Lemma rstrip_prefix (s : str) :
  exists b, s = rstrip s ++ b /\ all is_space b.
Proof.
  destruct (lstrip_suffix (rev s)) as [a [H1 H2]].
  exists (rev a). split.
  - unfold rstrip. rewrite <- rev_app_distr, <- H1, rev_involutive.
    reflexivity.
  - apply all_rev. exact H2.
Qed.

Lemma strip_decompose (s : str) :
  exists a b, s = a ++ strip s ++ b /\ all is_space a /\ all is_space b.
Proof.
  destruct (lstrip_suffix s) as [a [H1 H2]].
  destruct (rstrip_prefix (lstrip s)) as [b [H3 H4]].
  exists a, b. unfold strip. rewrite <- H3. auto.
Qed.

Lemma lstrip_head (s : str) (c : N) (r : str) :
  lstrip s = c :: r -> is_space c = false.
Proof.
  induction s as [|x s IH]; simpl; [discriminate|].
  destruct (is_space x) eqn:E; [exact IH|].
  intros H. injection H as <- _. exact E.
Qed.

Lemma strip_head (s : str) (c : N) (r : str) :
  strip s = c :: r -> is_space c = false.
Proof.
  intros H. destruct (rstrip_prefix (lstrip s)) as [b [H1 _]].
  fold (strip s) in H1. rewrite H in H1. simpl in H1.
  exact (lstrip_head s c _ H1).
Qed.

Lemma strip_last (s : str) (c : N) (r : str) :
  strip s = r ++ [c] -> is_space c = false.
Proof.
  unfold strip, rstrip. intros H.
  apply (f_equal (@rev N)) in H. rewrite rev_involutive in H.
  rewrite rev_app_distr in H. simpl in H.
  exact (lstrip_head _ c _ H).
Qed.

Lemma strip_no_space_at_ends (s : str) : no_space_at_ends (strip s).
Proof.
  unfold no_space_at_ends. destruct (strip s) as [|c r] eqn:E; [left; reflexivity|].
  right. unfold trimmed. rewrite (strip_head s c r E). cbn [negb andb].
  destruct (@exists_last _ (c :: r)) as [r' [c' E']]; [discriminate|].
  rewrite E'. rewrite last_last. rewrite E' in E.
  rewrite (strip_last s c' r' E). reflexivity.
Qed.

Lemma infix_refl (s : str) : infix s s.
Proof. exists [], []. rewrite app_nil_r. reflexivity. Qed.

Lemma infix_trans (u v s : str) : infix u v -> infix v s -> infix u s.
Proof.
  intros [a [b ->]] [a' [b' ->]]. exists (a' ++ a), (b ++ b').
  rewrite <- !app_assoc. reflexivity.
Qed.

Lemma infix_strip (s : str) : infix (strip s) s.
Proof.
  destruct (strip_decompose s) as [a [b [H _]]]. exists a, b. exact H.
Qed.

Lemma infix_firstn (n : nat) (s : str) : infix (firstn n s) s.
Proof.
  exists [], (skipn n s). simpl. symmetry. apply firstn_skipn.
Qed.

Lemma infix_app (a u b : str) : infix u (a ++ u ++ b).
Proof. exists a, b. reflexivity. Qed.

Lemma infix_contains (u s : str) : infix u s <-> contains u s = true.
Proof. unfold infix. symmetry. apply contains_spec. Qed.

Lemma all_infix (p : N -> bool) (u s : str) : all p s -> infix u s -> all p u.
Proof.
  intros H [a [b ->]]. unfold all in *.
  apply Forall_app in H. destruct H as [_ H].
  apply Forall_app in H. destruct H as [H _]. exact H.
Qed.

(** X4.  The title is always set; it is a contiguous part of the
    utterance and does not begin with whitespace.  Without a connector
    it has at most 30 characters.  When it is what follows a connector,
    it has no whitespace at its ends and no line break. *)
Theorem title_shape (dp : str -> option datetime) (text : str) :
  exists t,
    title (parse_event_from_text dp text) = Some t /\
    infix t text /\
    (forall c r, t = c :: r -> is_space c = false) /\
    (no_connector text -> (List.length t <= 30)%nat) /\
    (forall conn rem, first_connector text conn rem -> strip rem <> [] ->
       t = strip rem /\ no_space_at_ends t /\ all dot t).
Proof.
  rewrite title_of_parse. eexists. split; [reflexivity|].
  assert (F1 : infix (firstn 30 (strip text)) text).
  { eapply infix_trans; [apply infix_firstn | apply infix_strip]. }
  assert (F2 : forall c r, firstn 30 (strip text) = c :: r ->
                           is_space c = false).
  { intros c r H. destruct (strip text) as [|x s] eqn:E; [discriminate|].
    simpl in H. injection H as <- _. exact (strip_head text x s E). }
  destruct (search true RE_TITULO text) as [m|] eqn:Em.
  - destruct (search_titulo_some text m Em) as [conn [rem [Hf Hs]]].
    assert (Hrem : infix (strip rem) text /\ all dot (strip rem)).
    { destruct Hf as [pre [[Ht [_ [_ [ws [g [tail [Hr [_ [Hws [_ [Hd Htl]]]]]]]]]]] _]].
      split.
      - eapply infix_trans; [apply infix_strip|].
        rewrite Ht. exists (pre ++ conn), []. rewrite <- !app_assoc.
        rewrite app_nil_r. reflexivity.
      - assert (E : strip rem = strip g).
        { rewrite Hr. apply strip_spaces_around; [exact Hws|].
          destruct Htl as [-> | ->]; repeat constructor. }
        rewrite E. exact (all_infix dot _ g Hd (infix_strip g)). }
    rewrite Hs.
    destruct (nonempty (strip rem)) eqn:En.
    + split; [exact (proj1 Hrem)|]. split; [apply strip_head|].
      split.
      * intros Hno. apply search_titulo_none in Hno. rewrite Hno in Em.
        discriminate.
      * intros conn' rem' Hf' _.
        destruct (first_connector_unique _ _ _ _ _ Hf Hf') as [_ <-].
        split; [reflexivity|].
        split; [apply strip_no_space_at_ends | exact (proj2 Hrem)].
    + split; [exact F1|]. split; [exact F2|]. split.
      * intros _. rewrite length_firstn. lia.
      * intros conn' rem' Hf' Hne.
        destruct (first_connector_unique _ _ _ _ _ Hf Hf') as [_ <-].
        destruct (strip rem); [contradiction | discriminate].
  - split; [exact F1|]. split; [exact F2|]. split.
    + intros _. rewrite length_firstn. lia.
    + intros conn rem [pre [Hat _]] _.
      destruct (proj1 (search_titulo_none text) Em pre conn rem Hat).
Qed.

Lemma title_shape_witness :
  exists t,
    title (parse_event_from_text resolver_none
             (py "una reunion larguisima de planificacion anual")) = Some t /\
    (List.length t <= 30)%nat.
Proof.
  destruct (title_shape resolver_none
              (py "una reunion larguisima de planificacion anual"))
    as [t [Ht [_ [_ [Hlen _]]]]].
  exists t. split; [exact Ht|]. apply Hlen.
  apply search_titulo_none. vm_compute. reflexivity.
Defined.

(** ** Location *)

Lemma fold_en_head (en : str) :
  fold_case en = py "en" ->
  exists y1 y2, en = [y1; y2] /\ fold_char y1 = 101%N /\
                fold_char y2 = 110%N /\ is_word y1 = true.
Proof.
  destruct en as [|y1 [|y2 [|y3 en]]]; try discriminate.
  simpl. intros H. injection H as H1 H2.
  exists y1, y2. repeat split; try assumption.
  refine (proj1 (fold_char_letter_word 101 y1 _ H1)). reflexivity.
Qed.

Lemma lugar_matches_inv (b : option N) (rest : str) (c' : cursor) :
  matches true RE_LUGAR (Cursor b rest []) c' ->
  exists en ws g rest',
    rest = en ++ ws ++ g ++ rest' /\ fold_case en = py "en" /\
    is_word_opt b = false /\
    ws <> [] /\ all is_space ws /\ g <> [] /\ all clause_char g /\
    groups c' = [(1%nat, g)].
Proof.
  intros M. unfold RE_LUGAR, plus in M.
  inversion M as [| | |r1 r2 c0 c1 c2 M1 M2| | | | | | |]; subst. clear M.
  inversion M1 as [| | | | | | | |c0 Hwb| |]; subst. clear M1.
  inversion M2 as [| | |r1 r2 c0 c1 c2 M3 M4| | | | | | |]; subst. clear M2.
  destruct (word_inv true (py "en") _ _ M3) as [en [Ha [Hw [Hb Hg]]]].
  apply same_word_fold in Hw; [|reflexivity].
  cbn [before ahead groups] in Ha, Hb, Hg, Hwb.
  inversion M4 as [| | |r1 r2 c0 c3 c2 M5 M6| | | | | | |]; subst. clear M4.
  inversion M5 as [| | | | | |p lo hi b0 ws rest1 g0 Hs Hlo Hhi| | | |];
    subst. clear M5.
  inversion M6 as [| | | | | | |n r c0 c4 M7| | |]; subst. clear M6.
  inversion M7 as [| | | | | |p lo hi b1 g rest2 g1 Hd Hlo2 Hhi2| | | |];
    subst. clear M7.
  cbn [before ahead groups] in *. subst g0.
  exists en, ws, g, rest2. repeat split.
  - exact Hw.
  - destruct (fold_en_head en Hw) as [y1 [y2 [He [_ [_ Hy]]]]].
    rewrite He in Hwb. simpl in Hwb. rewrite Hy in Hwb.
    destruct (is_word_opt b); [discriminate | reflexivity].
  - intros ->. simpl in Hlo. lia.
  - exact Hs.
  - intros ->. simpl in Hlo2. lia.
  - exact Hd.
  - rewrite (firstn_taken g rest2). reflexivity.
Qed.

Lemma lugar_matches_intro (b : option N) (en ws g rest : str) :
  fold_case en = py "en" -> is_word_opt b = false ->
  ws <> [] -> all is_space ws -> g <> [] -> all clause_char g ->
  exists c',
    matches true RE_LUGAR (Cursor b (en ++ ws ++ g ++ rest) []) c'.
Proof.
  intros He Hb Hws Hs Hg Hd. eexists. unfold RE_LUGAR.
  eapply M_Cat.
  { apply M_WordBoundary. simpl.
    destruct (fold_en_head en He) as [y1 [y2 [E [_ [_ Hy]]]]].
    rewrite E. simpl. rewrite Hb, Hy. reflexivity. }
  eapply M_Cat.
  { apply word_intro. apply same_word_fold; [reflexivity | exact He]. }
  eapply M_Cat.
  { unfold plus. apply M_Repeat; [exact Hs | | exact I].
    destruct ws; [contradiction | simpl; lia]. }
  apply M_Group. unfold plus. apply M_Repeat; [exact Hd | | exact I].
  destruct g; [contradiction | simpl; lia].
Qed.

Lemma lugar_at_matches (text pre rem : str) :
  lugar_at text pre rem ->
  exists en c',
    text = pre ++ en ++ rem /\ fold_case en = py "en" /\
    matches true RE_LUGAR (Cursor (last_read None pre) (en ++ rem) []) c'.
Proof.
  intros [en [ws [g [rest [Ht [He [Hb [Hr [Hws [Hs [Hg Hd]]]]]]]]]]].
  destruct (lugar_matches_intro (last_read None pre) en ws g rest
              He Hb Hws Hs Hg Hd) as [c' M].
  exists en, c'. subst rem. auto.
Qed.

Lemma matches_lugar_at (text pre rest : str) (c' : cursor) :
  text = pre ++ rest ->
  matches true RE_LUGAR (Cursor (last_read None pre) rest []) c' ->
  exists en rem g,
    rest = en ++ rem /\ lugar_at text pre rem /\
    groups c' = [(1%nat, g)] /\ g <> [] /\ all clause_char g /\ infix g rem.
Proof.
  intros Ht M.
  destruct (lugar_matches_inv _ _ _ M)
    as [en [ws [g [rest' [Hr [He [Hb [Hws [Hs [Hg [Hd Hgr]]]]]]]]]]].
  exists en, (ws ++ g ++ rest'), g. split; [exact Hr|]. split.
  - exists en, ws, g, rest'. rewrite Ht, Hr. repeat split; assumption.
  - repeat split; try assumption. apply infix_app.
Qed.

Lemma search_lugar_none (text : str) :
  search true RE_LUGAR text = None <-> no_lugar text.
Proof.
  split.
  - intros H pre rem Hat.
    destruct (lugar_at_matches _ _ _ Hat) as [en [c' [Ht [_ M]]]].
    exact (search_not_found _ _ _ H pre (en ++ rem) c' Ht M).
  - intros H. destruct (search true RE_LUGAR text) eqn:E; [|reflexivity].
    destruct (search_found _ _ _ _ E) as [pre [rest [c' [Ht [M _]]]]].
    destruct (matches_lugar_at _ _ _ _ Ht M) as [en [rem [g [_ [Hat _]]]]].
    destruct (H pre rem Hat).
Qed.

Lemma search_lugar_some (text : str) (m : list (nat * str)) :
  search true RE_LUGAR text = Some m ->
  exists pre rem g,
    first_lugar text pre rem /\ m = [(1%nat, g)] /\
    g <> [] /\ all clause_char g /\ infix g text.
Proof.
  intros E.
  destruct (search_found _ _ _ _ E) as [pre [rest [c' [Ht [M [Hg Hleft]]]]]].
  destruct (matches_lugar_at _ _ _ _ Ht M)
    as [en [rem [g [Hr [Hat [Hgr [Hne [Hd Hin]]]]]]]].
  exists pre, rem, g. split; [split; [exact Hat|]|].
  - intros pre' rem' Hat'.
    destruct (lugar_at_matches _ _ _ Hat') as [en' [c'' [Ht' [_ M']]]].
    destruct (Nat.le_gt_cases (List.length pre) (List.length pre'))
      as [Hle | Hlt]; [exact Hle|].
    destruct (Hleft pre' _ c'' Ht' Hlt M').
  - rewrite <- Hg, Hgr. repeat split; try assumption.
    eapply infix_trans; [exact Hin|].
    rewrite Ht, Hr. exists (pre ++ en), []. rewrite <- !app_assoc.
    rewrite app_nil_r. reflexivity.
Qed.

Lemma location_of_parse (dp : str -> option datetime) (text : str) :
  location (parse_event_from_text dp text) =
    match search true RE_LUGAR text with
    | Some m => Some (strip (group 1 m))
    | None => None
    end.
Proof.
  unfold parse_event_from_text, parse_datetime_es. cbv zeta.
  destruct (search true RE_LUGAR text), (search true RE_MIN text),
    (search true RE_HORA text), (dp text), (search true RE_TITULO text);
    cbn [title location duration_min set_title set_start set_location
         set_duration_min PendingEvent_new];
    repeat match goal with
           | |- context [if ?b then _ else _] => destruct b
           end; reflexivity.
Qed.

(** X5.  The location is set exactly when the utterance has the word
    "en" followed by whitespace and some text; it is then a contiguous
    part of the utterance without [.], [,] or line break and without
    whitespace at its ends (it can be empty). *)
Theorem location_shape (dp : str -> option datetime) (text : str) :
  (location (parse_event_from_text dp text) = None <-> no_lugar text) /\
  (forall l, location (parse_event_from_text dp text) = Some l ->
     infix l text /\ all clause_char l /\ no_space_at_ends l).
Proof.
  rewrite location_of_parse. split.
  - rewrite <- search_lugar_none.
    destruct (search true RE_LUGAR text); split; intros H;
      try discriminate; reflexivity.
  - intros l H. destruct (search true RE_LUGAR text) as [m|] eqn:E;
      [|discriminate].
    injection H as <-.
    destruct (search_lugar_some text m E)
      as [pre [rem [g [_ [-> [_ [Hd Hin]]]]]]].
    cbn [group Nat.eqb]. split; [|split].
    + eapply infix_trans; [apply infix_strip | exact Hin].
    + exact (all_infix clause_char _ g Hd (infix_strip g)).
    + apply strip_no_space_at_ends.
Qed.

Lemma location_shape_witness :
  location (parse_event_from_text resolver_none (py "cita con Ana")) = None /\
  (forall l,
     location (parse_event_from_text resolver_none
                 (py "cena en casa de Ana, a las 8")) = Some l ->
     all clause_char l).
Proof.
  split.
  - apply (proj1 (location_shape resolver_none (py "cita con Ana"))).
    apply search_lugar_none. vm_compute. reflexivity.
  - intros l H.
    exact (proj1 (proj2 (proj2 (location_shape resolver_none
                                  (py "cena en casa de Ana, a las 8")) l H))).
Defined.

(** When nothing stops it earlier, a repetition without upper bound
    takes the whole run of its class. *)
Lemma greedy_takes_all (A : Type) (p : N -> bool)
    (k : option N -> str -> option A) (a : A) :
  forall taken rest lo b,
    all p taken -> (forall c r, rest = c :: r -> p c = false) ->
    (lo <= List.length taken)%nat ->
    k (last_read b taken) rest = Some a ->
    greedy p lo None b (taken ++ rest) k = Some a.
Proof.
  induction taken as [|c taken IH]; intros rest lo b Hall Hrest Hlo Hk.
  - simpl in *. assert (lo = O) by lia. subst lo.
    destruct rest as [|c r]; simpl; [exact Hk|].
    rewrite (Hrest c r eq_refl). exact Hk.
  - inversion Hall as [|x l Hc Hall']; subst. simpl. rewrite Hc.
    rewrite (IH rest (pred lo) (Some c) Hall' Hrest); [reflexivity | |exact Hk].
    simpl in Hlo. lia.
Qed.

Lemma take_while_split (p : N -> bool) (s : str) :
  exists r,
    s = take_while p s ++ r /\ all p (take_while p s) /\
    forall c r', r = c :: r' -> p c = false.
Proof.
  induction s as [|x s [r [H1 [H2 H3]]]]; simpl.
  - exists []. repeat split; [constructor | intros; discriminate].
  - destruct (p x) eqn:E.
    + exists r. repeat split.
      * simpl. f_equal. exact H1.
      * constructor; assumption.
      * exact H3.
    + exists (x :: s). repeat split; [constructor|].
      intros c r' H. injection H as <- _. exact E.
Qed.

(** The match of [RE_LUGAR] at an occurrence whose whitespace is
    followed by a character of the location. *)
Lemma match_here_lugar (b : option N) (en rem : str) (c : N) (r : str) :
  fold_case en = py "en" -> is_word_opt b = false ->
  lstrip rem = c :: r -> lstrip rem <> rem -> clause_char c = true ->
  match_here true RE_LUGAR b (en ++ rem)
    = Some [(1%nat, take_while clause_char (lstrip rem))].
Proof.
  intros He Hb Hl Hne Hc.
  destruct (fold_en_head en He) as [y1 [y2 [-> [H1 [H2 Hy]]]]].
  destruct (lstrip_suffix rem) as [ws [Hrem Hws]].
  destruct (take_while_split clause_char (lstrip rem)) as [rest [Hg [Hall Hstop]]].
  unfold match_here, RE_LUGAR.
  change (word (py "en")) with (Cat (Lit 101) (Cat (Lit 110) Eps)).
  cbn [run before ahead groups app hd_error is_word_opt].
  rewrite Hb, Hy. cbn [xorb].
  unfold same_char. rewrite H1, H2.
  change (fold_char 101) with 101%N. change (fold_char 110) with 110%N.
  rewrite !N.eqb_refl.
  unfold plus. cbn [run before ahead groups].
  rewrite Hrem at 1.
  apply greedy_takes_all.
  - exact Hws.
  - intros x y Hx. rewrite Hl in Hx. injection Hx as <- _.
    exact (lstrip_head rem c r Hl).
  - destruct ws as [|x ws]; [|simpl; lia].
    simpl in Hrem. destruct (Hne (eq_sym Hrem)).
  - cbn [before ahead groups].
    rewrite Hg at 1.
    rewrite (greedy_takes_all _ clause_char _
               [(1%nat, take_while clause_char (lstrip rem))]
               (take_while clause_char (lstrip rem)) rest);
      [reflexivity | exact Hall | exact Hstop | |].
    + rewrite Hl. simpl. rewrite Hc. simpl. lia.
    + cbn [groups].
      pose proof (firstn_taken (take_while clause_char (lstrip rem)) rest) as F.
      rewrite <- Hg in F. rewrite F. reflexivity.
Qed.

(** X6.  The location is what follows the leftmost "en" and its
    whitespace, up to the next [.], [,] or line break, trimmed, whenever
    that whitespace is followed by a character other than [.] and [,]. *)
Theorem location_rule (dp : str -> option datetime) (text pre rem : str)
    (c : N) (r : str) :
  first_lugar text pre rem ->
  lstrip rem = c :: r -> clause_char c = true ->
  location (parse_event_from_text dp text)
    = Some (strip (take_while clause_char (lstrip rem))).
Proof.
  intros [Hat Hmin] Hl Hc. rewrite location_of_parse.
  destruct Hat as [en [ws [g [rest [Ht [He [Hb [Hr [Hws [Hs [Hg Hd]]]]]]]]]]].
  assert (Hne : lstrip rem <> rem).
  { rewrite Hr. destruct ws as [|x ws]; [contradiction|].
    inversion Hs as [|y l Hx Hs']; subst.
    intros E. simpl in E. rewrite Hx in E.
    pose proof (lstrip_suffix (ws ++ g ++ rest)) as [a [Ha _]].
    apply (f_equal (@List.length N)) in E.
    apply (f_equal (@List.length N)) in Ha.
    simpl in E. rewrite (length_app a) in Ha. rewrite !length_app in Ha, E.
    lia. }
  pose proof (match_here_lugar (last_read None pre) en rem c r He Hb Hl Hne Hc)
    as Hm.
  destruct (search true RE_LUGAR text) as [m|] eqn:E.
  - destruct (search_from_some true RE_LUGAR m text None E)
      as [pre0 [rest0 [Ht0 [Hm0 Hleft]]]].
    assert (Hlen : List.length pre0 = List.length pre).
    { apply Nat.le_antisymm.
      - destruct (Nat.le_gt_cases (List.length pre0) (List.length pre))
          as [Hle | Hlt]; [exact Hle|].
        rewrite (Hleft pre (en ++ rem) Ht Hlt) in Hm. discriminate.
      - destruct (match_here_sound _ _ _ _ _ Hm0) as [c0 [M0 _]].
        destruct (matches_lugar_at _ _ _ _ Ht0 M0)
          as [en0 [rem0 [g0 [_ [Hat0 _]]]]].
        exact (Hmin _ _ Hat0). }
    rewrite Ht in Ht0.
    destruct (app_same_length _ _ _ _ Ht0 (eq_sym Hlen)) as [<- <-].
    rewrite Hm in Hm0. injection Hm0 as <-. reflexivity.
  - rewrite (search_from_none true RE_LUGAR text None E pre (en ++ rem) Ht)
      in Hm. discriminate.
Qed.

Lemma location_rule_witness :
  location (parse_event_from_text resolver_none
              (py "En  casa de Ana , a las 8 en punto"))
    = Some (py "casa de Ana").
Proof.
  assert (Hat : lugar_at (py "En  casa de Ana , a las 8 en punto") []
                  (py "  casa de Ana , a las 8 en punto")).
  { exists (py "En"), (py "  "), (py "casa de Ana "), (py ", a las 8 en punto").
    split; [vm_compute; reflexivity|]. split; [vm_compute; reflexivity|].
    split; [reflexivity|]. split; [vm_compute; reflexivity|].
    split; [vm_compute; discriminate|].
    split; [vm_compute; repeat (constructor; [reflexivity|]); constructor|].
    split; [vm_compute; discriminate|].
    vm_compute. repeat (constructor; [reflexivity|]). constructor. }
  rewrite (location_rule resolver_none
             (py "En  casa de Ana , a las 8 en punto") []
             (py "  casa de Ana , a las 8 en punto") 99%N
             (py "asa de Ana , a las 8 en punto")).
  - vm_compute. reflexivity.
  - split; [exact Hat|]. intros pre' rem' _. simpl. lia.
  - vm_compute. reflexivity.
  - reflexivity.
Defined.


(* ================================================================== *)
(** * Further properties of the prompts *)

Section Prompts.

Variable dp : str -> option datetime.

(** The loop goes through the rejected replies and then does whatever
    its next turn does on what follows them. *)
Lemma pedir_fecha_hora_loop_skips (res : option datetime) (tail left : list str) :
  (forall n w0, stdin w0 = tail ->
     pedir_fecha_hora_loop dp (S n) w0
       = (inl res, World left (ticks w0) (trace w0 ++ [Asked PREGUNTA_FECHA]))) ->
  forall bads n w,
    Forall (rejected dp) bads -> stdin w = bads ++ tail ->
    (List.length (stdin w) < n)%nat ->
    pedir_fecha_hora_loop dp n w
      = (inl res, World left (ticks w) (trace w ++ preguntas_fecha bads)).
Proof.
  intros Hlast. induction bads as [|l bads IH]; intros n w Hb Hs Hn.
  - destruct n as [|n]; [lia|]. apply Hlast. exact Hs.
  - destruct n as [|n]; [lia|]. inversion Hb as [|x y [Hne Hnone] Hb']; subst.
    cbn [pedir_fecha_hora_loop]. rewrite (bind_inl _ (solicitar_spec _ w)).
    unfold reply. rewrite Hs. cbn [app tl]. rewrite Hne. cbn [negb].
    unfold parse_datetime_es. rewrite Hnone.
    unfold bind, say, print, emit. cbn [stdin ticks trace].
    rewrite IH; [|exact Hb'|reflexivity|].
    + cbn [ticks trace]. unfold preguntas_fecha, PREGUNTA_FECHA.
      cbn [flat_map]. rewrite <- !app_assoc. cbn [app]. reflexivity.
    + cbn [stdin]. rewrite Hs in Hn. cbn [app List.length] in Hn. lia.
Qed.

(** X7.  [pedir_fecha_hora] asks again after every reply that is not
    empty and has no date, with a message each time; it returns the date
    of the first reply that has one, and [None] at the first empty reply
    or at the end of the input.  It reads exactly the lines it went
    through and never raises. *)
Theorem pedir_fecha_hora_run (bads : list str) (rest : list str) (w : world) :
  Forall (rejected dp) bads ->
  (forall good dt,
     stdin w = bads ++ good :: rest ->
     nonempty (strip good) = true -> dp (strip good) = Some dt ->
     pedir_fecha_hora dp w
       = (inl (Some dt),
          World rest (ticks w) (trace w ++ preguntas_fecha bads))) /\
  (forall l,
     stdin w = bads ++ l :: rest -> nonempty (strip l) = false ->
     pedir_fecha_hora dp w
       = (inl None, World rest (ticks w) (trace w ++ preguntas_fecha bads))) /\
  (stdin w = bads ->
     pedir_fecha_hora dp w
       = (inl None, World [] (ticks w) (trace w ++ preguntas_fecha bads))).
Proof.
  intros Hb. unfold pedir_fecha_hora. split; [|split].
  - intros good dt Hs Hne Hdt.
    apply (pedir_fecha_hora_loop_skips (Some dt) (good :: rest) rest);
      [|exact Hb|exact Hs|lia].
    intros n w0 H0. cbn [pedir_fecha_hora_loop].
    rewrite (bind_inl _ (solicitar_spec _ w0)).
    unfold reply. rewrite H0. rewrite Hne. cbn [negb tl].
    unfold parse_datetime_es, PREGUNTA_FECHA. rewrite Hdt. reflexivity.
  - intros l Hs Hne.
    apply (pedir_fecha_hora_loop_skips None (l :: rest) rest);
      [|exact Hb|exact Hs|lia].
    intros n w0 H0. cbn [pedir_fecha_hora_loop].
    rewrite (bind_inl _ (solicitar_spec _ w0)).
    unfold reply, PREGUNTA_FECHA. rewrite H0. rewrite Hne. reflexivity.
  - intros Hs.
    apply (pedir_fecha_hora_loop_skips None [] []);
      [|exact Hb|rewrite app_nil_r; exact Hs|lia].
    intros n w0 H0. cbn [pedir_fecha_hora_loop].
    rewrite (bind_inl _ (solicitar_spec _ w0)).
    unfold reply, PREGUNTA_FECHA. rewrite H0. reflexivity.
Qed.


End Prompts.

Lemma pedir_fecha_hora_run_witness :
  pedir_fecha_hora resolver_manana
    (World [py "pronto"; py " el martes "; py "mañana"; py "x"] 0 [])
  = (inl (Some (local 2024 6 11 0 0)),
     World [py "x"] 0 (preguntas_fecha [py "pronto"; py " el martes "])).
Proof.
  destruct (pedir_fecha_hora_run resolver_manana
              [py "pronto"; py " el martes "] [py "x"]
              (World [py "pronto"; py " el martes "; py "mañana"; py "x"] 0 []))
    as [H _].
  - repeat constructor.
  - apply (H (py "mañana") (local 2024 6 11 0 0)); reflexivity.
Defined.

(* ================================================================== *)
(** * Further properties of the fallback pass and of the request *)

Lemma calm_and (A : Type) (m : IO A) (P Q : A -> Prop) :
  calm m P -> calm m Q -> calm m (fun a => P a /\ Q a).
Proof.
  intros HP HQ w.
  destruct (HP w) as [a [w1 [tr [E [Ha [T [C [K L]]]]]]]].
  destruct (HQ w) as [a' [w1' [tr' [E' [Ha' _]]]]].
  rewrite E in E'. injection E' as <- <-.
  exists a, w1, tr. repeat split; auto.
Qed.

Lemma calm_pedir_titulo_norm :
  calm pedir_titulo (fun v => v = None \/ truthy_str v = true).
Proof.
  unfold pedir_titulo. eapply calm_bind; [apply calm_solicitar|].
  intros resp _. apply calm_ret. unfold or_None.
  destruct (nonempty resp) eqn:E; [right; exact E | left; reflexivity].
Qed.

Lemma calm_pedir_lugar_norm :
  calm pedir_lugar (fun v => v = None \/ truthy_str v = true).
Proof.
  unfold pedir_lugar. eapply calm_bind; [apply calm_solicitar|].
  intros resp _. apply calm_ret. unfold or_None.
  destruct (nonempty resp) eqn:E; [right; exact E | left; reflexivity].
Qed.

Lemma calm_pedir_duracion_pos :
  calm pedir_duracion (fun v => v = None \/ exists n, v = Some n /\ (0 < n)%Z).
Proof.
  unfold pedir_duracion. eapply calm_bind; [apply calm_solicitar|].
  intros resp _. destruct (negb (nonempty resp)).
  - apply calm_ret. left. reflexivity.
  - destruct (int resp) as [n|]; apply calm_ret; [|left; reflexivity].
    destruct (0 <? n)%Z eqn:E; [|left; reflexivity].
    right. exists n. split; [reflexivity|]. apply Z.ltb_lt. exact E.
Qed.

Section Fallback.

Variable dp : str -> option datetime.

(** The slots after the pass: the ones that were asked for are unset or
    not empty, the duration asked for is positive. *)
Lemma calm_completar_datos_norm (ev : PendingEvent) :
  calm (completar_datos dp ev)
    (fun ev' =>
       normalised ev' /\
       (truthy_int (duration_min ev) = false ->
          exists d, duration_min ev' = Some d /\ (0 < d)%Z)).
Proof.
  unfold completar_datos.
  eapply calm_bind with (Q := fun e => duration_min e = duration_min ev).
  { destruct (negb (truthy_dt (start ev))); [|apply calm_ret; reflexivity].
    eapply calm_bind; [apply (calm_pedir_fecha_hora dp)|]. intros v _.
    apply calm_ret. reflexivity. }
  intros ev1 D1.
  eapply calm_bind
    with (Q := fun e => duration_min e = duration_min ev /\
                        (title e = None \/ truthy_str (title e) = true)).
  { destruct (truthy_str (title ev1)) eqn:E; cbn [negb].
    - apply calm_ret. auto.
    - eapply calm_bind; [apply calm_pedir_titulo_norm|]. intros v Hv.
      apply calm_ret. cbn. auto. }
  intros ev2 [D2 T2].
  eapply calm_bind
    with (Q := fun e => duration_min e = duration_min ev /\
                        (title e = None \/ truthy_str (title e) = true) /\
                        (location e = None \/ truthy_str (location e) = true)).
  { destruct (truthy_str (location ev2)) eqn:E; cbn [negb].
    - apply calm_ret. auto.
    - eapply calm_bind; [apply calm_pedir_lugar_norm|]. intros v Hv.
      apply calm_ret. cbn. auto. }
  intros ev3 [D3 [T3 L3]].
  eapply calm_bind
    with (Q := fun e => normalised e /\
                        (truthy_int (duration_min ev) = false ->
                           exists d, duration_min e = Some d /\ (0 < d)%Z)).
  { destruct (truthy_int (duration_min ev3)) eqn:E; cbn [negb].
    - apply calm_ret. split.
      + split; [exact T3|]. split; [exact L3|].
        unfold truthy_int in E. destruct (duration_min ev3) as [d|];
          [|discriminate].
        exists d. split; [reflexivity|].
        apply negb_true_iff in E. apply Z.eqb_neq in E. exact E.
      + intros F. rewrite <- D3, E in F. discriminate.
    - eapply calm_bind; [apply calm_pedir_duracion_pos|]. intros v Hv.
      apply calm_ret.
      assert (Hd : exists d,
                 (if truthy_int v then v else Some DEFAULT_DURATION_MIN)
                   = Some d /\ (0 < d)%Z).
      { destruct Hv as [-> | [n [-> Hn]]].
        - exists 60%Z. split; [reflexivity | lia].
        - exists n. split; [|exact Hn]. cbn.
          destruct (n =? 0)%Z eqn:E0; [|reflexivity].
          apply Z.eqb_eq in E0. lia. }
      destruct Hd as [d [Hd Hpos]]. split.
      + split; [exact T3|]. split; [exact L3|].
        exists d. cbn. split; [exact Hd | lia].
      + intros _. exists d. cbn. auto. }
  intros ev4 H4. apply calm_ret. exact H4.
Qed.

(** X9.  The fallback pass never raises.  It leaves a draft in which the
    title and the location are unset or not empty and the duration is
    set and not zero.  A draft that already has its four slots is
    returned as it is, and nothing is asked or read. *)
Theorem completar_datos_normalises (ev : PendingEvent) (w : world) :
  (exists ev' w',
     completar_datos dp ev w = (inl ev', w') /\ normalised ev') /\
  (truthy_dt (start ev) = true -> truthy_str (title ev) = true ->
   truthy_str (location ev) = true -> truthy_int (duration_min ev) = true ->
     completar_datos dp ev w = (inl ev, w)).
Proof.
  split.
  - destruct (calm_completar_datos_norm ev w)
      as [ev' [w' [tr [E [[Hn _] _]]]]].
    exists ev', w'. auto.
  - intros Hs Ht Hl Hd. unfold completar_datos.
    rewrite Hs. cbn [negb]. rewrite bind_ret.
    rewrite Ht. cbn [negb]. rewrite bind_ret.
    rewrite Hl. cbn [negb]. rewrite bind_ret.
    rewrite Hd. cbn [negb]. rewrite bind_ret. reflexivity.
Qed.

End Fallback.

Lemma completar_datos_normalises_witness :
  completar_datos resolver_none
    (set_duration_min DRAFT_ANA (Some 45%Z)) (World [py "x"] 0 [])
  = (inl (set_duration_min DRAFT_ANA (Some 45%Z)), World [py "x"] 0 []).
Proof.
  apply (proj2 (completar_datos_normalises resolver_none
                  (set_duration_min DRAFT_ANA (Some 45%Z))
                  (World [py "x"] 0 []))); reflexivity.
Defined.

(* ================================================================== *)
(** * Further properties of the calls to the calendar *)

Section Calendar.

Variable dp : str -> option datetime.
Variable clock : nat -> Z.
Variable calendar_insert : event_body -> option str.
Variable calendar_list : datetime -> datetime -> option (list item).
Variable notify : option str.


Let turn := main_body dp clock calendar_insert calendar_list notify.

(** X11.  When the classifier answers [list_date] and the resolver then
    finds no date in the utterance as typed (the classifier had looked
    at it in lower case), the turn reads the clock, asks the calendar
    nothing and ends with the help message. *)
Theorem list_date_fallthrough (texto : str) (w : world) :
  detect_intent dp texto = list_date -> dp texto = None ->
  turn texto w
    = (inl tt, World (stdin w) (S (ticks w))
                 (trace w ++ [Printed (Line (py AYUDA))])).
Proof.
  intros Hi Hn. unfold turn, main_body. rewrite Hi. cbn [is_list_intent].
  unfold bind at 1. unfold main_list, datetime_now, parse_datetime_es.
  unfold bind at 1. rewrite Hn. unfold ret at 1.
  pose proof (main_unknown_cases dp calendar_insert notify texto
                (World (stdin w) (S (ticks w)) (trace w))) as Hc.
  cbv zeta in Hc. destruct Hc as [[_ Ho] | [dt [ev [w1 [tr1 [Hd _]]]]]].
  - exact Ho.
  - rewrite Hn in Hd. discriminate.
Qed.

End Calendar.


Lemma list_date_fallthrough_witness :
  detect_intent resolver_minusculas (py "Listar 12/09") = list_date /\
  main_body resolver_minusculas clock_2330 insert_ok list_empty None
    (py "Listar 12/09") (World [] 0 [])
  = (inl tt, World [] 1 [Printed (Line (py AYUDA))]).
Proof.
  assert (H : detect_intent resolver_minusculas (py "Listar 12/09") = list_date)
    by (vm_compute; reflexivity).
  split; [exact H|].
  apply (list_date_fallthrough resolver_minusculas clock_2330 insert_ok
           list_empty None (py "Listar 12/09") (World [] 0 []) H).
  vm_compute. reflexivity.
Defined.

(* ================================================================== *)
(** * What a session does to the outside and how it ends *)

Lemma duration_of_parse_nonneg (dp : str -> option datetime) (text : str)
    (d : Z) :
  duration_min (parse_event_from_text dp text) = Some d -> (0 <= d)%Z.
Proof.
  rewrite duration_of_parse.
  destruct (search true RE_MIN text) as [m|] eqn:Em.
  - intros H. injection H as <-.
    destruct (search_unit_some 3 (py "min") eq_refl min_letter text m Em)
      as [ds [-> Hf]].
    destruct (first_unit_digits _ _ _ _ Hf) as [Hd Hl].
    pose proof (int_of_digits_bound ds 3 Hd Hl (le_n 3)) as B.
    cbn [group Nat.eqb]. lia.
  - destruct (search true RE_HORA text) as [m|] eqn:Eh; [|discriminate].
    intros H. injection H as <-.
    destruct (search_unit_some 2 (py "hora") eq_refl hora_letter text m Eh)
      as [ds [-> Hf]].
    destruct (first_unit_digits _ _ _ _ Hf) as [Hd Hl].
    pose proof (int_of_digits_bound ds 2 Hd Hl ltac:(lia)) as B.
    cbn [group Nat.eqb]. lia.
Qed.

(** The draft that the fallback pass makes of an utterance has no end
    and a positive duration. *)
Lemma calm_completar_datos_parse (dp : str -> option datetime) (texto : str) :
  calm (completar_datos dp (parse_event_from_text dp texto)) timed.
Proof.
  eapply calm_weaken.
  - apply calm_and; [apply (calm_completar_datos dp)
                    |apply (calm_completar_datos_norm dp)].
  - cbv beta. intros ev [[_ K] [_ Hd]].
    destruct K as [_ [_ [_ [Kd [Ke _]]]]]. split.
    + rewrite Ke. apply (slots_of_parse dp dp texto).
    + destruct (truthy_int (duration_min (parse_event_from_text dp texto)))
        eqn:T; [|exact (Hd eq_refl)].
      rewrite (Kd eq_refl).
      destruct (duration_min (parse_event_from_text dp texto)) as [d|] eqn:D;
        [|discriminate].
      exists d. split; [reflexivity|].
      pose proof (duration_of_parse_nonneg dp texto d D).
      cbn [truthy_int] in T. apply negb_true_iff in T.
      apply Z.eqb_neq in T. lia.
Qed.

(** ** The session, for any property of traces that sequencing keeps *)

Section Outside.

Variable dp : str -> option datetime.
Variable clock : nat -> Z.
Variable calendar_insert : event_body -> option str.
Variable calendar_list : datetime -> datetime -> option (list item).
Variable notify : option str.

Variable T : list io_event -> Prop.
Variable X : exn -> list io_event -> Prop.

Hypothesis T_app : forall a b, T a -> T b -> T (a ++ b).
Hypothesis T_console : forall tr, Forall console tr -> T tr.
Hypothesis X_app : forall e a b, X e b -> X e (a ++ b).

Lemma emits_ret (A : Type) (a : A) (Q : A -> Prop) :
  Q a -> emits T Q X (ret a).
Proof.
  intros H w. exists []. unfold ret. cbn [fst snd]. rewrite app_nil_r.
  split; [reflexivity|]. split; [apply T_console; constructor|].
  split; [exact H | lia].
Qed.

Lemma emits_bind (A B : Type) (m : IO A) (f : A -> IO B)
    (Q : A -> Prop) (R : B -> Prop) :
  emits T Q X m -> (forall a, Q a -> emits T R X (f a)) ->
  emits T R X (bind m f).
Proof.
  intros Hm Hf w. destruct (Hm w) as [tr1 [T1 [F1 [R1 L1]]]].
  unfold bind. destruct (m w) as [[a|e] w1]; cbn [fst snd] in *.
  - destruct (Hf a R1 w1) as [tr2 [T2 [F2 [R2 L2]]]].
    exists (tr1 ++ tr2). split; [rewrite T2, T1, app_assoc; reflexivity|].
    split; [apply T_app; assumption|]. split; [|lia].
    destruct (fst (f a w1)) as [b|e]; [exact R2|].
    apply X_app. exact R2.
  - exists tr1. auto.
Qed.

Lemma emits_calm (A : Type) (m : IO A) (Q : A -> Prop) :
  calm m Q -> emits T Q X m.
Proof.
  intros H w. destruct (H w) as [a [w1 [tr [E [Ha [Tr [C [_ L]]]]]]]].
  exists tr. rewrite E. cbn [fst snd]. split; [exact Tr|].
  split; [exact (T_console tr C) | split; [exact Ha | exact L]].
Qed.

Lemma T_cons (e : io_event) (tr : list io_event) :
  console e -> T tr -> T (e :: tr).
Proof.
  intros He Ht. apply (T_app [e] tr); [|exact Ht].
  apply T_console. constructor; [exact He | constructor].
Qed.

Lemma emits_confirmar_evento (ev : PendingEvent) :
  emits T (fun _ : bool => True) X (confirmar_evento ev).
Proof.
  apply emits_calm. unfold confirmar_evento.
  eapply calm_bind; [apply calm_print|]. intros _ _.
  eapply calm_bind; [apply calm_solicitar|]. intros r _.
  apply calm_ret. exact I.
Qed.

(** What is assumed of the calls to the calendar. *)
Hypothesis T_listed : forall a b, T [Listed a b].

Hypothesis X_listed :
  forall a b, calendar_list a b = None -> X ServiceError [Listed a b].

Hypothesis T_list :
  forall i texto,
    emits T (fun _ : bool => True) X
      (main_list dp clock calendar_list i texto).

Hypothesis T_create :
  forall ev, timed ev -> truthy_dt (start ev) = true ->
             truthy_str (title ev) = true ->
    emits T (fun _ : unit => True) X
      (ok <- confirmar_evento ev ;;
       if negb ok then say "Cancelado."
       else crear_y_avisar calendar_insert notify ev).

Hypothesis T_unknown :
  forall ev, timed ev -> truthy_dt (start ev) = true ->
             truthy_str (title ev) = true ->
    emits T (fun _ : bool => True) X
      (ok <- confirmar_evento ev ;;
       if ok then crear_y_avisar calendar_insert notify ev ;;; ret true
       else ret false).

Lemma emits_list_events (a b : datetime) :
  emits T (fun _ : unit => True) X (list_events calendar_list a b).
Proof.
  intros w. unfold list_events, bind, emit, say, print, emit, raise.
  cbn [stdin ticks trace].
  destruct (calendar_list (astimezone a) (astimezone b)) as [[|i l]|] eqn:E;
    cbn [fst snd trace stdin]; eexists;
    (split; [rewrite <- ?app_assoc; reflexivity|]).
  - split; [|split; [exact I | lia]].
    apply (T_app [_] [_]); [apply T_listed|].
    apply T_console. constructor; [exact I | constructor].
  - split; [|split; [exact I | lia]].
    apply (T_app [_] [_]); [apply T_listed|].
    apply T_console. constructor; [exact I | constructor].
  - split; [apply T_listed|]. split; [|lia].
    apply X_listed. exact E.
Qed.

Lemma emits_range (a b : datetime) (w w0 : world) (m : IO bool) :
  m w = bind (list_events calendar_list a b) (fun _ => ret true) w0 ->
  stdin w0 = stdin w -> trace w0 = trace w ->
  exists tr,
    trace (snd (m w)) = trace w ++ tr /\ T tr /\
    match fst (m w) with
    | inl _ => True
    | inr e => X e tr
    end /\
    (List.length (stdin (snd (m w))) <= List.length (stdin w))%nat.
Proof.
  intros -> Hs Ht.
  assert (H : emits T (fun _ : bool => True) X
                (bind (list_events calendar_list a b) (fun _ => ret true))).
  { eapply emits_bind; [apply emits_list_events|]. intros _ _.
    apply emits_ret. exact I. }
  destruct (H w0) as [tr [Tr [F [R L]]]]. exists tr.
  rewrite <- Hs, <- Ht. auto.
Qed.

Lemma emits_main_create (texto : str) :
  emits T (fun _ : unit => True) X
    (main_create dp calendar_insert notify texto).
Proof.
  unfold main_create. cbv zeta.
  eapply emits_bind;
    [apply emits_calm; apply calm_completar_datos_parse|].
  intros ev Hev.
  destruct (truthy_dt (start ev)) eqn:Hs; cbn [negb orb];
    [|apply emits_calm; apply calm_print].
  destruct (truthy_str (title ev)) eqn:Ht; cbn [negb];
    [|apply emits_calm; apply calm_print].
  exact (T_create ev Hev Hs Ht).
Qed.

Lemma emits_main_unknown (texto : str) :
  emits T (fun _ : unit => True) X
    (main_unknown dp calendar_insert notify texto).
Proof.
  unfold main_unknown. cbv zeta.
  apply emits_bind with (Q := fun _ => True).
  - destruct (truthy_dt (start (parse_event_from_text dp texto)));
      [|apply emits_ret; exact I].
    eapply emits_bind;
      [apply emits_calm; apply calm_completar_datos_parse|].
    intros ev Hev.
    destruct (truthy_dt (start ev)) eqn:Hs; cbn [andb];
      [|apply emits_ret; exact I].
    destruct (truthy_str (title ev)) eqn:Ht; [|apply emits_ret; exact I].
    exact (T_unknown ev Hev Hs Ht).
  - intros [|] _; [apply emits_ret; exact I|].
    apply emits_calm. apply calm_print.
Qed.

Lemma emits_main_body (texto : str) :
  emits T (fun _ : unit => True) X
    (main_body dp clock calendar_insert calendar_list notify texto).
Proof.
  unfold main_body. cbv zeta. apply emits_bind with (Q := fun _ => True).
  - destruct (is_list_intent (detect_intent dp texto));
      [apply T_list | apply emits_ret; exact I].
  - intros [|] _; [apply emits_ret; exact I|].
    destruct (detect_intent dp texto);
      try apply emits_main_unknown; apply emits_main_create.
Qed.

(** How a run ends: with the farewell, or on an exception that [X]
    allows for what the run added. *)
Let ending (r : unit + exn) (tr : list io_event) : Prop :=
  match r with
  | inl _ => exists tr0, tr = tr0 ++ [Printed (Line (py "Hasta luego 👋"))]
  | inr e => X e tr
  end.

(** The loop, with turns enough for the lines to come. *)
Lemma main_loop_outcome (n : nat) :
  forall w,
    (List.length (stdin w) < n)%nat ->
    exists tr,
      trace (snd (main_loop dp clock calendar_insert calendar_list notify n w))
        = trace w ++ tr /\
      T tr /\
      ending
        (fst (main_loop dp clock calendar_insert calendar_list notify n w)) tr.
Proof.
  induction n as [|n IH]; intros w Hn; [lia|].
  cbn [main_loop]. rewrite (bind_inl _ (solicitar_spec _ w)).
  unfold reply. destruct (stdin w) as [|l rest] eqn:Es.
  - cbn [nonempty negb orb tl]. unfold say, print, emit.
    cbn [fst snd stdin ticks trace]. eexists.
    split; [rewrite <- app_assoc; reflexivity|].
    split; [apply T_console; repeat constructor|].
    eexists [_]. reflexivity.
  - cbn [tl]. destruct (negb (nonempty (strip l)) || is_salir (strip l)).
    + unfold say, print, emit.
      cbn [fst snd stdin ticks trace]. eexists.
      split; [rewrite <- app_assoc; reflexivity|].
      split; [apply T_console; repeat constructor|].
      eexists [_]. reflexivity.
    + match goal with
      | |- context [bind ?m _ ?w0] =>
          destruct (emits_main_body (strip l) w0) as [tr [Tr [F [R L]]]];
          unfold bind; destruct (m w0) as [[[]|e] w2]
      end; cbn [fst snd stdin] in *.
      * destruct (IH w2) as [tr' [T' [F' S']]]; [simpl in Hn; lia|].
        exists ((Asked (10%N :: py "Dime: → ") :: tr) ++ tr').
        split; [rewrite T', Tr; cbn [trace];
                rewrite <- !app_assoc; reflexivity|].
        split.
        { apply T_app; [|exact F'].  apply T_cons; [exact I | exact F]. }
        unfold ending in *.
        destruct (fst (main_loop dp clock calendar_insert calendar_list
                         notify n w2)) as [u|e].
        -- destruct S' as [tr0 E].
           exists ((Asked (10%N :: py "Dime: → ") :: tr) ++ tr0).
           rewrite E, <- !app_assoc. reflexivity.
        -- apply X_app. exact S'.
      * exists ([Asked (10%N :: py "Dime: → ")] ++ tr).
        split; [rewrite Tr; cbn [trace];
                rewrite <- !app_assoc; reflexivity|].
        split; [apply T_cons; [exact I | exact F]|].
        apply X_app. exact R.
Qed.

Lemma main_outcome (w : world) :
  exists tr,
    trace (snd (main dp clock calendar_insert calendar_list notify w))
      = trace w ++ tr /\
    T tr /\
    ending (fst (main dp clock calendar_insert calendar_list notify w)) tr.
Proof.
  unfold main, bind, say, print, emit.
  cbn [fst snd stdin ticks trace].
  match goal with
  | |- context [main_loop _ _ _ _ _ ?n ?w0] =>
      destruct (main_loop_outcome n w0) as [tr [Tr [F S']]];
      [cbn [stdin]; lia|];
      destruct (main_loop dp clock calendar_insert calendar_list notify n w0)
        as [[u|e] w2]
  end; cbn [fst snd] in *.
  - destruct S' as [tr0 E].
    eexists. split; [rewrite Tr; cbn [trace]; rewrite <- !app_assoc;
                     cbn [app]; reflexivity|].
    split; [repeat (apply T_cons; [exact I|]); exact F|].
    eexists (_ :: _ :: _ :: _ :: _ :: tr0). rewrite E. reflexivity.
  - eexists. split; [rewrite Tr; cbn [trace]; rewrite <- !app_assoc;
                     cbn [app]; reflexivity|].
    split; [repeat (apply T_cons; [exact I|]); exact F|].
    apply (X_app e [_; _; _; _; _] tr). exact S'.
Qed.

End Outside.

(** ** The events of a session *)

(** A request built from a draft without an end and with a positive
    duration ends after it starts. *)
Lemma well_timed_body (ev : PendingEvent) (body : event_body) :
  create_event_body ev = inl body -> timed ev ->
  well_timed body /\ summary body = title ev.
Proof.
  unfold create_event_body, add_timedelta.
  destruct (start ev) as [s|]; [|discriminate].
  intros Hb [He [d [Hd Hpos]]]. rewrite He in Hb.
  destruct (in_years (shift (astimezone s) 0 (duration_or_default ev)));
    [|discriminate].
  injection Hb as <-.
  unfold well_timed. cbn [body_start body_end summary].
  split; [|reflexivity].
  rewrite instant_add_minutes. unfold duration_or_default. rewrite Hd.
  destruct (d =? 0)%Z eqn:E; [apply Z.eqb_eq in E; lia|].
  assert (0 < MINUTE)%Z by reflexivity. nia.
Qed.

Lemma ok_app (notify : option str) (a b : list io_event) :
  Forall (event_ok notify) a -> Forall (event_ok notify) b ->
  Forall (event_ok notify) (a ++ b).
Proof. intros Ha Hb. apply Forall_app. split; assumption. Qed.

Lemma ok_console (notify : option str) (tr : list io_event) :
  Forall console tr -> Forall (event_ok notify) tr.
Proof.
  intros H. eapply Forall_impl; [|exact H].
  intros e. destruct e; cbn; tauto.
Qed.

Lemma failure_app
    (calendar_list : datetime -> datetime -> option (list item))
    (e : exn) (a b : list io_event) :
  list_failure calendar_list e b -> list_failure calendar_list e (a ++ b).
Proof.
  intros [He [tr0 [x [y [E Hx]]]]].
  split; [exact He|]. exists (a ++ tr0), x, y.
  split; [rewrite E, app_assoc; reflexivity | exact Hx].
Qed.

Lemma failure_listed
    (calendar_list : datetime -> datetime -> option (list item))
    (a b : datetime) :
  calendar_list a b = None ->
  list_failure calendar_list ServiceError [Listed a b].
Proof. intros E. split; [reflexivity|]. exists [], a, b. auto. Qed.

(** The list branch creates nothing, whatever the intent. *)
Lemma main_list_inserts (dp : str -> option datetime) (clock : nat -> Z)
    (calendar_list : datetime -> datetime -> option (list item))
    (i : intent) (texto : str) (w : world) :
  inserts (trace (snd (main_list dp clock calendar_list i texto w)))
    = inserts (trace w).
Proof.
  destruct (is_list_intent i) eqn:Hi.
  - exact (proj1 (main_list_outcome dp clock calendar_list i texto w Hi)).
  - destruct i; try discriminate; reflexivity.
Qed.

Section Events.

Variable dp : str -> option datetime.
Variable clock : nat -> Z.
Variable calendar_insert : event_body -> option str.
Variable calendar_list : datetime -> datetime -> option (list item).
Variable notify : option str.

Let T := Forall (event_ok notify).
Let X := list_failure calendar_list.

Hypothesis clock_modern : forall n, modern (clock n).
Hypothesis dp_modern : modern_resolver dp.

(** The list branch, when the days it asks for are dates: it raises
    only if the calendar refuses the query. *)
Lemma emits_main_list (i : intent) (texto : str) :
  emits T (fun _ : bool => True) X (main_list dp clock calendar_list i texto).
Proof.
  assert (Hl : forall a b, T [Listed a b])
    by (intros a b; constructor; [exact I | constructor]).
  assert (Hr : forall a b w w0,
             main_list dp clock calendar_list i texto w
               = bind (list_events calendar_list a b) (fun _ => ret true) w0 ->
             stdin w0 = stdin w -> trace w0 = trace w ->
             exists tr,
               trace (snd (main_list dp clock calendar_list i texto w))
                 = trace w ++ tr /\ T tr /\
               match fst (main_list dp clock calendar_list i texto w) with
               | inl _ => True
               | inr e => X e tr
               end /\
               (List.length
                  (stdin (snd (main_list dp clock calendar_list i texto w)))
                <= List.length (stdin w))%nat).
  { intros a b w w0.
    exact (emits_range calendar_list T X (ok_app notify) (ok_console notify)
             (failure_app calendar_list) Hl (failure_listed calendar_list)
             a b w w0 (main_list dp clock calendar_list i texto)). }
  assert (Hn : forall w,
             main_list dp clock calendar_list i texto w
               = (inl false, World (stdin w) (S (ticks w)) (trace w)) ->
             exists tr,
               trace (snd (main_list dp clock calendar_list i texto w))
                 = trace w ++ tr /\ T tr /\
               match fst (main_list dp clock calendar_list i texto w) with
               | inl _ => True
               | inr e => X e tr
               end /\
               (List.length
                  (stdin (snd (main_list dp clock calendar_list i texto w)))
                <= List.length (stdin w))%nat).
  { intros w ->. exists []. cbn [fst snd trace stdin]. rewrite app_nil_r.
    split; [reflexivity|]. split; [constructor|]. split; [exact I | lia]. }
  intros w. pose proof (clock_modern (ticks w)) as Hm.
  destruct i eqn:Ei; try (apply Hn; reflexivity).
  - eapply Hr;
      [apply (main_list_days dp clock calendar_list list_today texto w 0 1 Hm);
       auto | reflexivity | reflexivity].
  - eapply Hr;
      [apply (main_list_days dp clock calendar_list list_tomorrow texto w 1 1
                Hm); auto
      | reflexivity | reflexivity].
  - eapply Hr;
      [apply (main_list_days dp clock calendar_list list_week texto w 0 7 Hm);
       auto | reflexivity | reflexivity].
  - destruct (dp texto) as [dt|] eqn:Ed.
    + eapply Hr;
        [apply (main_list_date dp clock calendar_list texto w dt Ed
                  (dp_modern _ _ Ed))
        | reflexivity | reflexivity].
    + apply Hn. unfold main_list, bind, datetime_now, parse_datetime_es.
      rewrite Ed. reflexivity.
Qed.

(** The [try] block on a draft that passed the gate. *)
Lemma emits_crear_y_avisar (ev : PendingEvent) :
  timed ev -> truthy_str (title ev) = true ->
  emits T (fun _ : unit => True) X (crear_y_avisar calendar_insert notify ev).
Proof.
  intros Hev Ht w. unfold crear_y_avisar, create_event, try_except, bind.
  destruct (create_event_body ev) as [body|e] eqn:Eb.
  2:{ unfold raise, print, emit. cbn [fst snd stdin ticks trace].
      eexists. split; [reflexivity|]. split; [|split; [exact I | lia]].
      constructor; [exact I | constructor]. }
  assert (Hok : event_ok notify (Inserted body)).
  { destruct (well_timed_body ev body Eb Hev) as [Hw Hs].
    split; [exact Hw|]. rewrite Hs. exact Ht. }
  unfold emit. cbn [stdin ticks trace].
  destruct (calendar_insert body) as [link|].
  - unfold ret, print, emit, flujo_notificacion. cbn [stdin ticks trace].
    unfold T. revert Hok. unfold event_ok. intros Hok.
    destruct notify as [to|]; cbn [truthy_str negb].
    + destruct (nonempty to) eqn:Ne; cbn [negb]; unfold emit, ret;
        cbn [fst snd stdin ticks trace]; eexists;
        (split; [rewrite <- !app_assoc; reflexivity|]);
        (split; [|split; [exact I | lia]]).
      * constructor; [exact Hok|]. constructor; [exact I|].
        constructor; [split; [reflexivity | exact Ne] | constructor].
      * constructor; [exact Hok|]. constructor; [exact I | constructor].
    + unfold ret. cbn [fst snd stdin ticks trace]. eexists.
      split; [rewrite <- !app_assoc; reflexivity|].
      split; [|split; [exact I | lia]].
      constructor; [exact Hok|]. constructor; [exact I | constructor].
  - unfold raise, print, emit. cbn [fst snd stdin ticks trace]. eexists.
    split; [rewrite <- !app_assoc; reflexivity|].
    split; [|split; [exact I | lia]].
    constructor; [exact Hok|]. constructor; [exact I | constructor].
Qed.


End Events.

(** ** What is confirmed is what is created *)

Lemma shown_body (ev : PendingEvent) (body : event_body) :
  create_event_body ev = inl body -> end_ ev = None ->
  shown body (RESUMEN ev).
Proof.
  unfold create_event_body, add_timedelta, RESUMEN.
  destruct (start ev) as [s|]; [|discriminate].
  intros Hb He. rewrite He in Hb.
  destruct (in_years (shift (astimezone s) 0 (duration_or_default ev)));
    [|discriminate].
  injection Hb as <-.
  cbn [option_map shown summary body_start body_end body_location].
  split; [reflexivity|]. split; [reflexivity|].
  split; [apply instant_add_minutes | reflexivity].
Qed.

Lemma insert_unique (l1 tr3 pre post : list io_event) (body b : event_body) :
  inserts l1 = [] -> inserts tr3 = [] ->
  l1 ++ Inserted body :: tr3 = pre ++ Inserted b :: post ->
  pre = l1 /\ b = body.
Proof.
  intros H1 H3. revert pre. induction l1 as [|e l1 IH]; intros pre E.
  - destruct pre as [|e' pre].
    + cbn [app] in E. injection E as Eb _. auto.
    + cbn [app] in E. injection E as _ E3. rewrite E3, inserts_app in H3.
      cbn [inserts] in H3. destruct (inserts pre); discriminate.
  - destruct pre as [|e' pre].
    + cbn [app] in E. injection E as Ee _. subst e. discriminate.
    + cbn [app] in E. injection E as Ee E'. subst e'.
      assert (H1' : inserts l1 = []) by (destruct e; cbn in H1; congruence).
      destruct (IH H1' pre E') as [-> ->]. auto.
Qed.

Lemma announced_no_inserts (tr : list io_event) :
  inserts tr = [] -> announced tr.
Proof.
  intros H pre b post E. rewrite E, inserts_app in H. cbn [inserts] in H.
  destruct (inserts pre); discriminate.
Qed.

Lemma announced_app (a b : list io_event) :
  announced a -> announced b -> announced (a ++ b).
Proof.
  intros Ha Hb pre x post E.
  apply app_eq_app in E. destruct E as [l [[E1 E2] | [E1 E2]]].
  - destruct l as [|y l].
    + rewrite app_nil_r in E1. cbn [app] in E2.
      destruct (Hb [] x post (eq_sym E2)) as [pre0 [o [Ep _]]].
      destruct pre0; discriminate.
    + cbn [app] in E2. injection E2 as <- E2.
      exact (Ha pre x l E1).
  - destruct (Hb l x post E2) as [pre0 [o [Ep Ho]]].
    exists (a ++ pre0), o. split; [|exact Ho].
    rewrite E1, Ep, app_assoc. reflexivity.
Qed.

Lemma announced_console (tr : list io_event) :
  Forall console tr -> announced tr.
Proof. intros H. apply announced_no_inserts. apply console_inserts. exact H. Qed.

(** The summary, the question and the insert of a confirmed draft. *)
Lemma announced_confirmed (ev : PendingEvent) (body : event_body)
    (tr3 : list io_event) :
  create_event_body ev = inl body -> end_ ev = None -> inserts tr3 = [] ->
  announced (confirmacion ev ++ Inserted body :: tr3).
Proof.
  intros Hb He H3 pre b post E.
  assert (H1 : inserts (confirmacion ev) = []) by reflexivity.
  destruct (insert_unique _ _ _ _ _ _ H1 H3 E) as [-> ->].
  exists [], (RESUMEN ev).
  split; [reflexivity|]. apply shown_body; assumption.
Qed.

Section Announced.

Variable dp : str -> option datetime.
Variable clock : nat -> Z.
Variable calendar_insert : event_body -> option str.
Variable calendar_list : datetime -> datetime -> option (list item).
Variable notify : option str.

Let X (e : exn) (tr : list io_event) : Prop := True.

(** What follows the question: the [try] block or nothing. *)
Lemma confirmed_or_not (ev : PendingEvent) (w : world) :
  end_ ev = None ->
  let w1 := snd (confirmar_evento ev w) in
  exists tr,
    crear_y_avisar calendar_insert notify ev w1
      = (inl tt, World (stdin w1) (ticks w1) (trace w ++ tr)) /\
    announced tr.
Proof.
  intros He. cbv zeta. rewrite confirmar_evento_spec. cbn [snd stdin ticks].
  match goal with
  | |- context [crear_y_avisar _ _ _ ?w0] =>
      pose proof (crear_y_avisar_spec calendar_insert notify ev w0) as Hc
  end.
  destruct (create_event_body ev) as [body|e] eqn:Eb.
  - destruct Hc as [tr3 [E3 R3]]. rewrite E3. cbn [stdin ticks trace].
    eexists. split; [rewrite <- app_assoc; reflexivity|].
    apply (announced_confirmed ev body tr3 Eb He).
    apply reporting_inserts. exact R3.
  - rewrite Hc. cbn [stdin ticks trace].
    eexists. split; [rewrite <- app_assoc; reflexivity|].
    apply announced_no_inserts. reflexivity.
Qed.


End Announced.

